(** * Motion utilities of spikeinterface: a shallow embedding

    Source: [src/spikeinterface/sortingcomponents/motion/motion_utils.py].

    Conventions of the embedding.
    - A float64 value is an exact rational of [Q]: [nan] and [inf] are not
      represented, so every statement is about arrays of finite numbers.
      Where numpy would produce a non-finite value (a quotient with
      divisor zero) the definitions below say so in place.
    - Arithmetic is exact, except where rounding decides an integer: the
      span, the count and the centres of the windows of [get_windows]
      (lines 282-291) are rounded to float64 after each operation
      ([float64_round]).
    - A numpy array is its shape and its row-major buffer ([ndarray]).
    - A Python exception is a constructor of [exn]; a call that can raise
      returns a [result].
    - Library primitives whose code is outside the repository (scipy's
      [RegularGridInterpolator], [np.exp]) are Section variables;
      [scipy.signal.correlate] and [np.allclose] are written out from
      their documented definitions. *)

From Stdlib Require Import QArith Qabs Qround Qminmax Lqa.
From stdpp Require Import gmap strings list pretty.

Local Open Scope Z_scope.

(** ** Exceptions and results *)

Inductive exn : Type :=
  | ValueError (msg : string)
  | IndexError
  | AssertionError
  | AttributeError
  | OverflowError
  | AxisError
  | IOError (msg : string)
  | FileExistsError
  | FileNotFoundError
  | NotADirectoryError
  | UnboundLocalError
  | KeyError.

Inductive result (A : Type) : Type :=
  | Ok (a : A)
  | Raise (e : exn).
Arguments Ok {A} a.
Arguments Raise {A} e.

Definition rbind {A B} (r : result A) (k : A -> result B) : result B :=
  match r with
  | Ok a => k a
  | Raise e => Raise e
  end.

Notation "'let*' x ':=' r 'in' k" := (rbind r (fun x => k))
  (at level 10, x pattern, r at level 100, k at level 200).

Definition py_assert (b : bool) : result unit :=
  if b then Ok tt else Raise AssertionError.

Definition is_ok {A} (r : result A) : bool :=
  match r with Ok _ => true | Raise _ => false end.

(** A [for] loop or comprehension that raises at the first failing item. *)
Fixpoint for_each {A B} (f : A -> result B) (l : list A) : result (list B) :=
  match l with
  | [] => Ok []
  | x :: l' =>
      let* y := f x in
      let* ys := for_each f l' in
      Ok (y :: ys)
  end.

(** ** Python sequences *)

(** [l[i]] with Python's negative indices. *)
Definition py_getitem {A} (l : list A) (i : Z) : result A :=
  let n := Z.of_nat (length l) in
  let j := if i <? 0 then i + n else i in
  if (0 <=? j) && (j <? n)
  then match l !! Z.to_nat j with
       | Some x => Ok x
       | None => Raise IndexError
       end
  else Raise IndexError.

(** [list(range(n))] *)
Definition py_range (n : nat) : list nat := seq 0 n.

(** ** Numbers *)

Definition Qltb (x y : Q) : bool := negb (Qle_bool y x).
Definition Qnonzero (x : Q) : bool := negb (Qeq_bool x 0).

(** [np.maximum], [np.minimum] and [ndarray.clip(lo, hi)], which numpy
    evaluates as [minimum(maximum(x, lo), hi)]. *)
Definition np_maximum (x y : Q) : Q := if Qle_bool x y then y else x.
Definition np_minimum (x y : Q) : Q := if Qle_bool y x then y else x.
Definition clip1 (lo hi x : Q) : Q := np_minimum (np_maximum x lo) hi.

(** [np.min] and [np.max] of a buffer: a reduction without identity. *)
Definition np_min (l : list Q) : result Q :=
  match l with
  | [] => Raise (ValueError "zero-size array to reduction operation minimum which has no identity")
  | x :: l' => Ok (fold_left np_minimum l' x)
  end.

Definition np_max (l : list Q) : result Q :=
  match l with
  | [] => Raise (ValueError "zero-size array to reduction operation maximum which has no identity")
  | x :: l' => Ok (fold_left np_maximum l' x)
  end.

Definition Qsum (l : list Q) : Q := fold_right Qplus 0%Q l.

(** Float [//] and [%] with a non-zero divisor: the floor of the exact
    quotient of the two operands and the remainder with the divisor's
    sign, before its rounding. *)
Definition floor_div (a b : Q) : Z := Qfloor (a / b).
Definition py_mod (a b : Q) : Q := (a - b * inject_Z (floor_div a b))%Q.

(** The integer nearest to [n / d], ties to the even one, for [0 <= n] and
    [0 < d]. *)
Definition round_half_even (n d : Z) : Z :=
  let q := n / d in
  let r := n mod d in
  if 2 * r <? d then q
  else if d <? 2 * r then q + 1
  else if Z.even q then q else q + 1.

(** The float64 nearest to a rational, ties to even: a significand of at
    most 53 bits times a power of two with exponent at least -1074.
    Overflow to [inf] is not represented. *)
Definition float64_round (x : Q) : Q :=
  let n := Z.abs (Qnum x) in
  let d := Z.pos (Qden x) in
  if n =? 0 then 0%Q
  else
    let scaled (e : Z) : Z * Z :=
      if 0 <=? e then (n, d * 2 ^ e) else (n * 2 ^ (- e), d) in
    let e0 := Z.log2 n - Z.log2 d - 52 in
    let e1 := if (scaled e0).1 <? 2 ^ 52 * (scaled e0).2 then e0 - 1 else e0 in
    let e := Z.max e1 (- 1074) in
    let m := Z.sgn (Qnum x) * round_half_even (scaled e).1 (scaled e).2 in
    if 0 <=? e then inject_Z (m * 2 ^ e) else Qmake m (Z.to_pos (2 ^ (- e))).

(** ** Arrays *)

Record ndarray : Type := mk_ndarray {
  shape : list nat;
  data : list Q
}.

Definition ndim (a : ndarray) : nat := length (shape a).
Definition size (a : ndarray) : nat := length (data a).
Definition arr1 (l : list Q) : ndarray := mk_ndarray [length l] l.
Definition nd_map (f : Q -> Q) (a : ndarray) : ndarray :=
  mk_ndarray (shape a) (map f (data a)).

(** ** Spatial windows: [get_windows] *)

(** [win_shape]: one of the three names the loop knows, or another
    string, for which the loop body assigns no window. *)
Inductive win_shape_t : Type :=
  | gaussian
  | rect
  | triangle
  | other_shape (name : string).

(** The one warning of the module: [warnings.warn] in [get_windows]. *)
Inductive warning : Type :=
  | ProbablyNotOverlapping (win_sigma_um win_step_um : Q).

(** Boolean-mask selection [a[mask]]. *)
Definition select_mask (mask : list bool) (a : list Q) : list Q :=
  omap (fun p : bool * Q => if p.1 then Some p.2 else None) (zip mask a).

(** [spatial_bin_edges[1:]], [spatial_bin_edges[:-1]] and their mean. *)
Definition bin_centers_of (spatial_bin_edges : list Q) : list Q :=
  zip_with (fun a b => (1 # 2) * (a + b))%Q
    (tail spatial_bin_edges) (removelast spatial_bin_edges).

Section Windows.
(** [np.exp], a primitive of numpy. *)
Variable np_exp : Q -> Q.

Definition gaussian_window (bin_centers : list Q) (win_center win_sigma_um : Q)
  : list Q :=
  map (fun b => np_exp (- ((b - win_center) ^ 2) / (2 * win_sigma_um ^ 2)))%Q
    bin_centers.

Definition rect_window (bin_centers : list Q) (win_center win_sigma_um : Q)
  : list Q :=
  map (fun b => if Qltb (Qabs (b - win_center)) (win_sigma_um / 2) then 1 else 0)%Q
    bin_centers.

(** The [min()] of an empty selection raises; the final quotient has
    divisor zero (numpy: [nan]) when every selected bin is at the same
    distance from the centre. *)
Definition triangle_window (bin_centers : list Q) (win_center win_sigma_um : Q)
  : result (list Q) :=
  let center_dist := map (fun b => Qabs (b - win_center)) bin_centers in
  let in_window := map (fun d => Qle_bool d (win_sigma_um / 2)) center_dist in
  let win := map Qopp center_dist in
  let win := zip_with (fun (i : bool) w => if i then w else 0%Q) in_window win in
  let* lo := np_min (select_mask in_window win) in
  let win := zip_with (fun (i : bool) w => if i then (w - lo)%Q else w) in_window win in
  let* hi := np_max (select_mask in_window win) in
  Ok (zip_with (fun (i : bool) w => if i then (w / hi)%Q else w) in_window win).

Definition one_window (win_shape : win_shape_t) (bin_centers : list Q)
    (win_sigma_um win_center : Q) : result (list Q) :=
  match win_shape with
  | gaussian => Ok (gaussian_window bin_centers win_center win_sigma_um)
  | rect => Ok (rect_window bin_centers win_center win_sigma_um)
  | triangle => triangle_window bin_centers win_center win_sigma_um
  | other_shape _ => Raise UnboundLocalError
  end.

(** [int((max_ - min_) // win_step_um)]: with divisor zero the float
    quotient is [nan] or [inf], which [int] refuses. *)
Definition num_windows_of (span win_step_um : Q) : result Z :=
  if Qeq_bool win_step_um 0
  then if Qeq_bool span 0
       then Raise (ValueError "cannot convert float NaN to integer")
       else Raise OverflowError
  else Ok (floor_div span win_step_um).

(** [np.arange(num_windows + 1) * win_step_um + min_ + border], each of
    the three operations rounded. *)
Definition centers_of (num_windows : Z) (win_step_um min_ border : Q) : list Q :=
  map (fun i : nat =>
         float64_round
           (float64_round (float64_round (inject_Z (Z.of_nat i) * win_step_um) + min_)
            + border))%Q
    (py_range (Z.to_nat (num_windows + 1))).

(** Lines 309-313: [np.array(windows)], then the optional thresholding and
    renormalisation.  An empty list of windows becomes a 1-D array, on
    which [sum(axis=1)] raises; a row that sums to zero is divided by
    zero (numpy: [nan]). *)
Definition threshold_and_normalize (windows : list (list Q))
    (zero_threshold : option Q) : result (list (list Q)) :=
  match zero_threshold with
  | None => Ok windows
  | Some thr =>
      let windows := map (map (fun w => if Qltb w thr then 0%Q else w)) windows in
      match windows with
      | [] => Raise AxisError
      | _ => Ok (map (fun row => map (fun w => w / Qsum row)%Q row) windows)
      end
  end.

Definition get_windows (rigid : bool) (contact_pos : ndarray)
    (spatial_bin_edges : list Q) (margin_um win_step_um win_sigma_um : Q)
    (win_shape : win_shape_t) (zero_threshold : option Q)
  : list warning * result (list (list Q) * list Q) :=
  let bin_centers := bin_centers_of spatial_bin_edges in
  let n := length bin_centers in
  if rigid then
    ([],
     let windows := [repeat 1%Q n] in
     let* e0 := py_getitem spatial_bin_edges 0 in
     let* e1 := py_getitem spatial_bin_edges (-1) in
     let middle := ((e0 + e1) / 2)%Q in
     let window_centers := [middle] in
     let* windows := threshold_and_normalize windows zero_threshold in
     Ok (windows, window_centers))
  else
    (if Qle_bool win_sigma_um (float64_round (win_step_um / 5))
     then [ProbablyNotOverlapping win_sigma_um win_step_um] else [],
     let* lo := np_min (data contact_pos) in
     let min_ := float64_round (lo - margin_um) in
     let* hi := np_max (data contact_pos) in
     let max_ := float64_round (hi + margin_um) in
     let span := float64_round (max_ - min_) in
     let* num_windows := num_windows_of span win_step_um in
     let border := float64_round (float64_round (py_mod span win_step_um) / 2) in
     let window_centers := centers_of num_windows win_step_um min_ border in
     let* windows :=
       for_each (one_window win_shape bin_centers win_sigma_um) window_centers in
     let* windows := threshold_and_normalize windows zero_threshold in
     Ok (windows, window_centers)).
End Windows.

(** ** Window domains: [get_window_domains] *)

(** [slice(start, stop)] *)
Record slice : Type := mk_slice { start : nat; stop : nat }.

(** [np.flatnonzero(w)]: the indices of the non-zero entries, increasing. *)
Fixpoint flatnonzero_from (i : nat) (w : list Q) : list nat :=
  match w with
  | [] => []
  | x :: w' =>
      if Qnonzero x then i :: flatnonzero_from (S i) w'
      else flatnonzero_from (S i) w'
  end.
Definition flatnonzero (w : list Q) : list nat := flatnonzero_from 0 w.

Definition window_domain (w : list Q) : result slice :=
  let in_window := flatnonzero w in
  let* a := py_getitem in_window 0 in
  let* b := py_getitem in_window (-1) in
  Ok (mk_slice a (b + 1)).

Definition get_window_domains (windows : list (list Q)) : result (list slice) :=
  for_each window_domain windows.

(** ** 1-D correlation: [scipy_conv1d] *)

Inductive corr_mode : Type := mode_same | mode_valid.

(** [scipy.signal.correlate] on two 1-D real arrays, by the classic
    definition: the full correlation [z[k] = sum_l x[l + k - (N - 1)] * y[l]]
    has [M + N - 1] entries; ["valid"] keeps the entries with complete
    overlap, ["same"] the centred [M] entries.  On an empty operand scipy's
    answer depends on the method it selects for 1-D arrays: [np.convolve],
    which raises [ValueError] on an empty array, for ["valid"] and whenever
    [in1] is not shorter than [in2]; otherwise, that is for ["same"] with
    an empty [in1] and a non-empty [in2], its own loop, which returns the
    empty array. *)
Definition correlate_full (x y : list Q) : list Q :=
  let N := Z.of_nat (length y) in
  map (fun k : nat =>
         Qsum (imap (fun (l : nat) (yl : Q) =>
                 let i := Z.of_nat l + Z.of_nat k - (N - 1) in
                 if (0 <=? i) then (default 0%Q (x !! Z.to_nat i) * yl)%Q else 0%Q) y))
      (py_range (length x + length y - 1)).

Definition correlate (in1 in2 : list Q) (mode : corr_mode) : result (list Q) :=
  let M := length in1 in
  let N := length in2 in
  if ((M =? 0)%nat && (N =? 0)%nat) then Raise (ValueError "a cannot be empty")
  else if (N =? 0)%nat then Raise (ValueError "v cannot be empty")
  else if (M =? 0)%nat then
    match mode with
    | mode_valid => Raise (ValueError "v cannot be empty")
    | mode_same => Ok []
    end
  else
    let full := correlate_full in1 in2 in
    match mode with
    | mode_valid => Ok (take (M `max` N - M `min` N + 1)%nat (drop (M `min` N - 1)%nat full))
    | mode_same => Ok (take M (drop ((N - 1) / 2)%nat full))
    end.

(** The [padding] argument: a string, an [int], or any other value (given
    by its text in the error message). *)
Inductive padding_t : Type :=
  | PadStr (s : string)
  | PadInt (p : Z)
  | PadOther (repr : string).

(** [a[i, 0]] of an array of shape [(_, 1, len)]. *)
Definition row_of (len : nat) (buf : list Q) (i : nat) : list Q :=
  take len (drop (i * len)%nat buf).

(** [np.pad(input, [(0, 0), (0, 0), (padding, padding)])] on each row. *)
Definition pad_rows (n length padding : nat) (buf : list Q) : list Q :=
  flat_map (fun m => repeat 0%Q padding ++ row_of length buf m ++ repeat 0%Q padding)
    (py_range n).

(** [output[m, c] = r]: numpy broadcasts [r] into the row of [length_out]
    entries, or refuses. *)
Definition assign_row (length_out : nat) (r : list Q) : result (list Q) :=
  if (length r =? length_out)%nat then Ok r
  else match r with
       | [v] => Ok (repeat v length_out)
       | _ => Raise (ValueError "could not broadcast input array")
       end.

(** Lines 327-353.  [output] is allocated with the dtype of [input] and
    the assignment [output[m, c] = ...] casts to it: the model is of a
    float64 [input], for which the cast changes nothing (an integer
    [input] would have every correlation truncated). *)
Definition scipy_conv1d (input weights : ndarray) (padding : padding_t)
  : result ndarray :=
  match shape input, shape weights with
  | [n; c_in; length], [c_out; in_by_groups; kernel_size] =>
      let* _ := py_assert ((in_by_groups =? c_in)%nat && (c_in =? 1)%nat) in
      let unknown (v : string) : result (corr_mode * (nat * list Q) * Z) :=
        Raise (ValueError ("Unknown 'padding' value of " +:+ v +:+
                           ", 'padding' must be 'same', 'valid' or an integer")) in
      let* resolved :=
        match padding with
        | PadStr s =>
            if String.eqb s "same" then
              Ok (mode_same, (length, data input), Z.of_nat length)
            else if String.eqb s "valid" then
              Ok (mode_valid, (length, data input),
                  Z.of_nat length - 2 * (Z.of_nat kernel_size / 2))
            else unknown s
        | PadInt p =>
            if p <? 0 then Raise (ValueError "index can't contain negative values")
            else
              Ok (mode_valid,
                  ((length + 2 * Z.to_nat p)%nat,
                   pad_rows n length (Z.to_nat p) (data input)),
                  Z.of_nat length - (Z.of_nat kernel_size - 1) + 2 * p)
        | PadOther v => unknown v
        end in
      let '(mode, (length_in, buf), length_out) := resolved in
      let* _ := if length_out <? 0
                then Raise (ValueError "negative dimensions are not allowed")
                else Ok tt in
      let length_out := Z.to_nat length_out in
      let* rows :=
        for_each (fun m =>
          for_each (fun c =>
            let* r := correlate (row_of length_in buf m)
                        (row_of kernel_size (data weights) c) mode in
            assign_row length_out r) (py_range c_out)) (py_range n) in
      Ok (mk_ndarray [n; c_out; length_out] (concat (concat rows)))
  | _, _ => Raise (ValueError "not enough values to unpack")
  end.

(** ** The [Motion] class *)

(** What a [RegularGridInterpolator] object holds: its grid axes, the
    values on the grid and the method's name. *)
Record interpolator : Type := mk_interpolator {
  grid_t : ndarray;
  grid_s : ndarray;
  grid_values : ndarray;
  method : string
}.

(** The attributes of a [Motion] object.  [temporal_bounds] and
    [spatial_bounds] do not exist before [make_interpolators] sets them
    ([None] here: reading them raises [AttributeError]). *)
Record Motion : Type := mk_Motion {
  displacement : list ndarray;
  temporal_bins_s : list ndarray;
  spatial_bins_um : ndarray;
  num_segments : nat;
  interpolators : option (list interpolator);
  interpolation_method : string;
  direction : string;
  dim : nat;
  temporal_bounds : option (list (Q * Q));
  spatial_bounds : option (Q * Q)
}.

Definition set_interpolators (v : list interpolator) (m : Motion) : Motion :=
  mk_Motion (displacement m) (temporal_bins_s m) (spatial_bins_um m)
    (num_segments m) (Some v) (interpolation_method m) (direction m) (dim m)
    (temporal_bounds m) (spatial_bounds m).

Definition set_temporal_bounds (v : list (Q * Q)) (m : Motion) : Motion :=
  mk_Motion (displacement m) (temporal_bins_s m) (spatial_bins_um m)
    (num_segments m) (interpolators m) (interpolation_method m) (direction m)
    (dim m) (Some v) (spatial_bounds m).

Definition set_spatial_bounds (v : Q * Q) (m : Motion) : Motion :=
  mk_Motion (displacement m) (temporal_bins_s m) (spatial_bins_um m)
    (num_segments m) (interpolators m) (interpolation_method m) (direction m)
    (dim m) (temporal_bounds m) (Some v).

(** Assignments to the attributes [direction] (with the [dim] computed
    from it) and [interpolation_method]. *)
Definition set_direction (v : string) (dim : nat) (m : Motion) : Motion :=
  mk_Motion (displacement m) (temporal_bins_s m) (spatial_bins_um m)
    (num_segments m) (interpolators m) (interpolation_method m) v dim
    (temporal_bounds m) (spatial_bounds m).

Definition set_interpolation_method (v : string) (m : Motion) : Motion :=
  mk_Motion (displacement m) (temporal_bins_s m) (spatial_bins_um m)
    (num_segments m) (interpolators m) v (direction m) (dim m)
    (temporal_bounds m) (spatial_bounds m).

(** The two ways [__init__] is called: one array per argument, or one
    list of arrays per argument. *)
Inductive motion_arrays : Type :=
  | one_segment (displacement temporal_bins_s : ndarray)
  | per_segment (displacement temporal_bins_s : list ndarray).

(** [l.index(x)] *)
Fixpoint list_index (x : string) (l : list string) : result nat :=
  match l with
  | [] => Raise (ValueError "is not in list")
  | y :: l' => if String.eqb x y then Ok 0%nat
               else let* i := list_index x l' in Ok (S i)
  end.

Definition check_properties (self : Motion) : result unit :=
  let* _ := py_assert (forallb (fun d => (ndim d =? 2)%nat) (displacement self)) in
  let* _ := py_assert (forallb (fun t => (ndim t =? 1)%nat) (temporal_bins_s self)) in
  py_assert (forallb (fun d => match shape d !! 1%nat with
                               | Some cols => bool_decide (shape (spatial_bins_um self) = [cols])
                               | None => false
                               end)
               (displacement self)).

Definition Motion_init (arrays : motion_arrays) (spatial_bins_um : ndarray)
    (direction interpolation_method : string) : result Motion :=
  let '(displacement, temporal_bins_s) :=
    match arrays with
    | one_segment d t => ([d], [t])
    | per_segment ds ts => (ds, ts)
    end in
  let* dim := list_index direction ["x"; "y"; "z"] in
  let self := mk_Motion displacement temporal_bins_s spatial_bins_um
                (length displacement) None interpolation_method direction dim
                None None in
  let* _ := check_properties self in
  Ok self.

(** Tolerances of [np.allclose]: the float64 values of the literals
    [rtol = 1e-05] and [atol = 1e-08], which are
    [5902958103587057 / 2^69] and [3022314549036573 / 2^78]. *)
Definition rtol : Q := 5902958103587057 # 590295810358705651712.
Definition atol : Q := 3022314549036573 # 302231454903657293676544.

(** [np.isclose(a, b)] on finite values: [|a - b| <= atol + rtol * |b|]. *)
Definition isclose (a b : Q) : bool :=
  Qle_bool (Qabs (a - b)) (atol + rtol * Qabs b).

(** numpy broadcasting of two shapes, aligned on the right: two extents
    agree when they are equal or one of them is [1]. *)
Fixpoint broadcast_rev (s1 s2 : list nat) : option (list nat) :=
  match s1, s2 with
  | [], s | s, [] => Some s
  | d1 :: s1', d2 :: s2' =>
      s ← broadcast_rev s1' s2';
      if (d1 =? d2)%nat then Some (d1 :: s)
      else if (d1 =? 1)%nat then Some (d2 :: s)
      else if (d2 =? 1)%nat then Some (d1 :: s)
      else None
  end.

Definition broadcast_shapes (s1 s2 : list nat) : option (list nat) :=
  reverse <$> broadcast_rev (reverse s1) (reverse s2).

(** The buffer of an array of shape [from] (as many extents as [to])
    broadcast to the shape [to]. *)
Fixpoint broadcast_buf (from to : list nat) (buf : list Q) : list Q :=
  match from, to with
  | d :: from', e :: to' =>
      let chunk := foldr Nat.mul 1%nat from' in
      if (d =? e)%nat
      then flat_map (fun i => broadcast_buf from' to' (take chunk (drop (i * chunk)%nat buf)))
             (py_range e)
      else concat (replicate e (broadcast_buf from' to' buf))
  | _, _ => buf
  end.

Definition broadcast_to (a : ndarray) (to : list nat) : list Q :=
  broadcast_buf (replicate (length to - ndim a) 1%nat ++ shape a) to (data a).

(** [np.allclose(a, b)]: [isclose] everywhere after broadcasting; shapes
    that do not broadcast raise. *)
Definition allclose (a b : ndarray) : result bool :=
  match broadcast_shapes (shape a) (shape b) with
  | None => Raise (ValueError "operands could not be broadcast together")
  | Some s =>
      Ok (forallb (fun p : Q * Q => isclose p.1 p.2)
            (zip (broadcast_to a s) (broadcast_to b s)))
  end.

(** [Motion.__eq__]: the loop over [range(self.num_segments)] with its
    early returns, then the spatial bins. *)
Fixpoint eq_segments (self other : Motion) (segments : list nat) : result bool :=
  match segments with
  | [] => Ok true
  | segment_index :: rest =>
      let i := Z.of_nat segment_index in
      let* d1 := py_getitem (displacement self) i in
      let* d2 := py_getitem (displacement other) i in
      let* close_d := allclose d1 d2 in
      if negb close_d then Ok false
      else
        let* t1 := py_getitem (temporal_bins_s self) i in
        let* t2 := py_getitem (temporal_bins_s other) i in
        let* close_t := allclose t1 t2 in
        if negb close_t then Ok false
        else eq_segments self other rest
  end.

Definition Motion_eq (self other : Motion) : result bool :=
  let* segments_equal := eq_segments self other (py_range (num_segments self)) in
  if negb segments_equal then Ok false
  else
    let* close_s := allclose (spatial_bins_um self) (spatial_bins_um other) in
    if negb close_s then Ok false else Ok true.

(** *** Queries *)

(** The first and last entry of a 1-D array, [t[0]] and [t[-1]]. *)
Definition first_last (t : ndarray) : result (Q * Q) :=
  let* t0 := py_getitem (data t) 0 in
  let* t1 := py_getitem (data t) (-1) in
  Ok (t0, t1).

(** [a[:, dim]] of a 2-D array. *)
Definition column (a : ndarray) (dim : nat) : result ndarray :=
  match shape a with
  | [rows; cols] =>
      if (dim <? cols)%nat
      then Ok (arr1 (map (fun i => default 0%Q (data a !! (i * cols + dim)%nat))
                       (py_range rows)))
      else Raise IndexError
  | _ => Raise IndexError
  end.

(** [np.meshgrid(locations_um, times_s, indexing="ij")] followed by the two
    [ravel()]s: the flattened coordinates and the grid's shape. *)
Definition meshgrid_ij_ravel (locations_um times_s : list Q)
  : list Q * list Q * list nat :=
  (flat_map (fun l => map (fun _ => l) times_s) locations_um,
   flat_map (fun _ => times_s) locations_um,
   [length locations_um; length times_s]).

Section Query.
(** scipy's [RegularGridInterpolator]: what its constructor refuses, and
    the value it returns at one point (time, depth).  A call on an array
    of points evaluates the points one by one and raises when one raises. *)
Variable rgi_check : interpolator -> result unit.
Variable rgi_eval : interpolator -> Q -> Q -> result Q.

Definition RegularGridInterpolator (t s values : ndarray) (method : string)
  : result interpolator :=
  let itp := mk_interpolator t s values method in
  let* _ := rgi_check itp in
  Ok itp.

Definition rgi_call (itp : interpolator) (points : list (Q * Q)) : result (list Q) :=
  for_each (fun p : Q * Q => rgi_eval itp p.1 p.2) points.

(** Each assignment to an attribute is kept when a later line raises. *)
Definition make_interpolators (self : Motion) : Motion * result unit :=
  match for_each (fun j : nat =>
                    let* t := py_getitem (temporal_bins_s self) (Z.of_nat j) in
                    let* d := py_getitem (displacement self) (Z.of_nat j) in
                    RegularGridInterpolator t (spatial_bins_um self) d
                      (interpolation_method self))
          (py_range (num_segments self)) with
  | Raise e => (self, Raise e)
  | Ok itps =>
      let self := set_interpolators itps self in
      match for_each first_last (temporal_bins_s self) with
      | Raise e => (self, Raise e)
      | Ok bounds =>
          let self := set_temporal_bounds bounds self in
          match (let* lo := np_min (data (spatial_bins_um self)) in
                 let* hi := np_max (data (spatial_bins_um self)) in
                 Ok (lo, hi)) with
          | Raise e => (self, Raise e)
          | Ok sb => (set_spatial_bounds sb self, Ok tt)
          end
      end
  end.

(** An attribute that may not have been set yet. *)
Definition attribute {A} (o : option A) : result A :=
  match o with
  | Some v => Ok v
  | None => Raise AttributeError
  end.

(** Lines 111-112: the interpolators are built on the first query. *)
Definition ensure_interpolators (self : Motion) : Motion * result unit :=
  match interpolators self with
  | None => make_interpolators self
  | Some _ => (self, Ok tt)
  end.

(** Lines 114-118: the default of [segment_index]. *)
Definition resolve_segment_index (self : Motion) (segment_index : option Z)
  : result Z :=
  match segment_index with
  | Some i => Ok i
  | None =>
      if (num_segments self =? 1)%nat then Ok 0
      else Raise (ValueError "Several segment need segment_index=")
  end.

(** Lines 120-150. *)
Definition displacement_query (self : Motion) (times_s locations_um : ndarray)
    (segment_index : option Z) (grid : bool) : result ndarray :=
  let* segment_index := resolve_segment_index self segment_index in
  let* locations_um :=
    match ndim locations_um with
    | 1%nat => Ok locations_um
    | 2%nat => column locations_um (dim self)
    | _ => Raise AssertionError
    end in
  let* bounds := attribute (temporal_bounds self) in
  let* tb := py_getitem bounds segment_index in
  let times_s := nd_map (clip1 tb.1 tb.2) times_s in
  let* sb := attribute (spatial_bounds self) in
  let locations_um := nd_map (clip1 sb.1 sb.2) locations_um in
  let* flat :=
    if grid then Ok (meshgrid_ij_ravel (data locations_um) (data times_s))
    else
      let* _ := py_assert (bool_decide (shape locations_um = shape times_s)) in
      let* _ := py_assert (ndim times_s =? 1)%nat in
      Ok (data locations_um, data times_s, shape times_s) in
  let '(locations_flat, times_flat, out_shape) := flat in
  let points := zip times_flat locations_flat in
  let* itps := attribute (interpolators self) in
  let* itp := py_getitem itps segment_index in
  let* displacement := rgi_call itp points in
  Ok (mk_ndarray out_shape displacement).

(** The method: the lazily built cache is part of the object's state,
    which the call returns with its result. *)
Definition get_displacement_at_time_and_depth (self : Motion)
    (times_s locations_um : ndarray) (segment_index : option Z) (grid : bool)
  : Motion * result ndarray :=
  let '(self, made) := ensure_interpolators self in
  (self,
   let* _ := made in
   displacement_query self times_s locations_um segment_index grid).
End Query.

(** Entry [[i, j]] of a 2-D array. *)
Definition get2 (a : ndarray) (i j : nat) : option Q :=
  match shape a with
  | [rows; cols] =>
      if (i <? rows)%nat && (j <? cols)%nat then data a !! (i * cols + j)%nat else None
  | _ => None
  end.

(** *** Persistence: [save] and [load] *)

(** The content of [spikeinterface_info.json].  [info_object] is [None]
    for a JSON file without the key ["object"]. *)
Record info_json : Type := mk_info {
  info_version : string;
  info_dev_mode : bool;
  info_object : option string;
  info_num_segments : nat;
  info_direction : string;
  info_interpolation_method : string
}.

Inductive file : Type :=
  | JsonFile (info : info_json)
  | NpyFile (a : ndarray).

(** A file system: the directories and the files, by path. *)
Record filesystem : Type := mk_fs {
  dirs : gset string;
  files : gmap string file
}.

Definition path_exists (fs : filesystem) (p : string) : bool :=
  bool_decide (p ∈ dirs fs) || bool_decide (is_Some (files fs !! p)).

(** [folder / name] *)
Definition path_join (folder name : string) : string := folder +:+ "/" +:+ name.

Definition write_file (fs : filesystem) (p : string) (f : file) : filesystem :=
  mk_fs (dirs fs) (<[p := f]> (files fs)).

(** The proper ancestors of a path, outermost first: ["a/b/c"] has ["a"]
    and ["a/b"].  A path is the text of [Path(folder)], its components
    separated by ["/"]; the root and the working directory, which always
    exist, are not listed. *)
Definition slash : Ascii.ascii := Ascii.ascii_of_nat 47.

Fixpoint ancestors_from (prefix rest : string) : list string :=
  match rest with
  | EmptyString => []
  | String c rest' =>
      (if Ascii.eqb c slash && negb (String.eqb prefix EmptyString) then [prefix] else [])
      ++ ancestors_from (prefix +:+ String c EmptyString) rest'
  end.
Definition parents (p : string) : list string := ancestors_from EmptyString p.

Definition is_file (fs : filesystem) (p : string) : bool :=
  bool_decide (is_Some (files fs !! p)).

(** [folder.mkdir(exist_ok=False, parents=True)]: an existing path raises
    [FileExistsError], an ancestor that is a regular file raises
    [NotADirectoryError], and otherwise the missing ancestors and the
    folder are created. *)
Definition mkdir (fs : filesystem) (folder : string) : filesystem * result unit :=
  if path_exists fs folder then (fs, Raise FileExistsError)
  else if existsb (is_file fs) (parents folder) then (fs, Raise NotADirectoryError)
  else (mk_fs ({[folder]} ∪ list_to_set (parents folder) ∪ dirs fs) (files fs), Ok tt).

Definition np_load (fs : filesystem) (p : string) : result ndarray :=
  match files fs !! p with
  | Some (NpyFile a) => Ok a
  | Some (JsonFile _) => Raise (ValueError "Cannot load file containing pickled data")
  | None => Raise FileNotFoundError
  end.

Definition json_load (fs : filesystem) (p : string) : result info_json :=
  match files fs !! p with
  | Some (JsonFile info) => Ok info
  | Some (NpyFile _) => Raise (ValueError "JSONDecodeError")
  | None => Raise FileNotFoundError
  end.

(** Modelled from the spec: [check_json] of [spikeinterface.core.core_tools],
    whose code is not in the sources, "a JSON-safe serializer for plain
    Python-like values (numbers, strings, nested containers)": it leaves the
    strings, the integer and the boolean of the metadata as they are. *)
Definition check_json (info : info_json) : info_json := info.

Definition displacement_file (segment_index : nat) : string :=
  "displacement_seg" +:+ pretty segment_index +:+ ".npy".
Definition temporal_bins_file (segment_index : nat) : string :=
  "temporal_bins_s_seg" +:+ pretty segment_index +:+ ".npy".

Section Persistence.
(** [spikeinterface.__version__] and [spikeinterface.DEV_MODE] *)
Variable spikeinterface_version : string.
Variable spikeinterface_DEV_MODE : bool.

(** The loop of lines 178-180; what was written stays when a line raises. *)
Fixpoint save_segments (self : Motion) (folder : string) (segments : list nat)
    (fs : filesystem) : filesystem * result unit :=
  match segments with
  | [] => (fs, Ok tt)
  | segment_index :: rest =>
      match py_getitem (displacement self) (Z.of_nat segment_index) with
      | Raise e => (fs, Raise e)
      | Ok d =>
          let fs := write_file fs (path_join folder (displacement_file segment_index))
                      (NpyFile d) in
          match py_getitem (temporal_bins_s self) (Z.of_nat segment_index) with
          | Raise e => (fs, Raise e)
          | Ok t =>
              let fs := write_file fs
                          (path_join folder (temporal_bins_file segment_index))
                          (NpyFile t) in
              save_segments self folder rest fs
          end
      end
  end.

Definition Motion_save (self : Motion) (folder : string) (fs : filesystem)
  : filesystem * result unit :=
  match mkdir fs folder with
  | (fs, Raise e) => (fs, Raise e)
  | (fs, Ok _) =>
      let info_file := path_join folder "spikeinterface_info.json" in
      let info := mk_info spikeinterface_version spikeinterface_DEV_MODE
                    (Some "Motion") (num_segments self) (direction self)
                    (interpolation_method self) in
      let fs := write_file fs info_file (JsonFile (check_json info)) in
      let fs := write_file fs (path_join folder "spatial_bins_um.npy")
                  (NpyFile (spatial_bins_um self)) in
      save_segments self folder (py_range (num_segments self)) fs
  end.
End Persistence.

(** Lines 182-211.  [folder] is the text of [Path(folder)], which is
    what the error message prints. *)
Definition Motion_load (folder : string) (fs : filesystem) : result Motion :=
  let info_file := path_join folder "spikeinterface_info.json" in
  let err_msg := "Motion.load(folder): the folder " +:+ folder +:+
                 " does not contain a Motion object." in
  if negb (path_exists fs info_file) then Raise (IOError err_msg)
  else
    let* info := json_load fs info_file in
    if negb (bool_decide (info_object info = Some "Motion")) then Raise (IOError err_msg)
    else
      let direction := info_direction info in
      let interpolation_method := info_interpolation_method info in
      let* spatial_bins_um := np_load fs (path_join folder "spatial_bins_um.npy") in
      let* segments :=
        for_each (fun segment_index =>
                    let* d := np_load fs (path_join folder (displacement_file segment_index)) in
                    let* t := np_load fs (path_join folder (temporal_bins_file segment_index)) in
                    Ok (d, t))
          (py_range (info_num_segments info)) in
      Motion_init (per_segment (segments.*1) (segments.*2)) spatial_bins_um
        direction interpolation_method.

(** ** Objects and references: [Motion.copy]

    [copy] is about which arrays two objects share, so here an attribute
    holds a reference into a store of objects and not a value. *)
Module Heap.
Definition addr : Type := positive.

Inductive object : Type :=
  | Array (a : ndarray)
  | PyList (items : list addr)
  | PyTuple (items : list addr).

(** A [Motion] object whose attributes are references. *)
Record motion : Type := mk_motion {
  displacement : addr;
  temporal_bins_s : addr;
  spatial_bins_um : addr;
  num_segments : nat;
  interpolation_method : string;
  direction : string;
  dim : nat
}.

Definition alloc (h : gmap addr object) (o : object) : addr * gmap addr object :=
  let a := fresh (dom h) in (a, <[a := o]> h).

Definition get_array (h : gmap addr object) (a : addr) : result ndarray :=
  match h !! a with
  | Some (Array v) => Ok v
  | _ => Raise AttributeError
  end.

(** The items of a list object: what [a.copy()] needs, a tuple has no
    [copy]. *)
Definition get_list (h : gmap addr object) (a : addr) : result (list addr) :=
  match h !! a with
  | Some (PyList items) => Ok items
  | _ => Raise AttributeError
  end.

(** The items of a list or of a tuple: what [len] and iteration read. *)
Definition get_sequence (h : gmap addr object) (a : addr) : result (list addr) :=
  match h !! a with
  | Some (PyList items) | Some (PyTuple items) => Ok items
  | _ => Raise AttributeError
  end.

(** The arrays a list object refers to. *)
Definition get_arrays (h : gmap addr object) (a : addr) : result (list ndarray) :=
  let* items := get_list h a in
  for_each (get_array h) items.

(** The arrays a list or a tuple refers to. *)
Definition get_sequence_arrays (h : gmap addr object) (a : addr)
  : result (list ndarray) :=
  let* items := get_sequence h a in
  for_each (get_array h) items.

(** The values the attributes of an object refer to, whose
    [displacement] and [temporal_bins_s] are lists or tuples, as a
    [Motion] whose interpolators are not built. *)
Definition values (h : gmap addr object) (self : motion) : result Motion :=
  let* ds := get_sequence_arrays h (displacement self) in
  let* ts := get_sequence_arrays h (temporal_bins_s self) in
  let* s := get_array h (spatial_bins_um self) in
  Ok (mk_Motion ds ts s (num_segments self) None (interpolation_method self)
        (direction self) (dim self) None None).

(** The same for an object whose [displacement] and [temporal_bins_s]
    are lists, the objects [copy] accepts. *)
Definition read (h : gmap addr object) (self : motion) : result Motion :=
  let* ds := get_arrays h (displacement self) in
  let* ts := get_arrays h (temporal_bins_s self) in
  let* s := get_array h (spatial_bins_um self) in
  Ok (mk_Motion ds ts s (num_segments self) None (interpolation_method self)
        (direction self) (dim self) None None).

(** [Motion.__init__] on references: an array argument is wrapped in a
    new list, a list or a tuple is kept as it is. *)
Definition init (h : gmap addr object) (displacement temporal_bins_s spatial_bins_um : addr)
    (direction interpolation_method : string) : gmap addr object * result motion :=
  let wrapped : gmap addr object * result (addr * addr) :=
    match h !! displacement with
    | Some (Array _) =>
        let '(d, h) := alloc h (PyList [displacement]) in
        match h !! temporal_bins_s with
        | Some (Array _) =>
            let '(t, h) := alloc h (PyList [temporal_bins_s]) in
            (h, Ok (d, t))
        | _ => (h, Raise AssertionError)
        end
    | Some (PyList _) | Some (PyTuple _) => (h, Ok (displacement, temporal_bins_s))
    | None => (h, Raise AssertionError)
    end in
  let '(h, lists) := wrapped in
  (h,
   let* lists := lists in
   let* _ := match h !! spatial_bins_um with
             | Some (Array _) => Ok tt
             | _ => Raise AssertionError
             end in
   let* items := get_sequence h lists.1 in
   let* dim := list_index direction ["x"; "y"; "z"] in
   let self := mk_motion lists.1 lists.2 spatial_bins_um (length items)
                 interpolation_method direction dim in
   let* v := values h self in
   let* _ := check_properties v in
   Ok self).

(** [Motion.copy]: [list.copy()] of the two lists, [ndarray.copy()] of
    the spatial bins, and [__init__] with the default [direction].  On a
    tuple [.copy()] raises [AttributeError]. *)
Definition copy (h : gmap addr object) (self : motion)
  : gmap addr object * result motion :=
  match get_list h (displacement self) with
  | Raise e => (h, Raise e)
  | Ok ds =>
      let '(d, h) := alloc h (PyList ds) in
      match get_list h (temporal_bins_s self) with
      | Raise e => (h, Raise e)
      | Ok ts =>
          let '(t, h) := alloc h (PyList ts) in
          match get_array h (spatial_bins_um self) with
          | Raise e => (h, Raise e)
          | Ok s =>
              let '(s', h) := alloc h (Array s) in
              init h d t s' "y" (interpolation_method self)
          end
      end
  end.

(** An in-place write [a.flat[i] = v] through a reference to an array. *)
Definition array_setitem (h : gmap addr object) (a : addr) (i : nat) (v : Q)
  : gmap addr object * result unit :=
  match h !! a with
  | Some (Array arr) =>
      if (i <? length (data arr))%nat
      then (<[a := Array (mk_ndarray (shape arr) (<[i := v]> (data arr)))]> h, Ok tt)
      else (h, Raise IndexError)
  | _ => (h, Raise AttributeError)
  end.
End Heap.

(** ** Predicates of the specification *)

(** [a] is the first, [b] the last index of a non-zero entry of [w]. *)
Definition first_nonzero (w : list Q) (a : nat) : Prop :=
  (exists x, w !! a = Some x /\ ~ (x == 0)%Q) /\
  forall i x, (i < a)%nat -> w !! i = Some x -> (x == 0)%Q.

Definition last_nonzero (w : list Q) (b : nat) : Prop :=
  (exists x, w !! b = Some x /\ ~ (x == 0)%Q) /\
  forall i x, (b < i)%nat -> w !! i = Some x -> (x == 0)%Q.

(** Segment [i] of [a] and [b]: both displacement grids and both
    temporal-bin arrays exist and are close. *)
Definition segment_close (a b : Motion) (i : nat) : Prop :=
  exists da db ta tb,
    displacement a !! i = Some da /\ displacement b !! i = Some db /\
    allclose da db = Ok true /\
    temporal_bins_s a !! i = Some ta /\ temporal_bins_s b !! i = Some tb /\
    allclose ta tb = Ok true.

(** An array whose buffer holds as many entries as its shape says. *)
Definition well_shaped (a : ndarray) : Prop :=
  length (data a) = foldr Nat.mul 1%nat (shape a).

(** Two arrays of one shape with, at some index, entries [x] and [y]
    further apart than the tolerance of [np.isclose]:
    [|x - y| > atol + rtol * |y|]. *)
Definition far_apart (u v : ndarray) : Prop :=
  shape u = shape v /\ well_shaped u /\ well_shaped v /\
  exists k x y, data u !! k = Some x /\ data v !! k = Some y /\
    (atol + rtol * Qabs y < Qabs (x - y))%Q.

(** What [__init__] establishes and the data model adds: the segment
    count is the number of displacement grids, there is one temporal-bin
    array per segment, [dim] is the index of [direction], and the shapes
    pass [check_properties]. *)
Definition Motion_invariant (m : Motion) : Prop :=
  num_segments m = length (displacement m) /\
  length (temporal_bins_s m) = num_segments m /\
  list_index (direction m) ["x"; "y"; "z"] = Ok (dim m) /\
  check_properties m = Ok tt.

(** A time before the first bin is replaced by the first bin, a time
    after the last bin by the last bin. *)
Definition to_boundary (t0 t1 t : Q) : Q :=
  if Qltb t t0 then t0 else if Qltb t1 t then t1 else t.

(** ** Objects of the examples *)

(** The motion of the specification's example: temporal bins [0, 1, 2],
    spatial bins [0, 10], displacement [[0, 0], [1, 2], [2, 4]]. *)
Definition example_motion : Motion :=
  mk_Motion [mk_ndarray [3; 2]%nat [0; 0; 1; 2; 2; 4]%Q] [arr1 [0; 1; 2]%Q]
    (arr1 [0; 10]%Q) 1 None "linear" "y" 1 None None.

(** The same grid in two segments. *)
Definition two_segment_motion : Motion :=
  mk_Motion [mk_ndarray [3; 2]%nat [0; 0; 1; 2; 2; 4]%Q;
             mk_ndarray [3; 2]%nat [0; 0; 1; 2; 2; 4]%Q]
    [arr1 [0; 1; 2]%Q; arr1 [0; 1; 2]%Q]
    (arr1 [0; 10]%Q) 2 None "linear" "y" 1 None None.

(** An interpolator for the examples: it accepts every grid, and at
    (t, s) returns [t * (1 + s / 10)], the bilinear interpolant of the
    example grid. *)
Definition example_check (itp : interpolator) : result unit := Ok tt.
Definition example_eval (itp : interpolator) (t s : Q) : result Q :=
  Ok (t * (1 + s / 10))%Q.

(** A store with one motion of one segment: the displacement grid at
    address 1, the temporal bins at 2, the spatial bins at 3, and the two
    lists of the object at 4 and 5. *)
Definition example_heap : gmap Heap.addr Heap.object :=
  <[1%positive := Heap.Array (mk_ndarray [1; 1]%nat [0%Q])]>
  (<[2%positive := Heap.Array (arr1 [0%Q])]>
  (<[3%positive := Heap.Array (arr1 [0%Q])]>
  (<[4%positive := Heap.PyList [1%positive]]>
  (<[5%positive := Heap.PyList [2%positive]]> ∅)))).

(** The same store with tuples in place of the two lists. *)
Definition tuple_heap : gmap Heap.addr Heap.object :=
  <[1%positive := Heap.Array (mk_ndarray [1; 1]%nat [0%Q])]>
  (<[2%positive := Heap.Array (arr1 [0%Q])]>
  (<[3%positive := Heap.Array (arr1 [0%Q])]>
  (<[4%positive := Heap.PyTuple [1%positive]]>
  (<[5%positive := Heap.PyTuple [2%positive]]> ∅)))).

Definition example_object : Heap.motion :=
  Heap.mk_motion 4%positive 5%positive 3%positive 1 "linear" "x" 0.

(** ** [Motion.__repr__] *)

Section Repr.
(** The text of a float in an f-string. *)
Variable format_float : Q -> string.

(** Lines 62-71.  [self.temporal_bins_s[0][1]] is read before
    [self.temporal_bins_s[0][0]]. *)
Definition Motion_repr (self : Motion) : result string :=
  let* nbins := py_getitem (shape (spatial_bins_um self)) 0 in
  let rigid_txt :=
    if (nbins =? 1)%nat then "rigid"
    else "non-rigid - " +:+ pretty nbins +:+ " spatial bins" in
  let* t := py_getitem (temporal_bins_s self) 0 in
  let* t1 := py_getitem (data t) 1 in
  let* t0 := py_getitem (data t) 0 in
  let interval_s := (t1 - t0)%Q in
  Ok ("Motion " +:+ rigid_txt +:+ " - interval " +:+ format_float interval_s +:+
      "s - " +:+ pretty (num_segments self) +:+ " segments").
End Repr.

(** ** Further predicates of the specification *)

(** [m] with one more segment at the end. *)
Definition append_segment (d t : ndarray) (m : Motion) : Motion :=
  mk_Motion (displacement m ++ [d]) (temporal_bins_s m ++ [t]) (spatial_bins_um m)
    (S (num_segments m)) (interpolators m) (interpolation_method m) (direction m)
    (dim m) (temporal_bounds m) (spatial_bounds m).

(** The shapes [check_properties] accepts: every displacement grid is 2-D
    with as many columns as there are spatial bins, every temporal-bin
    array is 1-D. *)
Definition shapes_consistent (m : Motion) : Prop :=
  Forall (fun d => exists rows cols,
            shape d = [rows; cols] /\ shape (spatial_bins_um m) = [cols])
    (displacement m) /\
  Forall (fun t => exists n, shape t = [n]) (temporal_bins_s m).

(** The two lists [__init__] stores for its array arguments. *)
Definition segment_lists (arrays : motion_arrays) : list ndarray * list ndarray :=
  match arrays with
  | one_segment d t => ([d], [t])
  | per_segment ds ts => (ds, ts)
  end.

(** The correlation mode and the input row that [scipy_conv1d] passes to
    [correlate] for a padding: an integer padding puts that many zeros
    before and after the row. *)
Definition resolved_mode (padding : padding_t) : corr_mode :=
  match padding with
  | PadStr s => if String.eqb s "same" then mode_same else mode_valid
  | _ => mode_valid
  end.

Definition padded_row (padding : padding_t) (row : list Q) : list Q :=
  match padding with
  | PadInt p => repeat 0%Q (Z.to_nat p) ++ row ++ repeat 0%Q (Z.to_nat p)
  | _ => row
  end.

(** [length_out] of lines 337, 340 and 344. *)
Definition resolved_length_out (padding : padding_t) (length kernel_size : nat) : Z :=
  match padding with
  | PadStr s =>
      if String.eqb s "same" then Z.of_nat length
      else Z.of_nat length - 2 * (Z.of_nat kernel_size / 2)
  | PadInt p => Z.of_nat length - (Z.of_nat kernel_size - 1) + 2 * p
  | PadOther _ => 0
  end.

(** ** Further objects of the examples *)

(** A motion whose only temporal-bin array is empty. *)
Definition empty_bins_motion : Motion :=
  mk_Motion [mk_ndarray [0; 2]%nat []] [arr1 []] (arr1 [0; 10]%Q) 1 None
    "linear" "y" 1 None None.

(** * Proofs *)

Lemma rbind_ok {A B} (r : result A) (k : A -> result B) b :
  rbind r k = Ok b -> exists a, r = Ok a /\ k a = Ok b.
Proof. destruct r; simpl; eauto. discriminate. Qed.

Lemma py_getitem_first {A} (l : list A) :
  py_getitem l 0 = match l with [] => Raise IndexError | x :: _ => Ok x end.
Proof.
  unfold py_getitem. destruct l as [|x l]; [reflexivity|].
  cbn [length]. replace (0 <? 0) with false by reflexivity.
  replace (0 <=? 0) with true by reflexivity.
  replace (0 <? Z.of_nat (S (length l))) with true by (symmetry; apply Z.ltb_lt; lia).
  reflexivity.
Qed.

Lemma py_getitem_last {A} (l : list A) :
  py_getitem l (-1) = match last l with Some x => Ok x | None => Raise IndexError end.
Proof.
  unfold py_getitem. replace (-1 <? 0) with true by reflexivity.
  destruct l as [|x l] using rev_ind; [reflexivity|].
  rewrite last_snoc, length_app. cbn [length].
  replace (0 <=? -1 + Z.of_nat (length l + 1)) with true by (symmetry; apply Z.leb_le; lia).
  replace (-1 + Z.of_nat (length l + 1) <? Z.of_nat (length l + 1)) with true
    by (symmetry; apply Z.ltb_lt; lia).
  replace (Z.to_nat (-1 + Z.of_nat (length l + 1))) with (length l) by lia.
  cbn. rewrite list_lookup_middle by reflexivity. reflexivity.
Qed.

Lemma py_getitem_nat {A} (l : list A) (i : nat) :
  py_getitem l (Z.of_nat i) = match l !! i with Some x => Ok x | None => Raise IndexError end.
Proof.
  unfold py_getitem.
  replace (Z.of_nat i <? 0) with false by (symmetry; apply Z.ltb_ge; lia).
  replace (0 <=? Z.of_nat i) with true by (symmetry; apply Z.leb_le; lia).
  rewrite Nat2Z.id. cbn.
  destruct (Z.ltb_spec (Z.of_nat i) (Z.of_nat (length l))); [reflexivity|].
  rewrite lookup_ge_None_2 by lia. reflexivity.
Qed.

(** * Window domains *)

Lemma Qnonzero_true x : Qnonzero x = true <-> ~ (x == 0)%Q.
Proof.
  unfold Qnonzero. rewrite negb_true_iff, <- not_true_iff_false, Qeq_bool_iff.
  reflexivity.
Qed.

Lemma Qnonzero_false x : Qnonzero x = false <-> (x == 0)%Q.
Proof.
  unfold Qnonzero. rewrite negb_false_iff, Qeq_bool_iff. reflexivity.
Qed.

Lemma flatnonzero_from_nil i w :
  flatnonzero_from i w = [] <-> Forall (fun x => x == 0)%Q w.
Proof.
  revert i. induction w as [|x w IH]; intros i; cbn.
  - split; auto.
  - destruct (Qnonzero x) eqn:E.
    + split; [discriminate|]. intros H. inversion H; subst.
      apply Qnonzero_true in E. contradiction.
    + rewrite IH. apply Qnonzero_false in E. split; [auto|].
      intros H. inversion H; auto.
Qed.

Lemma flatnonzero_from_head i w a :
  head (flatnonzero_from i w) = Some a ->
  exists k, a = (i + k)%nat /\ first_nonzero w k.
Proof.
  revert i. induction w as [|x w IH]; intros i; cbn; [discriminate|].
  destruct (Qnonzero x) eqn:E.
  - cbn. intros [= <-]. exists 0%nat. split; [lia|]. split.
    + exists x. split; [reflexivity|]. apply Qnonzero_true, E.
    + intros j y Hj. lia.
  - intros H. apply IH in H as (k & -> & (y & Hy & Hne) & Hlt).
    exists (S k). split; [lia|]. split.
    + exists y. auto.
    + intros [|j] z Hj Hz; cbn in Hz.
      * injection Hz as <-. apply Qnonzero_false, E.
      * apply (Hlt j); [lia|assumption].
Qed.

Lemma flatnonzero_from_last i w b :
  last (flatnonzero_from i w) = Some b ->
  exists k, b = (i + k)%nat /\ last_nonzero w k.
Proof.
  revert i. induction w as [|x w IH]; intros i; cbn; [discriminate|].
  destruct (Qnonzero x) eqn:E.
  - destruct (flatnonzero_from (S i) w) as [|c l] eqn:El.
    + cbn. intros [= <-]. exists 0%nat. split; [lia|]. split.
      * exists x. split; [reflexivity|]. apply Qnonzero_true, E.
      * intros [|j] y Hj Hy; [lia|]. cbn in Hy.
        apply flatnonzero_from_nil in El.
        rewrite Forall_lookup in El. eapply El, Hy.
    + rewrite last_cons_cons, <- El. intros H.
      apply IH in H as (k & -> & (y & Hy & Hne) & Hgt).
      exists (S k). split; [lia|]. split.
      * exists y. auto.
      * intros [|j] z Hj Hz; [lia|]. cbn in Hz. apply (Hgt j); [lia|assumption].
  - intros H. apply IH in H as (k & -> & (y & Hy & Hne) & Hgt).
    exists (S k). split; [lia|]. split.
    + exists y. auto.
    + intros [|j] z Hj Hz; [lia|]. cbn in Hz. apply (Hgt j); [lia|assumption].
Qed.

Lemma window_domain_zero w :
  Forall (fun x => x == 0)%Q w -> window_domain w = Raise IndexError.
Proof.
  intros H. unfold window_domain, flatnonzero.
  apply (flatnonzero_from_nil 0) in H. rewrite H. reflexivity.
Qed.

Lemma window_domain_nonzero w :
  Exists (fun x => ~ (x == 0)%Q) w ->
  exists a b, window_domain w = Ok (mk_slice a (b + 1)) /\
              first_nonzero w a /\ last_nonzero w b.
Proof.
  intros H. unfold window_domain, flatnonzero.
  destruct (flatnonzero_from 0 w) as [|c l] eqn:El.
  - apply flatnonzero_from_nil in El. apply Exists_exists in H as (x & Hx & Hne).
    rewrite Forall_forall in El. destruct Hne. apply El, Hx.
  - rewrite py_getitem_first, py_getitem_last.
    destruct (last (c :: l)) as [b|] eqn:Eb.
    2:{ apply last_None in Eb. discriminate. }
    cbn. rewrite <- El in Eb.
    apply flatnonzero_from_last in Eb as (kb & -> & Hb).
    assert (Hc : head (flatnonzero_from 0 w) = Some c) by (rewrite El; reflexivity).
    apply flatnonzero_from_head in Hc as (ka & -> & Ha).
    exists ka, kb. auto.
Qed.

Lemma window_domain_error w e : window_domain w = Raise e -> e = IndexError.
Proof.
  unfold window_domain. rewrite py_getitem_first, py_getitem_last.
  destruct (flatnonzero w) as [|c l]; cbn; [congruence|].
  destruct (last (c :: l)); cbn; congruence.
Qed.

(** C9: for every window with at least one non-zero entry the domain
    extractor returns the slice from the first non-zero index [a] to the
    last non-zero index [b] plus one; a window that is entirely zero makes
    the call raise [IndexError]. *)
Theorem get_window_domains_spec (windows : list (list Q)) :
  (Forall (Exists (fun x => ~ (x == 0)%Q)) windows ->
   exists slices,
     get_window_domains windows = Ok slices /\
     Forall2 (fun w s => exists a b, first_nonzero w a /\ last_nonzero w b /\
                                     s = mk_slice a (b + 1)) windows slices) /\
  (Exists (Forall (fun x => x == 0)%Q) windows ->
   get_window_domains windows = Raise IndexError).
Proof.
  unfold get_window_domains. split.
  - induction 1 as [|w ws Hw Hws IH]; cbn.
    + exists []. split; [reflexivity|constructor].
    + destruct (window_domain_nonzero w Hw) as (a & b & -> & Ha & Hb).
      destruct IH as (slices & -> & Hall). cbn.
      eexists. split; [reflexivity|]. constructor; [|assumption].
      exists a, b. auto.
  - induction 1 as [w ws Hw|w ws Hws IH]; cbn.
    + rewrite (window_domain_zero w Hw). reflexivity.
    + destruct (window_domain w) as [s|e] eqn:Ew; cbn.
      * rewrite IH. reflexivity.
      * apply window_domain_error in Ew as ->. reflexivity.
Qed.

(** * Window builder *)

Lemma for_each_length {A B} (f : A -> result B) l ys :
  for_each f l = Ok ys -> length ys = length l.
Proof.
  revert ys. induction l as [|x l IH]; cbn; intros ys H.
  - injection H as <-. reflexivity.
  - apply rbind_ok in H as (y & _ & H). apply rbind_ok in H as (ys' & Hys & H).
    injection H as <-. cbn. f_equal. apply IH, Hys.
Qed.

Lemma for_each_total {A B} (f : A -> result B) l :
  (forall x, is_ok (f x) = true) -> is_ok (for_each f l) = true.
Proof.
  intros Hf. induction l as [|x l IH]; cbn; [reflexivity|].
  specialize (Hf x). destruct (f x); [|discriminate]. cbn.
  destruct (for_each f l); [reflexivity|discriminate].
Qed.

Lemma threshold_and_normalize_length ws thr ws' :
  threshold_and_normalize ws thr = Ok ws' ->
  length ws' = length ws /\
  forall i w w', ws !! i = Some w -> ws' !! i = Some w' -> length w' = length w.
Proof.
  destruct thr as [t|]; cbn.
  - destruct ws as [|w ws]; cbn; [discriminate|]. intros [= <-]. split.
    + cbn. rewrite !length_map. reflexivity.
    + intros i v v' Hv Hv'.
      change (map (fun row => map (fun w0 => (w0 / Qsum row)%Q) row)
                (map (map (fun w0 => if Qltb w0 t then 0%Q else w0)) (w :: ws)) !! i = Some v')
        in Hv'.
      rewrite !list_lookup_fmap, Hv in Hv'. cbn in Hv'. injection Hv' as <-.
      rewrite !length_map. reflexivity.
  - intros [= <-]. split; [reflexivity|]. intros i w w' H1 H2. congruence.
Qed.

Lemma removelast_length_pred {A} (l : list A) :
  length (removelast l) = Nat.pred (length l).
Proof.
  destruct l as [|x l] using rev_ind; [reflexivity|].
  rewrite removelast_last, length_app. cbn. lia.
Qed.

Lemma bin_centers_of_length edges n :
  length edges = S n -> length (bin_centers_of edges) = n.
Proof.
  intros H. unfold bin_centers_of.
  rewrite length_zip_with, removelast_length_pred.
  destruct edges as [|e edges]; [discriminate|]. cbn in *. lia.
Qed.

Lemma centers_of_lookup k step min_ border i :
  (i < Z.to_nat (k + 1))%nat ->
  centers_of k step min_ border !! i
  = Some (float64_round
            (float64_round (float64_round (inject_Z (Z.of_nat i) * step) + min_)
             + border))%Q.
Proof.
  intros Hi. unfold centers_of, py_range.
  rewrite list_lookup_fmap, lookup_seq_lt by assumption. reflexivity.
Qed.

Lemma centers_of_length k step min_ border :
  length (centers_of k step min_ border) = Z.to_nat (k + 1).
Proof. unfold centers_of, py_range. rewrite length_map, length_seq. reflexivity. Qed.

Lemma num_windows_of_pos span step :
  (0 < step)%Q -> num_windows_of span step = Ok (floor_div span step).
Proof.
  intros H. unfold num_windows_of.
  destruct (Qeq_bool step 0) eqn:E; [|reflexivity].
  apply Qeq_bool_iff in E. rewrite E in H. exfalso. revert H. apply Qlt_irrefl.
Qed.

Lemma one_window_total np_exp shape bc sigma c :
  shape = gaussian \/ shape = rect ->
  is_ok (one_window np_exp shape bc sigma c) = true.
Proof. intros [-> | ->]; reflexivity. Qed.

Lemma get_window_domains_spec_witness :
  (Forall (Exists (fun x => ~ (x == 0)%Q)) [[0; 1; 0; 2; 0]; [3]]%Q /\
   exists slices,
     get_window_domains [[0; 1; 0; 2; 0]; [3]]%Q = Ok slices /\
     Forall2 (fun w s => exists a b, first_nonzero w a /\ last_nonzero w b /\
                                     s = mk_slice a (b + 1))
       [[0; 1; 0; 2; 0]; [3]]%Q slices) /\
  (Exists (Forall (fun x => x == 0)%Q) [[1]; [0; 0]]%Q /\
   get_window_domains [[1]; [0; 0]]%Q = Raise IndexError).
Proof.
  assert (H1 : Forall (Exists (fun x => ~ (x == 0)%Q)) [[0; 1; 0; 2; 0]; [3]]%Q).
  { constructor; [|constructor; [|constructor]].
    - apply Exists_cons_tl, Exists_cons_hd. discriminate.
    - apply Exists_cons_hd. discriminate. }
  assert (H2 : Exists (Forall (fun x => x == 0)%Q) [[1]; [0; 0]]%Q).
  { apply Exists_cons_tl, Exists_cons_hd. repeat constructor. }
  split; split; try assumption.
  - apply (proj1 (get_window_domains_spec _) H1).
  - apply (proj2 (get_window_domains_spec _) H2).
Defined.

(** * 1-D correlation *)

(** C10: on an input of shape (1, 1, 4) and a kernel of shape (1, 1, 2),
    padding ["valid"] allocates rows of [4 - 2 * (2 // 2) = 2] entries,
    the correlation has 3, and the assignment raises; the integer padding
    0 returns the 3 entries. *)
Theorem scipy_conv1d_valid_even_kernel :
  scipy_conv1d (mk_ndarray [1; 1; 4]%nat [1; 2; 3; 4]%Q)
    (mk_ndarray [1; 1; 2]%nat [1; 10]%Q) (PadStr "valid")
  = Raise (ValueError "could not broadcast input array") /\
  correlate [1; 2; 3; 4]%Q [1; 10]%Q mode_valid = Ok [21; 32; 43]%Q /\
  4 - 2 * (2 / 2) = 2 /\
  scipy_conv1d (mk_ndarray [1; 1; 4]%nat [1; 2; 3; 4]%Q)
    (mk_ndarray [1; 1; 2]%nat [1; 10]%Q) (PadInt 0)
  = Ok (mk_ndarray [1; 1; 3]%nat [21; 32; 43]%Q).
Proof. repeat split. Qed.

(** * Equality of motions *)

Lemma eq_segments_true a b segments :
  eq_segments a b segments = Ok true <->
  forall i, i ∈ segments -> segment_close a b i.
Proof.
  induction segments as [|i rest IH]; cbn.
  - split; [|reflexivity]. intros _ i Hi. inversion Hi.
  - rewrite !py_getitem_nat. split.
    + intros H j Hj.
      destruct (displacement a !! i) as [da|] eqn:Eda; [|discriminate].
      destruct (displacement b !! i) as [db|] eqn:Edb; [|discriminate].
      cbn in H. destruct (allclose da db) as [[|]|] eqn:Ed; try discriminate.
      cbn in H.
      destruct (temporal_bins_s a !! i) as [ta|] eqn:Eta; [|discriminate].
      destruct (temporal_bins_s b !! i) as [tb|] eqn:Etb; [|discriminate].
      cbn in H. destruct (allclose ta tb) as [[|]|] eqn:Et; try discriminate.
      cbn in H. apply elem_of_cons in Hj as [->|Hj].
      * exists da, db, ta, tb. auto 10.
      * apply IH; assumption.
    + intros H.
      destruct (H i) as (da & db & ta & tb & -> & -> & Hd & -> & -> & Ht);
        [left|].
      cbn. rewrite Hd. cbn. rewrite Ht. cbn. apply IH.
      intros j Hj. apply H. right. exact Hj.
Qed.

Lemma eq_segments_attributes a b a' b' segments :
  displacement a' = displacement a -> temporal_bins_s a' = temporal_bins_s a ->
  displacement b' = displacement b -> temporal_bins_s b' = temporal_bins_s b ->
  eq_segments a' b' segments = eq_segments a b segments.
Proof.
  intros H1 H2 H3 H4. induction segments as [|i rest IH]; cbn; [reflexivity|].
  rewrite H1, H2, H3, H4, IH. reflexivity.
Qed.

(** * Persistence *)

Lemma string_length_app (s t : string) :
  String.length (s +:+ t) = (String.length s + String.length t)%nat.
Proof. induction s as [|c s IH]; simpl; [reflexivity|]. f_equal. exact IH. Qed.

Lemma string_app_inj_r (t s1 s2 : string) : s1 +:+ t = s2 +:+ t -> s1 = s2.
Proof.
  revert s2. induction s1 as [|c s1 IH]; intros [|d s2] H.
  - reflexivity.
  - apply (f_equal String.length) in H.
    rewrite (string_length_app (String d s2)) in H.
    change ("" +:+ t) with t in H. simpl in H. lia.
  - apply (f_equal String.length) in H.
    rewrite (string_length_app (String c s1)) in H.
    change ("" +:+ t) with t in H. simpl in H. lia.
  - change (String c (s1 +:+ t) = String d (s2 +:+ t)) in H.
    injection H as -> H. f_equal. apply IH, H.
Qed.

Lemma path_join_inj folder a b : path_join folder a = path_join folder b -> a = b.
Proof.
  unfold path_join. intros H. apply (inj (String.app folder)) in H.
  apply (inj (String.app "/")) in H. exact H.
Qed.

Lemma displacement_file_inj i j : displacement_file i = displacement_file j -> i = j.
Proof.
  unfold displacement_file. intros H. apply (inj (String.app "displacement_seg")) in H.
  apply string_app_inj_r in H. apply (inj pretty) in H. exact H.
Qed.

Lemma temporal_bins_file_inj i j : temporal_bins_file i = temporal_bins_file j -> i = j.
Proof.
  unfold temporal_bins_file. intros H.
  apply (inj (String.app "temporal_bins_s_seg")) in H.
  apply string_app_inj_r in H. apply (inj pretty) in H. exact H.
Qed.

Lemma displacement_not_temporal i j : displacement_file i <> temporal_bins_file j.
Proof. discriminate. Qed.

Lemma segment_paths_distinct folder i j :
  (path_join folder (displacement_file i) = path_join folder (displacement_file j) -> i = j) /\
  (path_join folder (temporal_bins_file i) = path_join folder (temporal_bins_file j) -> i = j) /\
  path_join folder (displacement_file i) <> path_join folder (temporal_bins_file j).
Proof.
  repeat split.
  - intros H. apply displacement_file_inj, (path_join_inj folder), H.
  - intros H. apply temporal_bins_file_inj, (path_join_inj folder), H.
  - intros H. apply path_join_inj in H. revert H. apply displacement_not_temporal.
Qed.

Lemma save_segments_spec (self : Motion) folder segments fs :
  (forall i, i ∈ segments ->
     is_Some (displacement self !! i) /\ is_Some (temporal_bins_s self !! i)) ->
  exists fs',
    save_segments self folder segments fs = (fs', Ok tt) /\
    dirs fs' = dirs fs /\
    (forall i d t, i ∈ segments ->
       displacement self !! i = Some d -> temporal_bins_s self !! i = Some t ->
       files fs' !! path_join folder (displacement_file i) = Some (NpyFile d) /\
       files fs' !! path_join folder (temporal_bins_file i) = Some (NpyFile t)) /\
    (forall p, (forall i, i ∈ segments ->
                  p <> path_join folder (displacement_file i) /\
                  p <> path_join folder (temporal_bins_file i)) ->
       files fs' !! p = files fs !! p).
Proof.
  revert fs. induction segments as [|i rest IH]; intros fs Hin.
  - exists fs. cbn. split; [reflexivity|]. split; [reflexivity|]. split.
    + intros j d t Hj. inversion Hj.
    + reflexivity.
  - destruct (Hin i) as [[d Hd] [t Ht]]; [left|].
    cbn [save_segments]. rewrite !py_getitem_nat, Hd, Ht.
    set (fs2 := write_file (write_file fs _ _) _ _).
    destruct (IH fs2) as (fs' & Hsave & Hdirs & Hwritten & Hother).
    { intros j Hj. apply Hin. right. exact Hj. }
    exists fs'. split; [exact Hsave|]. split; [rewrite Hdirs; reflexivity|]. split.
    + intros j d' t' Hj Hd' Ht'. destruct (decide (j ∈ rest)) as [Hr|Hr].
      { apply Hwritten; assumption. }
      apply elem_of_cons in Hj as [->|Hj]; [|contradiction].
      assert (d' = d) as -> by congruence. assert (t' = t) as -> by congruence.
      rewrite !Hother.
      * unfold fs2, write_file. cbn [files]. split.
        -- rewrite lookup_insert_ne, lookup_insert_eq; [reflexivity|].
           intros E. symmetry in E. revert E. apply segment_paths_distinct.
        -- apply lookup_insert_eq.
      * intros k Hk. split.
        -- intros E. symmetry in E. revert E. apply segment_paths_distinct.
        -- intros E. apply segment_paths_distinct in E. congruence.
      * intros k Hk. split.
        -- intros E. apply segment_paths_distinct in E. congruence.
        -- apply segment_paths_distinct.
    + intros p Hp. rewrite Hother.
      * unfold fs2, write_file. cbn [files].
        destruct (Hp i) as [Hp1 Hp2]; [left|].
        rewrite !lookup_insert_ne by congruence. reflexivity.
      * intros k Hk. apply Hp. right. exact Hk.
Qed.

Lemma for_each_ok_map {A B} (f : A -> result B) (g : A -> B) l :
  (forall x, x ∈ l -> f x = Ok (g x)) -> for_each f l = Ok (map g l).
Proof.
  induction l as [|x l IH]; intros H; cbn; [reflexivity|].
  rewrite (H x) by left. cbn. rewrite IH; [reflexivity|].
  intros y Hy. apply H. right. exact Hy.
Qed.

Lemma map_lookup_seq {A} (l : list A) (d : A) :
  map (fun i => default d (l !! i)) (seq 0 (length l)) = l.
Proof.
  apply list_eq. intros i. rewrite list_lookup_fmap.
  destruct (decide (i < length l)%nat) as [Hi|Hi].
  - rewrite lookup_seq_lt by exact Hi. cbn.
    destruct (lookup_lt_is_Some_2 l i Hi) as [x Hx]. rewrite Hx. reflexivity.
  - rewrite lookup_seq_ge by lia. rewrite lookup_ge_None_2 by lia. reflexivity.
Qed.

(** [np.allclose(a, a)] in exact arithmetic *)
Lemma isclose_refl x : isclose x x = true.
Proof.
  unfold isclose. apply Qle_bool_iff.
  assert (H : (Qabs (x - x) == 0)%Q).
  { rewrite (Qabs_wd (x - x) 0) by ring. reflexivity. }
  rewrite H. apply Qle_trans with (0 + 0)%Q; [discriminate|].
  apply Qplus_le_compat; [discriminate|].
  apply Qmult_le_0_compat; [discriminate|apply Qabs_nonneg].
Qed.

Lemma broadcast_rev_refl s : broadcast_rev s s = Some s.
Proof.
  induction s as [|d s IH]; cbn; [reflexivity|].
  rewrite IH. cbn. rewrite Nat.eqb_refl. reflexivity.
Qed.

Lemma allclose_refl a : allclose a a = Ok true.
Proof.
  unfold allclose, broadcast_shapes. rewrite broadcast_rev_refl. cbn.
  f_equal. apply forallb_forall. intros [x y] Hin.
  apply list_elem_of_In, elem_of_lookup_zip_with in Hin as (i & u & v & E & Hu & Hv).
  injection E as -> ->. assert (u = v) as -> by congruence. apply isclose_refl.
Qed.

Lemma chunks_concat (c : nat) (buf : list Q) (d k : nat) :
  flat_map (fun i => take c (drop (i * c)%nat buf)) (seq k d)
  = take (d * c)%nat (drop (k * c)%nat buf).
Proof.
  revert k. induction d as [|d IH]; intros k; [reflexivity|].
  cbn [seq flat_map]. rewrite IH.
  replace (S k * c)%nat with (k * c + c)%nat by lia.
  rewrite <- drop_drop, take_take_drop. f_equal.
Qed.

Lemma flat_map_ext_in {A B} (f g : A -> list B) (l : list A) :
  (forall a, In a l -> f a = g a) -> flat_map f l = flat_map g l.
Proof.
  induction l as [|a l IH]; intros H; [reflexivity|]. cbn [flat_map].
  rewrite (H a) by (left; reflexivity). rewrite IH; [reflexivity|].
  intros x Hx. apply H. right. exact Hx.
Qed.

Lemma broadcast_buf_same (s : list nat) (buf : list Q) :
  length buf = foldr Nat.mul 1%nat s -> broadcast_buf s s buf = buf.
Proof.
  revert buf. induction s as [|d s IH]; intros buf Hlen; [reflexivity|].
  cbn [broadcast_buf]. rewrite Nat.eqb_refl. cbn [foldr] in Hlen.
  rewrite (flat_map_ext_in _ (fun i => take (foldr Nat.mul 1%nat s)
                                         (drop (i * foldr Nat.mul 1%nat s)%nat buf))).
  - unfold py_range. rewrite chunks_concat. cbn [Nat.mul drop].
    apply take_ge. lia.
  - intros i Hi. apply in_seq in Hi. apply IH.
    rewrite length_take, length_drop. nia.
Qed.

Lemma allclose_same_shape (u v : ndarray) :
  shape u = shape v -> well_shaped u -> well_shaped v ->
  allclose u v
  = Ok (forallb (fun p : Q * Q => isclose p.1 p.2) (zip (data u) (data v))).
Proof.
  intros Hs Hu Hv. unfold allclose, broadcast_shapes.
  rewrite Hs, broadcast_rev_refl. cbn [fmap option_fmap option_map].
  unfold broadcast_to, ndim. rewrite Hs, !length_reverse, Nat.sub_diag.
  rewrite reverse_involutive. cbn [replicate app].
  rewrite !broadcast_buf_same; [reflexivity|exact Hv|rewrite <- Hs; exact Hu].
Qed.

Lemma isclose_spec (x y : Q) :
  isclose x y = true <-> (Qabs (x - y) <= atol + rtol * Qabs y)%Q.
Proof. unfold isclose. apply Qle_bool_iff. Qed.

Lemma allclose_far_apart (u v : ndarray) : far_apart u v -> allclose u v = Ok false.
Proof.
  intros (Hs & Hu & Hv & k & x & y & Hx & Hy & Hfar).
  rewrite allclose_same_shape by assumption. f_equal.
  apply not_true_is_false. intros H. rewrite forallb_forall in H.
  specialize (H (x, y)). cbn [fst snd] in H.
  rewrite isclose_spec in H. apply (Qlt_not_le _ _ Hfar). apply H.
  apply list_elem_of_In. apply elem_of_lookup_zip_with. exists k, x, y. auto.
Qed.



(** The comparison is by tolerance: two motions whose displacements differ
    by one part in a million are equal, two whose displacements differ by
    one part in a thousand are not. *)
Example Motion_eq_tolerance :
  Motion_eq
    (mk_Motion [mk_ndarray [1; 1]%nat [1%Q]] [arr1 [0%Q]] (arr1 [0%Q]) 1 None
       "linear" "y" 1 None None)
    (mk_Motion [mk_ndarray [1; 1]%nat [1 + (1 # 1000000)]%Q] [arr1 [0%Q]] (arr1 [0%Q]) 1 None
       "linear" "y" 1 None None)
  = Ok true /\
  Motion_eq
    (mk_Motion [mk_ndarray [1; 1]%nat [1%Q]] [arr1 [0%Q]] (arr1 [0%Q]) 1 None
       "linear" "y" 1 None None)
    (mk_Motion [mk_ndarray [1; 1]%nat [1 + (1 # 1000)]%Q] [arr1 [0%Q]] (arr1 [0%Q]) 1 None
       "linear" "y" 1 None None)
  = Ok false.
Proof. split; reflexivity. Qed.

Lemma check_properties_attributes m m' :
  displacement m' = displacement m -> temporal_bins_s m' = temporal_bins_s m ->
  spatial_bins_um m' = spatial_bins_um m ->
  check_properties m' = check_properties m.
Proof. intros H1 H2 H3. unfold check_properties. rewrite H1, H2, H3. reflexivity. Qed.

(** [__init__] establishes the invariant when it is given as many
    temporal-bin arrays as displacement grids. *)
Lemma Motion_init_invariant arrays s d meth m :
  Motion_init arrays s d meth = Ok m ->
  match arrays with
  | one_segment _ _ => True
  | per_segment ds ts => length ts = length ds
  end ->
  Motion_invariant m.
Proof.
  unfold Motion_init. intros H Hlen.
  destruct arrays as [d0 t0|ds ts]; cbn in H;
    apply rbind_ok in H as (dm & Hdm & H); apply rbind_ok in H as ([] & Hcheck & H);
    injection H as <-; repeat split; cbn; auto.
Qed.

Lemma Motion_eq_same_arrays m m' :
  num_segments m = length (displacement m) ->
  length (temporal_bins_s m) = num_segments m ->
  displacement m' = displacement m -> temporal_bins_s m' = temporal_bins_s m ->
  spatial_bins_um m' = spatial_bins_um m ->
  Motion_eq m m' = Ok true.
Proof.
  intros Hn Ht Hd Htb Hs. unfold Motion_eq.
  assert (E : eq_segments m m' (py_range (num_segments m)) = Ok true).
  { apply eq_segments_true. intros i Hi. apply elem_of_seq in Hi.
    destruct (lookup_lt_is_Some_2 (displacement m) i) as [d Ed]; [lia|].
    destruct (lookup_lt_is_Some_2 (temporal_bins_s m) i) as [t Et]; [lia|].
    exists d, d, t, t. rewrite Hd, Htb.
    repeat split; auto using allclose_refl. }
  rewrite E, Hs. cbn. rewrite allclose_refl. reflexivity.
Qed.

(** C3, as amended: for a motion as [__init__] builds it from as many
    temporal-bin arrays as displacement grids (the invariant; its arrays
    hold rationals, so no [nan]), a folder that does not exist and none of
    whose ancestors is a regular file, [save] succeeds, [load] of the
    folder succeeds, and the loaded motion equals the saved one (its
    arrays, direction and interpolation method are the saved ones). *)
Theorem save_load_roundtrip (version : string) (dev_mode : bool) (m : Motion)
    (folder : string) (fs : filesystem) :
  Motion_invariant m ->
  path_exists fs folder = false ->
  existsb (is_file fs) (parents folder) = false ->
  exists fs' m',
    Motion_save version dev_mode m folder fs = (fs', Ok tt) /\
    Motion_load folder fs' = Ok m' /\
    Motion_eq m m' = Ok true /\
    displacement m' = displacement m /\
    temporal_bins_s m' = temporal_bins_s m /\
    spatial_bins_um m' = spatial_bins_um m /\
    direction m' = direction m /\
    interpolation_method m' = interpolation_method m.
Proof.
  intros (Hn & Ht & Hdir & Hcheck) Hfresh Hparents.
  unfold Motion_save, mkdir. rewrite Hfresh, Hparents.
  set (fs3 := write_file (write_file _ _ _) _ _).
  assert (Hsegs : forall i, i ∈ py_range (num_segments m) ->
            is_Some (displacement m !! i) /\ is_Some (temporal_bins_s m !! i)).
  { intros i Hi. apply elem_of_seq in Hi.
    split; apply lookup_lt_is_Some_2; lia. }
  destruct (save_segments_spec m folder _ fs3 Hsegs)
    as (fs' & Hsave & _ & Hwritten & Hother).
  set (m' := mk_Motion (displacement m) (temporal_bins_s m) (spatial_bins_um m)
               (length (displacement m)) None (interpolation_method m)
               (direction m) (dim m) None None).
  exists fs', m'. split; [exact Hsave|].
  assert (Hinfo : files fs' !! path_join folder "spikeinterface_info.json"
            = Some (JsonFile (mk_info version dev_mode (Some "Motion")
                      (num_segments m) (direction m) (interpolation_method m)))).
  { rewrite Hother.
    - unfold fs3, write_file. cbn [files].
      rewrite lookup_insert_ne, lookup_insert_eq; [reflexivity|].
      intros E. apply path_join_inj in E. discriminate E.
    - intros i _. split; intros E; apply path_join_inj in E; discriminate E. }
  assert (Hspatial : files fs' !! path_join folder "spatial_bins_um.npy"
            = Some (NpyFile (spatial_bins_um m))).
  { rewrite Hother.
    - unfold fs3, write_file. cbn [files]. apply lookup_insert_eq.
    - intros i _. split; intros E; apply path_join_inj in E; discriminate E. }
  assert (Hload : Motion_load folder fs' = Ok m').
  { unfold Motion_load, path_exists, json_load, np_load.
    rewrite Hinfo, Hspatial.
    rewrite (bool_decide_eq_true_2 (is_Some (Some _))) by eauto.
    rewrite orb_true_r. cbn [negb rbind info_object info_direction
                             info_interpolation_method info_num_segments].
    rewrite bool_decide_eq_true_2 by reflexivity. cbn [negb].
    set (d0 := arr1 []).
    rewrite (for_each_ok_map _
               (fun i => (default d0 (displacement m !! i),
                          default d0 (temporal_bins_s m !! i)))).
    2:{ intros i Hi. destruct (Hsegs i Hi) as [[d Ed] [t Et]].
        destruct (Hwritten i d t Hi Ed Et) as [-> ->]. rewrite Ed, Et. reflexivity. }
    cbn [rbind]. unfold py_range.
    assert (E1 : (map (fun i => (default d0 (displacement m !! i),
                                 default d0 (temporal_bins_s m !! i)))
                    (seq 0 (num_segments m))).*1 = displacement m).
    { rewrite <- list_fmap_compose. rewrite Hn. apply (map_lookup_seq _ d0). }
    assert (E2 : (map (fun i => (default d0 (displacement m !! i),
                                 default d0 (temporal_bins_s m !! i)))
                    (seq 0 (num_segments m))).*2 = temporal_bins_s m).
    { rewrite <- list_fmap_compose. rewrite <- Ht. apply (map_lookup_seq _ d0). }
    rewrite E1, E2. unfold Motion_init. rewrite Hdir. cbn [rbind].
    fold m'. rewrite (check_properties_attributes m m') by reflexivity.
    rewrite Hcheck. reflexivity. }
  split; [exact Hload|]. split; [|repeat split].
  apply Motion_eq_same_arrays; auto.
Qed.

(** * Queries *)

Ltac Qle_bool_cases :=
  repeat (match goal with
          | |- context [Qle_bool ?a ?b] =>
              is_var a; is_var b; destruct (Qle_bool a b) eqn:?
          end; cbn [negb]);
  repeat match goal with
         | H : Qle_bool _ _ = true |- _ => apply Qle_bool_iff in H
         | H : Qle_bool _ _ = false |- _ =>
             apply not_true_iff_false in H; rewrite Qle_bool_iff in H
         end.

Lemma clip1_idempotent lo hi x : clip1 lo hi (clip1 lo hi x) = clip1 lo hi x.
Proof.
  unfold clip1, np_minimum, np_maximum.
  Qle_bool_cases; try reflexivity; exfalso; lra.
Qed.

Lemma clip1_to_boundary t0 t1 t : clip1 t0 t1 (to_boundary t0 t1 t) = clip1 t0 t1 t.
Proof.
  unfold to_boundary, Qltb, clip1, np_minimum, np_maximum.
  Qle_bool_cases; try reflexivity; exfalso; lra.
Qed.

Lemma clip1_in_bounds lo hi x : (lo <= hi)%Q -> (lo <= clip1 lo hi x <= hi)%Q.
Proof.
  intros Hle. unfold clip1, np_minimum, np_maximum.
  Qle_bool_cases; lra.
Qed.

Lemma clip1_cases lo hi x :
  (lo <= hi)%Q ->
  ((hi <= x)%Q -> clip1 lo hi x = hi) /\
  ((x <= lo)%Q -> (lo < hi)%Q -> clip1 lo hi x = lo) /\
  ((lo < x < hi)%Q -> clip1 lo hi x = x) /\
  ((lo <= x <= hi)%Q -> (clip1 lo hi x == x)%Q).
Proof.
  intros Hle. unfold clip1, np_minimum, np_maximum.
  repeat split; intros; Qle_bool_cases; try reflexivity; try lra; exfalso; lra.
Qed.

Lemma nd_map_nd_map f g a : nd_map f (nd_map g a) = nd_map (fun x => f (g x)) a.
Proof. unfold nd_map. cbn. rewrite map_map. reflexivity. Qed.

Lemma nd_map_ext f g a : (forall x, f x = g x) -> nd_map f a = nd_map g a.
Proof. intros H. unfold nd_map. f_equal. apply map_ext. auto. Qed.

Section QueryFacts.
Variable rgi_check : interpolator -> result unit.
Variable rgi_eval : interpolator -> Q -> Q -> result Q.

Local Abbreviation ensure := (ensure_interpolators rgi_check).
Local Abbreviation query := (get_displacement_at_time_and_depth rgi_check rgi_eval).
Local Abbreviation dquery := (displacement_query rgi_eval).

Lemma query_unfold m times locs seg grid :
  query m times locs seg grid =
  ((ensure m).1,
   let* _ := (ensure m).2 in dquery (ensure m).1 times locs seg grid).
Proof.
  unfold get_displacement_at_time_and_depth. destruct (ensure m). reflexivity.
Qed.

Lemma ensure_num_segments m : num_segments (ensure m).1 = num_segments m.
Proof.
  unfold ensure_interpolators, make_interpolators.
  destruct (interpolators m); [reflexivity|].
  destruct (for_each _ _); [|reflexivity]. cbn.
  destruct (for_each _ _); [|reflexivity]. cbn.
  destruct (np_min _); [|reflexivity]. cbn.
  destruct (np_max _); reflexivity.
Qed.

Lemma dquery_times m times times' locs seg grid idx bounds tb :
  resolve_segment_index m seg = Ok idx ->
  temporal_bounds m = Some bounds ->
  py_getitem bounds idx = Ok tb ->
  nd_map (clip1 tb.1 tb.2) times = nd_map (clip1 tb.1 tb.2) times' ->
  dquery m times locs seg grid = dquery m times' locs seg grid.
Proof.
  intros Hr Hb Htb E. unfold displacement_query. rewrite Hr, Hb. cbn [rbind attribute].
  rewrite Htb. cbn [rbind].
  destruct (match ndim locs with
            | 1%nat => Ok locs
            | 2%nat => column locs (dim m)
            | _ => Raise AssertionError
            end); [|reflexivity].
  cbn [rbind]. rewrite E. reflexivity.
Qed.

Lemma dquery_locations m times locs locs' seg grid sb :
  spatial_bounds m = Some sb ->
  ndim locs = 1%nat -> ndim locs' = 1%nat ->
  nd_map (clip1 sb.1 sb.2) locs = nd_map (clip1 sb.1 sb.2) locs' ->
  dquery m times locs seg grid = dquery m times locs' seg grid.
Proof.
  intros Hs H1 H1' E. unfold displacement_query. rewrite Hs, H1, H1'.
  destruct (resolve_segment_index m seg); [|reflexivity]. cbn [rbind].
  destruct (attribute (temporal_bounds m)); [|reflexivity]. cbn [rbind].
  destruct (py_getitem _ _); [|reflexivity]. cbn [rbind attribute].
  rewrite E. reflexivity.
Qed.

Lemma dquery_column m times locs c seg grid :
  ndim locs = 2%nat -> column locs (dim m) = Ok c ->
  dquery m times locs seg grid = dquery m times c seg grid.
Proof.
  intros H2 Hc. unfold displacement_query. rewrite H2, Hc.
  assert (ndim c = 1%nat) as ->.
  { unfold column in Hc. destruct (shape locs) as [|? [|? [|? ?]]]; try discriminate.
    destruct (_ <? _)%nat; [|discriminate]. injection Hc as <-. reflexivity. }
  reflexivity.
Qed.

Lemma make_interpolators_bounds m :
  interpolators m = None -> (ensure m).2 = Ok tt ->
  exists bounds lo hi,
    temporal_bounds (ensure m).1 = Some bounds /\
    spatial_bounds (ensure m).1 = Some (lo, hi) /\
    for_each first_last (temporal_bins_s m) = Ok bounds /\
    np_min (data (spatial_bins_um m)) = Ok lo /\
    np_max (data (spatial_bins_um m)) = Ok hi.
Proof.
  intros Hnone. unfold ensure_interpolators, make_interpolators. rewrite Hnone.
  destruct (for_each _ (py_range _)) as [itps|]; [|discriminate].
  cbn [temporal_bins_s set_interpolators].
  destruct (for_each first_last _) as [bounds|]; [|discriminate].
  cbn [spatial_bins_um set_temporal_bounds set_interpolators].
  destruct (np_min _) as [lo|]; [|discriminate]. cbn [rbind].
  destruct (np_max _) as [hi|]; [|discriminate]. cbn [rbind].
  intros _. exists bounds, lo, hi. repeat split.
Qed.

Lemma for_each_app {A B} (f : A -> result B) l1 l2 :
  for_each f (l1 ++ l2) =
  let* a := for_each f l1 in let* b := for_each f l2 in Ok (a ++ b).
Proof.
  induction l1 as [|x l1 IH]; cbn.
  - destruct (for_each f l2); reflexivity.
  - destruct (f x); [|reflexivity]. cbn. rewrite IH.
    destruct (for_each f l1); [|reflexivity]. cbn.
    destruct (for_each f l2); reflexivity.
Qed.

Lemma for_each_lookup {A B} (f : A -> result B) l ys i x :
  for_each f l = Ok ys -> l !! i = Some x ->
  exists y, ys !! i = Some y /\ f x = Ok y.
Proof.
  revert ys i. induction l as [|a l IH]; intros ys i H Hx; [discriminate|].
  cbn in H. apply rbind_ok in H as (b & Hb & H).
  apply rbind_ok in H as (bs & Hbs & H). injection H as <-.
  destruct i as [|i]; cbn in *.
  - injection Hx as <-. eauto.
  - eapply IH; eassumption.
Qed.

Lemma for_each_all_ok {A B} (f : A -> result B) l :
  (forall x, x ∈ l -> is_ok (f x) = true) -> is_ok (for_each f l) = true.
Proof.
  induction l as [|a l IH]; intros H; cbn; [reflexivity|].
  pose proof (H a (list_elem_of_here _ _)) as Ha.
  destruct (f a); [|discriminate]. cbn.
  assert (Hl : is_ok (for_each f l) = true).
  { apply IH. intros x Hx. apply H. right. exact Hx. }
  destruct (for_each f l); [reflexivity|discriminate].
Qed.

(** The points of the grid, in the order of the two [ravel()]s. *)
Lemma meshgrid_points (locs times : list Q) :
  zip (flat_map (fun _ => times) locs)
      (flat_map (fun l => map (fun _ => l) times) locs)
  = flat_map (fun l => map (fun t => (t, l)) times) locs.
Proof.
  induction locs as [|l locs IH]; [reflexivity|]. cbn [flat_map].
  rewrite zip_with_app by (rewrite length_map; reflexivity).
  rewrite IH. f_equal. clear. induction times as [|t times IH]; cbn; [reflexivity|].
  f_equal. exact IH.
Qed.

Lemma for_each_grid {B} (h : Q * Q -> result B) (locs times : list Q) out :
  for_each h (flat_map (fun l => map (fun t => (t, l)) times) locs) = Ok out ->
  length out = (length locs * length times)%nat /\
  forall i j l t, locs !! i = Some l -> times !! j = Some t ->
    exists v, out !! (i * length times + j)%nat = Some v /\ h (t, l) = Ok v.
Proof.
  revert out. induction locs as [|l0 locs IH]; intros out H.
  - cbn in H. injection H as <-. split; [reflexivity|]. intros i j l t Hl. discriminate.
  - cbn [flat_map] in H. rewrite for_each_app in H.
    apply rbind_ok in H as (row & Hrow & H). apply rbind_ok in H as (rest & Hrest & H).
    injection H as <-. destruct (IH _ Hrest) as [Hlen Hget].
    pose proof (for_each_length _ _ _ Hrow) as Hrl. rewrite length_map in Hrl.
    split; [rewrite length_app; cbn; lia|].
    intros [|i] j l t Hl Ht; cbn in Hl.
    + injection Hl as <-.
      destruct (for_each_lookup _ _ _ j (t, l0) Hrow) as (v & Hv & Hh).
      { rewrite list_lookup_fmap, Ht. reflexivity. }
      exists v. split; [|exact Hh]. rewrite lookup_app_l; [exact Hv|].
      apply lookup_lt_Some in Hv. lia.
    + destruct (Hget i j l t Hl Ht) as (v & Hv & Hh). exists v. split; [|exact Hh].
      rewrite lookup_app_r by lia. rewrite <- Hv. f_equal. lia.
Qed.

Lemma dquery_point m t l seg :
  dquery m (arr1 [t]) (arr1 [l]) seg false =
  let* idx := resolve_segment_index m seg in
  let* bounds := attribute (temporal_bounds m) in
  let* tb := py_getitem bounds idx in
  let* sb := attribute (spatial_bounds m) in
  let* itps := attribute (interpolators m) in
  let* itp := py_getitem itps idx in
  let* v := rgi_eval itp (clip1 tb.1 tb.2 t) (clip1 sb.1 sb.2 l) in
  Ok (arr1 [v]).
Proof.
  unfold displacement_query. cbn [ndim arr1 shape length].
  destruct (resolve_segment_index m seg); [|reflexivity]. cbn [rbind].
  destruct (attribute (temporal_bounds m)); [|reflexivity]. cbn [rbind].
  destruct (py_getitem _ _); [|reflexivity]. cbn [rbind].
  destruct (attribute (spatial_bounds m)); [|reflexivity]. cbn.
  assert (bool_decide ([1%nat] = [1%nat]) = true) as -> by reflexivity. cbn.
  destruct (attribute (interpolators m)); [|reflexivity]. cbn.
  destruct (py_getitem _ _); [|reflexivity]. cbn.
  destruct (rgi_eval _ _ _); reflexivity.
Qed.

Lemma dquery_grid m times locs seg :
  dquery m (arr1 times) (arr1 locs) seg true =
  let* idx := resolve_segment_index m seg in
  let* bounds := attribute (temporal_bounds m) in
  let* tb := py_getitem bounds idx in
  let* sb := attribute (spatial_bounds m) in
  let* itps := attribute (interpolators m) in
  let* itp := py_getitem itps idx in
  let* displacement :=
    for_each (fun p : Q * Q => rgi_eval itp (clip1 tb.1 tb.2 p.1) (clip1 sb.1 sb.2 p.2))
      (flat_map (fun l => map (fun t => (t, l)) times) locs) in
  Ok (mk_ndarray [length locs; length times] displacement).
Proof.
  unfold displacement_query. cbn [ndim arr1 shape length].
  destruct (resolve_segment_index m seg); [|reflexivity]. cbn [rbind].
  destruct (attribute (temporal_bounds m)); [|reflexivity]. cbn [rbind].
  destruct (py_getitem _ _) as [tb|]; [|reflexivity]. cbn [rbind].
  destruct (attribute (spatial_bounds m)) as [sb|]; [|reflexivity].
  cbn [rbind meshgrid_ij_ravel nd_map data shape].
  rewrite meshgrid_points, !length_map.
  destruct (attribute (interpolators m)); [|reflexivity]. cbn [rbind].
  destruct (py_getitem _ _) as [itp|]; [|reflexivity]. cbn [rbind].
  unfold rgi_call.
  assert (E : forall ls,
    for_each (fun p : Q * Q => rgi_eval itp p.1 p.2)
      (flat_map (fun l => map (fun t => (t, l)) (map (clip1 tb.1 tb.2) times))
         (map (clip1 sb.1 sb.2) ls))
    = for_each (fun p : Q * Q => rgi_eval itp (clip1 tb.1 tb.2 p.1) (clip1 sb.1 sb.2 p.2))
        (flat_map (fun l => map (fun t => (t, l)) times) ls)).
  { induction ls as [|l ls IH]; [reflexivity|]. cbn [map flat_map].
    rewrite !for_each_app, IH. f_equal. clear.
    induction times as [|t ts IH]; [reflexivity|]. cbn. rewrite IH. reflexivity. }
  rewrite E. reflexivity.
Qed.

(** What [make_interpolators] stores when it returns. *)
Lemma ensure_fresh m :
  interpolators m = None -> (ensure m).2 = Ok tt ->
  exists itps bounds lo hi,
    interpolators (ensure m).1 = Some itps /\
    temporal_bounds (ensure m).1 = Some bounds /\
    spatial_bounds (ensure m).1 = Some (lo, hi) /\
    for_each (fun j : nat =>
                let* t := py_getitem (temporal_bins_s m) (Z.of_nat j) in
                let* d := py_getitem (displacement m) (Z.of_nat j) in
                RegularGridInterpolator rgi_check t (spatial_bins_um m) d
                  (interpolation_method m))
      (py_range (num_segments m)) = Ok itps /\
    for_each first_last (temporal_bins_s m) = Ok bounds /\
    np_min (data (spatial_bins_um m)) = Ok lo /\
    np_max (data (spatial_bins_um m)) = Ok hi.
Proof.
  intros Hi. unfold ensure_interpolators, make_interpolators. rewrite Hi.
  destruct (for_each _ (py_range _)) as [itps|]; [|discriminate].
  cbn [temporal_bins_s set_interpolators spatial_bins_um set_temporal_bounds].
  destruct (for_each first_last _) as [bounds|]; [|discriminate].
  destruct (np_min _) as [lo|]; [|discriminate]. cbn [rbind].
  destruct (np_max _) as [hi|]; [|discriminate]. cbn [rbind fst snd].
  intros _. exists itps, bounds, lo, hi. repeat split.
Qed.

(** The interpolator and the bounds of segment [j] after the first
    query. *)
Lemma fresh_segment m j tj dj t0 t1 s0 s1 :
  interpolators m = None -> (ensure m).2 = Ok tt ->
  (j < num_segments m)%nat ->
  temporal_bins_s m !! j = Some tj -> displacement m !! j = Some dj ->
  first_last tj = Ok (t0, t1) ->
  np_min (data (spatial_bins_um m)) = Ok s0 ->
  np_max (data (spatial_bins_um m)) = Ok s1 ->
  exists itps bounds,
    interpolators (ensure m).1 = Some itps /\
    temporal_bounds (ensure m).1 = Some bounds /\
    spatial_bounds (ensure m).1 = Some (s0, s1) /\
    itps !! j = Some (mk_interpolator tj (spatial_bins_um m) dj
                        (interpolation_method m)) /\
    bounds !! j = Some (t0, t1).
Proof.
  intros Hi Hok Hj Htj Hdj Hfl Hs0 Hs1.
  destruct (ensure_fresh m Hi Hok)
    as (itps & bounds & lo & hi & Hitps & Hb & Hs & Hmk & Hbounds & Hlo & Hhi).
  assert (lo = s0) as -> by congruence. assert (hi = s1) as -> by congruence.
  destruct (for_each_lookup _ _ _ j tj Hbounds Htj) as (tb & Htb & Htb').
  assert (tb = (t0, t1)) as -> by congruence.
  destruct (for_each_lookup _ _ _ j j Hmk) as (itp & Hitp & Hitp').
  { apply lookup_seq_lt. exact Hj. }
  rewrite !py_getitem_nat, Htj, Hdj in Hitp'. cbn [rbind] in Hitp'.
  unfold RegularGridInterpolator in Hitp'.
  apply rbind_ok in Hitp' as ([] & _ & Hitp'). injection Hitp' as <-.
  exists itps, bounds. repeat split; assumption.
Qed.

Lemma fresh_segment_count m itps :
  interpolators m = None -> (ensure m).2 = Ok tt ->
  interpolators (ensure m).1 = Some itps -> length itps = num_segments m.
Proof.
  intros Hi Hok Hitps.
  destruct (ensure_fresh m Hi Hok)
    as (itps' & bounds & lo & hi & Hitps' & _ & _ & Hmk & _).
  assert (itps' = itps) as -> by congruence.
  apply for_each_length in Hmk. rewrite Hmk. apply length_seq.
Qed.



Lemma attribute_ok {A} (o : option A) (x : A) : attribute o = Ok x -> o = Some x.
Proof. destruct o; [intros [= ->]; reflexivity|discriminate]. Qed.

(** C1: in grid mode, for 1-D [times] of size T and [locations] of size
    L, a returned array has shape (L, T); its entry [[i, j]] is the
    displacement the point query returns for [locations[i]] and
    [times[j]], and it is the value the interpolator of the queried
    segment gives at [times[j]] and [locations[i]], each clamped to its
    bounds; on a motion not queried before that interpolator is the one
    built from the segment's temporal bins, the spatial bins and the
    segment's displacement.  The grid query returns whenever all these
    point queries return. *)
Theorem grid_query_cartesian (m : Motion) (times locations : list Q)
    (segment_index : option Z) :
  (forall out,
     (query m (arr1 times) (arr1 locations) segment_index true).2 = Ok out ->
     shape out = [length locations; length times] /\
     (forall i j l t, locations !! i = Some l -> times !! j = Some t ->
       exists v, get2 out i j = Some v /\
                 query m (arr1 [t]) (arr1 [l]) segment_index false
                 = ((query m (arr1 times) (arr1 locations) segment_index true).1,
                    Ok (arr1 [v]))) /\
     (exists idx bounds t0 t1 s0 s1 itps itp,
        resolve_segment_index (ensure m).1 segment_index = Ok idx /\
        temporal_bounds (ensure m).1 = Some bounds /\
        py_getitem bounds idx = Ok (t0, t1) /\
        spatial_bounds (ensure m).1 = Some (s0, s1) /\
        interpolators (ensure m).1 = Some itps /\
        py_getitem itps idx = Ok itp /\
        forall i j l t, locations !! i = Some l -> times !! j = Some t ->
          exists v, get2 out i j = Some v /\
                    rgi_eval itp (clip1 t0 t1 t) (clip1 s0 s1 l) = Ok v) /\
     (forall k tk dk t0 t1 s0 s1,
        interpolators m = None ->
        resolve_segment_index (ensure m).1 segment_index = Ok (Z.of_nat k) ->
        temporal_bins_s m !! k = Some tk -> displacement m !! k = Some dk ->
        first_last tk = Ok (t0, t1) ->
        np_min (data (spatial_bins_um m)) = Ok s0 ->
        np_max (data (spatial_bins_um m)) = Ok s1 ->
        forall i j l t, locations !! i = Some l -> times !! j = Some t ->
          exists v, get2 out i j = Some v /\
                    rgi_eval (mk_interpolator tk (spatial_bins_um m) dk
                                (interpolation_method m))
                      (clip1 t0 t1 t) (clip1 s0 s1 l) = Ok v)) /\
  (locations <> [] -> times <> [] ->
   (forall l t, l ∈ locations -> t ∈ times ->
      is_ok (query m (arr1 [t]) (arr1 [l]) segment_index false).2 = true) ->
   is_ok (query m (arr1 times) (arr1 locations) segment_index true).2 = true).
Proof.
  split.
  - intros out. rewrite query_unfold. cbn [fst snd]. intros H.
    destruct (ensure m).2 as [[]|] eqn:Em; [|discriminate]. cbn [rbind] in H.
    rewrite dquery_grid in H.
    apply rbind_ok in H as (idx & Hidx & H). apply rbind_ok in H as (bounds & Hb & H).
    apply rbind_ok in H as ([t0 t1] & Htb & H). apply rbind_ok in H as ([s0 s1] & Hsb & H).
    apply rbind_ok in H as (itps & Hitps & H). apply rbind_ok in H as (itp & Hitp & H).
    apply rbind_ok in H as (vals & Hvals & H). injection H as <-.
    cbn [fst snd] in Hvals.
    destruct (for_each_grid _ _ _ _ Hvals) as [Hlen Hget].
    assert (Hentry : forall i j l t, locations !! i = Some l -> times !! j = Some t ->
              exists v, get2 (mk_ndarray [length locations; length times] vals) i j
                        = Some v /\
                        rgi_eval itp (clip1 t0 t1 t) (clip1 s0 s1 l) = Ok v).
    { intros i j l t Hl Ht.
      destruct (Hget i j l t Hl Ht) as (v & Hv & Hev). exists v. split; [|exact Hev].
      unfold get2. cbn [shape data].
      apply lookup_lt_Some in Hl, Ht.
      destruct (Nat.ltb_spec i (length locations)); [|lia].
      destruct (Nat.ltb_spec j (length times)); [|lia]. exact Hv. }
    split; [reflexivity|]. split; [|split].
    + intros i j l t Hl Ht.
      destruct (Hentry i j l t Hl Ht) as (v & Hv & Hev). exists v. split; [exact Hv|].
      rewrite query_unfold, Em. cbn [rbind]. f_equal.
      rewrite dquery_point, Hidx, Hb. cbn [rbind]. rewrite Htb, Hsb. cbn [rbind].
      rewrite Hitps. cbn [rbind]. rewrite Hitp. cbn [rbind fst snd].
      rewrite Hev. reflexivity.
    + exists idx, bounds, t0, t1, s0, s1, itps, itp.
      apply attribute_ok in Hb, Hsb, Hitps. repeat split; assumption.
    + intros k tk dk t0' t1' s0' s1' Hi Hk Htk Hdk Hfl Hs0 Hs1 i j l t Hl Ht.
      apply attribute_ok in Hb, Hsb, Hitps.
      assert (idx = Z.of_nat k) as -> by congruence.
      rewrite py_getitem_nat in Hitp. rewrite py_getitem_nat in Htb.
      destruct (itps !! k) as [itp'|] eqn:Hitp'; [|discriminate]. injection Hitp as ->.
      destruct (bounds !! k) as [tb|] eqn:Htb'; [|discriminate]. injection Htb as ->.
      assert (Hlt : (k < num_segments m)%nat).
      { rewrite <- (fresh_segment_count m itps Hi Em Hitps).
        eapply lookup_lt_Some. exact Hitp'. }
      destruct (fresh_segment m k tk dk t0' t1' s0' s1' Hi Em Hlt Htk Hdk Hfl Hs0 Hs1)
        as (itps2 & bounds2 & Hitps2 & Hb2 & Hs2 & Hitp2 & Htb2).
      assert (itps2 = itps) as -> by congruence.
      assert (bounds2 = bounds) as -> by congruence.
      assert (E1 : itp = mk_interpolator tk (spatial_bins_um m) dk
                           (interpolation_method m)) by congruence.
      assert (E2 : (t0, t1) = (t0', t1')) by congruence.
      assert (E3 : (s0, s1) = (s0', s1')) by congruence.
      injection E2 as <- <-. injection E3 as <- <-. rewrite <- E1.
      exact (Hentry i j l t Hl Ht).
  - intros Hl Ht Hall. destruct locations as [|l0 ls]; [congruence|].
    destruct times as [|t0 ts]; [congruence|].
    pose proof (Hall l0 t0 (list_elem_of_here _ _) (list_elem_of_here _ _)) as H0.
    rewrite query_unfold in *. cbn [fst snd] in *.
    assert (Hall' : forall l t, l ∈ l0 :: ls -> t ∈ t0 :: ts ->
              is_ok (let* _ := (ensure m).2 in
                     dquery (ensure m).1 (arr1 [t]) (arr1 [l]) segment_index false) = true).
    { intros l t Hl' Ht'. specialize (Hall l t Hl' Ht').
      rewrite query_unfold in Hall. exact Hall. }
    clear Hall. destruct (ensure m).2; [|discriminate]. cbn [rbind] in *.
    rewrite dquery_grid. rewrite dquery_point in H0.
    destruct (resolve_segment_index _ _) as [idx|] eqn:Hidx; [|discriminate].
    cbn [rbind] in *.
    destruct (attribute (temporal_bounds _)) as [bounds|] eqn:Hb; [|discriminate].
    cbn [rbind] in *.
    destruct (py_getitem bounds idx) as [tb|] eqn:Htb; [|discriminate]. cbn [rbind] in *.
    destruct (attribute (spatial_bounds _)) as [sb|] eqn:Hsb; [|discriminate].
    cbn [rbind] in *.
    destruct (attribute (interpolators _)) as [itps|] eqn:Hitps; [|discriminate].
    cbn [rbind] in *.
    destruct (py_getitem itps idx) as [itp|] eqn:Hitp; [|discriminate]. cbn [rbind] in *.
    match goal with
    | |- is_ok (let* _ := ?fe in _) = true =>
        assert (Hfe : is_ok fe = true); [|destruct fe; [reflexivity|discriminate]]
    end.
    apply for_each_all_ok. intros [t l] Hin.
    apply list_elem_of_In, in_flat_map in Hin as (l' & Hl' & Hin).
    apply in_map_iff in Hin as (t' & E & Ht'). injection E as <- <-.
    apply list_elem_of_In in Hl', Ht'.
    specialize (Hall' l' t' Hl' Ht'). rewrite dquery_point in Hall'.
    rewrite Hidx, Hb in Hall'. cbn [rbind] in Hall'.
    rewrite Htb, Hsb in Hall'. cbn [rbind] in Hall'.
    rewrite Hitps in Hall'. cbn [rbind] in Hall'. rewrite Hitp in Hall'.
    cbn [rbind fst snd] in *.
    destruct (rgi_eval itp (clip1 tb.1 tb.2 t') (clip1 sb.1 sb.2 l'));
      [reflexivity|discriminate].
Qed.
End QueryFacts.

(** * Copies *)

Lemma alloc_spec (h : gmap Heap.addr Heap.object) o a h' :
  Heap.alloc h o = (a, h') ->
  h !! a = None /\ h' !! a = Some o /\ (forall b, b <> a -> h' !! b = h !! b).
Proof.
  unfold Heap.alloc. intros [= <- <-]. split; [|split].
  - apply not_elem_of_dom, is_fresh.
  - apply lookup_insert_eq.
  - intros b Hb. apply lookup_insert_ne. congruence.
Qed.

Lemma for_each_ext {A B} (f g : A -> result B) l :
  (forall x, x ∈ l -> f x = g x) -> for_each f l = for_each g l.
Proof.
  induction l as [|x l IH]; intros H; cbn; [reflexivity|].
  rewrite (H x) by left. rewrite IH; [reflexivity|].
  intros y Hy. apply H. right. exact Hy.
Qed.

Lemma for_each_get_array_allocated (h : gmap Heap.addr Heap.object) l vs a :
  for_each (Heap.get_array h) l = Ok vs -> a ∈ l -> is_Some (h !! a).
Proof.
  revert vs. induction l as [|x l IH]; intros vs H Ha; [inversion Ha|].
  cbn in H. apply rbind_ok in H as (v & Hv & H). apply rbind_ok in H as (vs' & Hvs & _).
  apply elem_of_cons in Ha as [->|Ha]; [|eauto].
  unfold Heap.get_array in Hv. destruct (h !! x); [eauto|discriminate].
Qed.

(** X1: [copy] on an object whose [displacement] and [temporal_bins_s]
    are lists of arrays of the store that pass [check_properties]
    returns; the copy's two lists are new objects holding the references
    of the original's lists, its spatial bins are a new array equal to the
    original's, its interpolation method is the original's, its direction
    is ["y"], and the objects of the store are otherwise unchanged.  On an
    object whose [displacement] or [temporal_bins_s] is a tuple, which
    [__init__] accepts, [copy] raises [AttributeError] and builds no
    motion. *)
Lemma copy_spec (h : gmap Heap.addr Heap.object) (self : Heap.motion) (v : Motion) :
  (Heap.read h self = Ok v ->
   check_properties v = Ok tt ->
   exists h' c ds ts s,
     Heap.copy h self = (h', Ok c) /\
     h !! Heap.displacement self = Some (Heap.PyList ds) /\
     h !! Heap.temporal_bins_s self = Some (Heap.PyList ts) /\
     h !! Heap.spatial_bins_um self = Some (Heap.Array s) /\
     h !! Heap.displacement c = None /\
     h !! Heap.temporal_bins_s c = None /\
     h !! Heap.spatial_bins_um c = None /\
     h' !! Heap.displacement c = Some (Heap.PyList ds) /\
     h' !! Heap.temporal_bins_s c = Some (Heap.PyList ts) /\
     h' !! Heap.spatial_bins_um c = Some (Heap.Array s) /\
     (forall a, is_Some (h !! a) -> h' !! a = h !! a) /\
     Heap.interpolation_method c = Heap.interpolation_method self /\
     Heap.direction c = "y") /\
  (forall items, h !! Heap.displacement self = Some (Heap.PyTuple items) ->
     Heap.copy h self = (h, Raise AttributeError)) /\
  (forall ds items, h !! Heap.displacement self = Some (Heap.PyList ds) ->
     h !! Heap.temporal_bins_s self = Some (Heap.PyTuple items) ->
     (Heap.copy h self).2 = Raise AttributeError).
Proof.
  split.
  {
  intros Hread Hcheck. unfold Heap.read in Hread.
  apply rbind_ok in Hread as (dsv & Hdsv & Hread).
  apply rbind_ok in Hread as (tsv & Htsv & Hread).
  apply rbind_ok in Hread as (s & Hs & Hread). injection Hread as <-.
  unfold Heap.get_arrays in Hdsv, Htsv.
  apply rbind_ok in Hdsv as (ds & Hds & Hdsv). apply rbind_ok in Htsv as (ts & Hts & Htsv).
  assert (Ed : h !! Heap.displacement self = Some (Heap.PyList ds)).
  { unfold Heap.get_list in Hds. destruct (h !! _) as [[| |]|]; congruence. }
  assert (Et : h !! Heap.temporal_bins_s self = Some (Heap.PyList ts)).
  { unfold Heap.get_list in Hts. destruct (h !! _) as [[| |]|]; congruence. }
  assert (Es : h !! Heap.spatial_bins_um self = Some (Heap.Array s)).
  { unfold Heap.get_array in Hs. destruct (h !! _) as [[| |]|]; congruence. }
  unfold Heap.copy. rewrite Hds.
  destruct (Heap.alloc h (Heap.PyList ds)) as [d h1] eqn:A1.
  apply alloc_spec in A1 as (Hd0 & Hd1 & Hd2).
  assert (Hts1 : Heap.get_list h1 (Heap.temporal_bins_s self) = Ok ts).
  { unfold Heap.get_list. rewrite Hd2, Et; [reflexivity|congruence]. }
  rewrite Hts1.
  destruct (Heap.alloc h1 (Heap.PyList ts)) as [t h2] eqn:A2.
  apply alloc_spec in A2 as (Ht0 & Ht1 & Ht2).
  assert (Hdt : d <> t) by congruence.
  assert (Hs2 : Heap.get_array h2 (Heap.spatial_bins_um self) = Ok s).
  { assert (Heap.spatial_bins_um self <> d) by congruence.
    assert (Heap.spatial_bins_um self <> t).
    { intros E. rewrite <- E, Hd2, Es in Ht0 by assumption. discriminate. }
    unfold Heap.get_array. rewrite Ht2, Hd2, Es by assumption. reflexivity. }
  rewrite Hs2.
  destruct (Heap.alloc h2 (Heap.Array s)) as [s' h3] eqn:A3.
  apply alloc_spec in A3 as (Hs0 & Hs1 & Hs2').
  assert (Hds' : d <> s').
  { intros E. rewrite <- E, Ht2, Hd1 in Hs0 by assumption. discriminate. }
  assert (Hts' : t <> s') by congruence.
  assert (Hframe : forall a, is_Some (h !! a) -> h3 !! a = h !! a).
  { intros a [o Ho].
    assert (a <> d) by congruence.
    assert (a <> t) by (intros ->; rewrite Hd2, Ho in Ht0 by assumption; discriminate).
    assert (a <> s') by (intros ->; rewrite Ht2, Hd2, Ho in Hs0 by assumption; discriminate).
    rewrite Hs2', Ht2, Hd2; auto. }
  assert (H3d : h3 !! d = Some (Heap.PyList ds)) by (rewrite Hs2', Ht2; auto).
  assert (H3t : h3 !! t = Some (Heap.PyList ts)) by (rewrite Hs2'; auto).
  unfold Heap.init. rewrite H3d. cbn [rbind fst snd]. rewrite Hs1. cbn [rbind].
  unfold Heap.get_sequence at 1. rewrite H3d. cbn [rbind list_index String.eqb Ascii.eqb Bool.eqb].
  set (c := Heap.mk_motion d t s' (length ds) (Heap.interpolation_method self) "y" 1).
  assert (Hr : Heap.values h3 c
               = Ok (mk_Motion dsv tsv s (length ds) None
                       (Heap.interpolation_method self) "y" 1 None None)).
  { unfold Heap.values, Heap.get_sequence_arrays, Heap.get_sequence.
    cbn [c Heap.displacement Heap.temporal_bins_s Heap.spatial_bins_um
         Heap.num_segments Heap.interpolation_method Heap.direction Heap.dim].
    rewrite H3d, H3t. cbn [rbind].
    rewrite (for_each_ext (Heap.get_array h3) (Heap.get_array h) ds), Hdsv.
    2:{ intros a Ha. unfold Heap.get_array. rewrite Hframe; [reflexivity|].
        exact (for_each_get_array_allocated h ds dsv a Hdsv Ha). }
    cbn [rbind].
    rewrite (for_each_ext (Heap.get_array h3) (Heap.get_array h) ts), Htsv.
    2:{ intros a Ha. unfold Heap.get_array. rewrite Hframe; [reflexivity|].
        exact (for_each_get_array_allocated h ts tsv a Htsv Ha). }
    cbn [rbind]. unfold Heap.get_array. rewrite Hs1. reflexivity. }
  rewrite Hr. cbn [rbind].
  erewrite check_properties_attributes; [rewrite Hcheck| | |]; try reflexivity.
  cbn [rbind].
  exists h3, c, ds, ts, s. split; [reflexivity|].
  cbn [c Heap.displacement Heap.temporal_bins_s Heap.spatial_bins_um
       Heap.interpolation_method Heap.direction].
  repeat split; try assumption.
  - rewrite <- Hd2, Ht0 by congruence. reflexivity.
  - rewrite <- (Hd2 s'), <- (Ht2 s'), Hs0 by congruence. reflexivity.
  }
  split.
  - intros items Hd. unfold Heap.copy, Heap.get_list. rewrite Hd. reflexivity.
  - intros ds items Hd Ht. unfold Heap.copy, Heap.get_list. rewrite Hd.
    destruct (Heap.alloc h (Heap.PyList ds)) as [d h1] eqn:A1.
    apply alloc_spec in A1 as (Hd0 & Hd1 & Hd2).
    rewrite Hd2, Ht; [reflexivity|congruence].
Qed.

(** * Shapes of the correlation *)

Lemma correlate_full_length x y :
  length (correlate_full x y) = (length x + length y - 1)%nat.
Proof. unfold correlate_full, py_range. rewrite length_map, length_seq. reflexivity. Qed.

Lemma correlate_length x y mode :
  (0 < length x)%nat -> (0 < length y)%nat ->
  exists r, correlate x y mode = Ok r /\
    length r = match mode with
               | mode_same => length x
               | mode_valid =>
                   (length x `max` length y - length x `min` length y + 1)%nat
               end.
Proof.
  intros Hx Hy. unfold correlate.
  destruct (Nat.eqb_spec (length x) 0); [lia|].
  destruct (Nat.eqb_spec (length y) 0); [lia|]. cbn [orb].
  destruct mode; eexists; (split; [reflexivity|]);
    rewrite length_take, length_drop, correlate_full_length.
  - pose proof (Nat.Div0.mul_div_le (length y - 1) 2). lia.
  - lia.
Qed.

Lemma row_of_length len buf i n :
  length buf = (n * len)%nat -> (i < n)%nat -> length (row_of len buf i) = len.
Proof.
  intros Hbuf Hi. unfold row_of. rewrite length_take, length_drop. nia.
Qed.

Lemma pad_rows_length n len p buf :
  length buf = (n * len)%nat ->
  length (pad_rows n len p buf) = (n * (len + 2 * p))%nat.
Proof.
  intros Hbuf. unfold pad_rows, py_range.
  assert (H : forall k s, (s + k <= n)%nat ->
            length (flat_map (fun m => repeat 0%Q p ++ row_of len buf m ++ repeat 0%Q p)
                      (seq s k)) = (k * (len + 2 * p))%nat).
  { induction k as [|k IH]; intros s Hs; [reflexivity|].
    cbn [seq flat_map]. rewrite !length_app, !repeat_length, IH by lia.
    rewrite (row_of_length len buf s n) by (assumption || lia). lia. }
  apply (H n 0%nat). lia.
Qed.

Lemma length_concat_uniform {A} (rows : list (list A)) len :
  Forall (fun r => length r = len) rows ->
  length (concat rows) = (length rows * len)%nat.
Proof.
  induction 1 as [|r rows Hr _ IH]; [reflexivity|].
  cbn. rewrite length_app, IH, Hr. reflexivity.
Qed.

Lemma assign_row_same len r : length r = len -> assign_row len r = Ok r.
Proof. intros <-. unfold assign_row. rewrite Nat.eqb_refl. reflexivity. Qed.

(** The two loops of lines 349-351 when every correlation has the length
    of the output row. *)
Lemma conv_rows_ok n c_out len_in k len_out buf wbuf mode :
  (forall m c, (m < n)%nat -> (c < c_out)%nat ->
     exists r, correlate (row_of len_in buf m) (row_of k wbuf c) mode = Ok r /\
               length r = len_out) ->
  exists rows,
    for_each (fun m =>
      for_each (fun c =>
        let* r := correlate (row_of len_in buf m) (row_of k wbuf c) mode in
        assign_row len_out r) (py_range c_out)) (py_range n) = Ok rows /\
    length (concat (concat rows)) = (n * c_out * len_out)%nat.
Proof.
  intros H.
  set (g := fun m c => match correlate (row_of len_in buf m) (row_of k wbuf c) mode with
                       | Ok r => r | Raise _ => [] end).
  exists (map (fun m => map (g m) (py_range c_out)) (py_range n)). split.
  - apply for_each_ok_map. intros m Hm. apply for_each_ok_map. intros c Hc.
    apply elem_of_seq in Hm, Hc. destruct (H m c) as (r & Hr & Hlen); [lia..|].
    unfold g. rewrite Hr. cbn [rbind]. apply assign_row_same, Hlen.
  - rewrite (length_concat_uniform _ len_out).
    + rewrite (length_concat_uniform _ c_out).
      * rewrite length_map. unfold py_range. rewrite length_seq. reflexivity.
      * apply Forall_forall. intros l Hl. apply list_elem_of_fmap in Hl as (m & -> & _).
        rewrite length_map. unfold py_range. apply length_seq.
    + apply Forall_forall. intros r Hr.
      apply list_elem_of_In, in_concat in Hr as (l & Hl & Hr).
      apply list_elem_of_In in Hl, Hr.
      apply list_elem_of_fmap in Hl as (m & -> & Hm).
      apply list_elem_of_fmap in Hr as (c & -> & Hc).
      apply elem_of_seq in Hm, Hc. destruct (H m c) as (r & Hr & Hlen); [lia..|].
      unfold g. rewrite Hr. exact Hlen.
Qed.

Lemma assign_row_mismatch len r :
  length r <> len -> (2 <= length r)%nat ->
  assign_row len r = Raise (ValueError "could not broadcast input array").
Proof.
  intros Hne H2. unfold assign_row.
  destruct (Nat.eqb_spec (length r) len); [contradiction|].
  destruct r as [|a [|b r]]; cbn in H2; try lia; reflexivity.
Qed.

Lemma half_of_nat (k : nat) : Z.of_nat k / 2 = Z.of_nat (k / 2).
Proof. rewrite Nat2Z.inj_div. reflexivity. Qed.

(** X2: the shapes [scipy_conv1d] returns on a batch of [n] rows of
    [len] entries and [c_out] kernels of [k] entries, for ["same"], for
    an integer padding and for ["valid"] with an odd kernel, and the two
    cases where it raises: ["valid"] with an even kernel shorter than the
    input, and a padding that is none of ["same"], ["valid"], an
    integer. *)
Theorem scipy_conv1d_shapes (input weights : ndarray) (n c_out len k : nat) :
  shape input = [n; 1; len]%nat -> shape weights = [c_out; 1; k]%nat ->
  length (data input) = (n * len)%nat -> length (data weights) = (c_out * k)%nat ->
  (0 < len)%nat -> (0 < k)%nat ->
  (exists out, scipy_conv1d input weights (PadStr "same") = Ok out /\
     shape out = [n; c_out; len] /\ length (data out) = (n * c_out * len)%nat) /\
  (forall p : nat, (k <= len + 2 * p)%nat ->
     exists out, scipy_conv1d input weights (PadInt (Z.of_nat p)) = Ok out /\
       shape out = [n; c_out; len + 2 * p - k + 1]%nat /\
       length (data out) = (n * c_out * (len + 2 * p - k + 1))%nat) /\
  (Nat.odd k = true -> (k <= len)%nat ->
     exists out, scipy_conv1d input weights (PadStr "valid") = Ok out /\
       shape out = [n; c_out; len - 2 * (k / 2)]%nat /\
       length (data out) = (n * c_out * (len - 2 * (k / 2)))%nat) /\
  (Nat.even k = true -> (k < len)%nat -> (0 < n)%nat -> (0 < c_out)%nat ->
     scipy_conv1d input weights (PadStr "valid")
     = Raise (ValueError "could not broadcast input array")) /\
  (forall s, s <> "same" -> s <> "valid" ->
     scipy_conv1d input weights (PadStr s)
     = Raise (ValueError ("Unknown 'padding' value of " +:+ s +:+
                          ", 'padding' must be 'same', 'valid' or an integer"))) /\
  (forall v,
     scipy_conv1d input weights (PadOther v)
     = Raise (ValueError ("Unknown 'padding' value of " +:+ v +:+
                          ", 'padding' must be 'same', 'valid' or an integer"))).
Proof.
  intros Hsi Hsw Hdi Hdw Hlen Hk.
  assert (Hrow : forall m, (m < n)%nat -> length (row_of len (data input) m) = len).
  { intros m Hm. apply (row_of_length _ _ _ n); assumption. }
  assert (Hker : forall c, (c < c_out)%nat -> length (row_of k (data weights) c) = k).
  { intros c Hc. apply (row_of_length _ _ _ c_out); assumption. }
  unfold scipy_conv1d. rewrite Hsi, Hsw. cbn [py_assert Nat.eqb andb rbind].
  repeat split.
  - cbn [String.eqb Ascii.eqb Bool.eqb rbind].
    destruct (Z.ltb_spec (Z.of_nat len) 0); [lia|]. cbn [rbind]. rewrite Nat2Z.id.
    destruct (conv_rows_ok n c_out len k len (data input) (data weights) mode_same)
      as (rows & -> & Hsize).
    { intros m c Hm Hc.
      destruct (correlate_length (row_of len (data input) m)
                  (row_of k (data weights) c) mode_same) as (r & Hr & Hl);
        [rewrite Hrow by assumption; lia|rewrite Hker by assumption; lia|].
      exists r. split; [exact Hr|]. rewrite Hl. apply Hrow, Hm. }
    eexists. split; [reflexivity|]. split; [reflexivity|exact Hsize].
  - intros p Hp. destruct (Z.ltb_spec (Z.of_nat p) 0); [lia|]. cbn [rbind].
    rewrite Nat2Z.id.
    destruct (Z.ltb_spec (Z.of_nat len - (Z.of_nat k - 1) + 2 * Z.of_nat p) 0); [lia|].
    cbn [rbind].
    replace (Z.to_nat (Z.of_nat len - (Z.of_nat k - 1) + 2 * Z.of_nat p))
      with (len + 2 * p - k + 1)%nat by lia.
    destruct (conv_rows_ok n c_out (len + 2 * p) k (len + 2 * p - k + 1)
                (pad_rows n len p (data input)) (data weights) mode_valid)
      as (rows & -> & Hsize).
    { intros m c Hm Hc.
      assert (Hpr : length (row_of (len + 2 * p) (pad_rows n len p (data input)) m)
                    = (len + 2 * p)%nat).
      { apply (row_of_length _ _ _ n); [|assumption].
        apply pad_rows_length, Hdi. }
      destruct (correlate_length (row_of (len + 2 * p) (pad_rows n len p (data input)) m)
                  (row_of k (data weights) c) mode_valid) as (r & Hr & Hl);
        [rewrite Hpr; lia|rewrite Hker by assumption; lia|].
      exists r. split; [exact Hr|]. rewrite Hl, Hpr, Hker by assumption. lia. }
    eexists. split; [reflexivity|]. split; [reflexivity|exact Hsize].
  - intros Hodd Hkl. cbn [String.eqb Ascii.eqb Bool.eqb rbind].
    apply Nat.odd_spec in Hodd as [h ->].
    assert (Hh : ((2 * h + 1) / 2 = h)%nat)
      by (symmetry; apply (Nat.div_unique _ 2 h 1); lia).
    rewrite half_of_nat, Hh.
    destruct (Z.ltb_spec (Z.of_nat len - 2 * Z.of_nat h) 0); [lia|]. cbn [rbind].
    replace (Z.to_nat (Z.of_nat len - 2 * Z.of_nat h)) with (len - 2 * h)%nat by lia.
    destruct (conv_rows_ok n c_out len (2 * h + 1) (len - 2 * h)
                (data input) (data weights) mode_valid) as (rows & -> & Hsize).
    { intros m c Hm Hc.
      destruct (correlate_length (row_of len (data input) m)
                  (row_of (2 * h + 1) (data weights) c) mode_valid) as (r & Hr & Hl);
        [rewrite Hrow by assumption; lia|rewrite Hker by assumption; lia|].
      exists r. split; [exact Hr|]. rewrite Hl, Hrow, Hker by assumption. lia. }
    eexists. split; [reflexivity|]. split; [reflexivity|exact Hsize].
  - intros Heven Hkl Hn Hc. cbn [String.eqb Ascii.eqb Bool.eqb rbind].
    apply Nat.even_spec in Heven as [h ->].
    assert (Hh : ((2 * h) / 2 = h)%nat)
      by (symmetry; apply (Nat.div_unique _ 2 h 0); lia).
    rewrite half_of_nat, Hh.
    destruct (Z.ltb_spec (Z.of_nat len - 2 * Z.of_nat h) 0); [lia|]. cbn [rbind].
    replace (Z.to_nat (Z.of_nat len - 2 * Z.of_nat h)) with (len - 2 * h)%nat by lia.
    unfold py_range.
    destruct n as [|n']; [lia|]. destruct c_out as [|c']; [lia|].
    cbn [seq for_each].
    destruct (correlate_length (row_of len (data input) 0)
                (row_of (2 * h) (data weights) 0) mode_valid) as (r & Hr & Hl);
      [rewrite Hrow by lia; lia|rewrite Hker by lia; lia|].
    rewrite Hr. cbn [rbind]. rewrite Hrow, Hker in Hl by lia.
    rewrite assign_row_mismatch by lia. reflexivity.
  - intros s Hs1 Hs2.
    destruct (String.eqb_spec s "same"); [contradiction|].
    destruct (String.eqb_spec s "valid"); [contradiction|]. reflexivity.
Qed.

Lemma scipy_conv1d_shapes_witness :
  (exists out,
     scipy_conv1d (mk_ndarray [1; 1; 4]%nat [1; 2; 3; 4]%Q)
       (mk_ndarray [2; 1; 3]%nat [1; 10; 100; 0; 1; 0]%Q) (PadStr "valid") = Ok out /\
     shape out = [1; 2; 4 - 2 * (3 / 2)]%nat /\
     length (data out) = (1 * 2 * (4 - 2 * (3 / 2)))%nat) /\
  scipy_conv1d (mk_ndarray [1; 1; 4]%nat [1; 2; 3; 4]%Q)
    (mk_ndarray [1; 1; 2]%nat [1; 10]%Q) (PadStr "valid")
  = Raise (ValueError "could not broadcast input array").
Proof.
  destruct (scipy_conv1d_shapes (mk_ndarray [1; 1; 4]%nat [1; 2; 3; 4]%Q)
              (mk_ndarray [2; 1; 3]%nat [1; 10; 100; 0; 1; 0]%Q) 1 2 4 3
              eq_refl eq_refl eq_refl eq_refl) as (_ & _ & Hodd & _); [lia..|].
  destruct (scipy_conv1d_shapes (mk_ndarray [1; 1; 4]%nat [1; 2; 3; 4]%Q)
              (mk_ndarray [1; 1; 2]%nat [1; 10]%Q) 1 1 4 2
              eq_refl eq_refl eq_refl eq_refl) as (_ & _ & _ & Heven & _); [lia..|].
  split.
  - apply Hodd; [reflexivity|lia].
  - apply Heven; [reflexivity|lia..].
Defined.

(** C4: the copy of a motion shares the displacement and temporal-bin
    arrays with the original.  On the example store the copy's lists hold
    the addresses of the original's arrays, a write through the original's
    displacement array is read through the copy, the spatial bins are a
    new array, and the direction ["x"] of the original becomes ["y"]. *)
Theorem copy_shares_segment_arrays :
  exists h1 c h2,
    Heap.copy example_heap example_object = (h1, Ok c) /\
    Heap.get_list h1 (Heap.displacement example_object) = Ok [1%positive] /\
    Heap.get_list h1 (Heap.displacement c) = Ok [1%positive] /\
    Heap.get_list h1 (Heap.temporal_bins_s example_object) = Ok [2%positive] /\
    Heap.get_list h1 (Heap.temporal_bins_s c) = Ok [2%positive] /\
    Heap.spatial_bins_um c <> Heap.spatial_bins_um example_object /\
    Heap.interpolation_method c = Heap.interpolation_method example_object /\
    Heap.direction example_object = "x" /\ Heap.direction c = "y" /\
    (let* v := Heap.read h1 c in Ok (displacement v))
    = Ok [mk_ndarray [1; 1]%nat [0%Q]] /\
    Heap.array_setitem h1 1%positive 0 5 = (h2, Ok tt) /\
    (let* v := Heap.read h2 c in Ok (displacement v))
    = Ok [mk_ndarray [1; 1]%nat [5%Q]].
Proof.
  eexists _, _, _. split; [vm_compute; reflexivity|].
  repeat split; try discriminate.
Qed.

Lemma copy_spec_witness :
  Heap.read example_heap example_object
  = Ok (mk_Motion [mk_ndarray [1; 1]%nat [0%Q]] [arr1 [0%Q]] (arr1 [0%Q]) 1 None
          "linear" "x" 0 None None) /\
  exists h' c ds ts s,
    Heap.copy example_heap example_object = (h', Ok c) /\
    example_heap !! Heap.displacement example_object = Some (Heap.PyList ds) /\
    example_heap !! Heap.temporal_bins_s example_object = Some (Heap.PyList ts) /\
    example_heap !! Heap.spatial_bins_um example_object = Some (Heap.Array s) /\
    example_heap !! Heap.displacement c = None /\
    example_heap !! Heap.temporal_bins_s c = None /\
    example_heap !! Heap.spatial_bins_um c = None /\
    h' !! Heap.displacement c = Some (Heap.PyList ds) /\
    h' !! Heap.temporal_bins_s c = Some (Heap.PyList ts) /\
    h' !! Heap.spatial_bins_um c = Some (Heap.Array s) /\
    (forall a, is_Some (example_heap !! a) -> h' !! a = example_heap !! a) /\
    Heap.interpolation_method c = Heap.interpolation_method example_object /\
    Heap.direction c = "y".
Proof.
  split; [reflexivity|].
  destruct (copy_spec example_heap example_object
              (mk_Motion [mk_ndarray [1; 1]%nat [0%Q]] [arr1 [0%Q]] (arr1 [0%Q]) 1 None
                 "linear" "x" 0 None None)) as [Hlists _].
  apply Hlists; reflexivity.
Defined.

(** A motion built on tuples: [__init__] accepts it, [copy] raises. *)
Example copy_of_tuples :
  Heap.init tuple_heap 4%positive 5%positive 3%positive "x" "linear"
  = (tuple_heap, Ok example_object) /\
  Heap.copy tuple_heap example_object = (tuple_heap, Raise AttributeError).
Proof. split; reflexivity. Qed.

Lemma save_load_roundtrip_witness :
  Motion_invariant two_segment_motion /\
  path_exists (mk_fs ∅ ∅) "data/motion_folder" = false /\
  existsb (is_file (mk_fs ∅ ∅)) (parents "data/motion_folder") = false /\
  exists fs' m',
    Motion_save "0.101.0" false two_segment_motion "data/motion_folder" (mk_fs ∅ ∅)
    = (fs', Ok tt) /\
    Motion_load "data/motion_folder" fs' = Ok m' /\
    Motion_eq two_segment_motion m' = Ok true /\
    displacement m' = displacement two_segment_motion /\
    temporal_bins_s m' = temporal_bins_s two_segment_motion /\
    spatial_bins_um m' = spatial_bins_um two_segment_motion /\
    direction m' = direction two_segment_motion /\
    interpolation_method m' = interpolation_method two_segment_motion.
Proof.
  assert (H1 : Motion_invariant two_segment_motion) by (repeat split).
  assert (H2 : path_exists (mk_fs ∅ ∅) "data/motion_folder" = false) by reflexivity.
  assert (H3 : existsb (is_file (mk_fs ∅ ∅)) (parents "data/motion_folder") = false)
    by reflexivity.
  split; [exact H1|]. split; [exact H2|]. split; [exact H3|].
  exact (save_load_roundtrip "0.101.0" false two_segment_motion "data/motion_folder"
           (mk_fs ∅ ∅) H1 H2 H3).
Defined.

(** [__init__] accepts two displacement grids with a single temporal-bin
    array; [save] of that motion to a folder that does not exist raises
    [IndexError] at the second segment, so there is nothing to load and
    compare. *)
Lemma save_load_roundtrip_counterexample :
  exists m,
    Motion_init (per_segment [mk_ndarray [3; 2]%nat [0; 0; 1; 2; 2; 4]%Q;
                              mk_ndarray [3; 2]%nat [0; 0; 1; 2; 2; 4]%Q]
                   [arr1 [0; 1; 2]%Q])
      (arr1 [0; 10]%Q) "y" "linear" = Ok m /\
    path_exists (mk_fs ∅ ∅) "motion_folder" = false /\
    (Motion_save "0.101.0" false m "motion_folder" (mk_fs ∅ ∅)).2 = Raise IndexError.
Proof. eexists. split; [reflexivity|]. split; reflexivity. Qed.



Lemma grid_query_cartesian_witness :
  exists out,
    (get_displacement_at_time_and_depth example_check example_eval example_motion
       (arr1 [0; 1; 5]%Q) (arr1 [0; 10]%Q) None true).2 = Ok out /\
    shape out = [2; 3]%nat /\
    is_ok (get_displacement_at_time_and_depth example_check example_eval example_motion
             (arr1 [0; 1; 5]%Q) (arr1 [0; 10]%Q) None true).2 = true /\
    (forall i j l t, [0; 10]%Q !! i = Some l -> [0; 1; 5]%Q !! j = Some t ->
      exists v, get2 out i j = Some v /\
        (get_displacement_at_time_and_depth example_check example_eval example_motion
           (arr1 [t]) (arr1 [l]) None false).2 = Ok (arr1 [v])) /\
    (forall i j l t, [0; 10]%Q !! i = Some l -> [0; 1; 5]%Q !! j = Some t ->
      exists v, get2 out i j = Some v /\
        example_eval
          (mk_interpolator (arr1 [0; 1; 2]%Q) (spatial_bins_um example_motion)
             (mk_ndarray [3; 2]%nat [0; 0; 1; 2; 2; 4]%Q)
             (interpolation_method example_motion))
          (clip1 0 2 t) (clip1 0 10 l) = Ok v) /\
    (exists v, get2 out 1 2 = Some v /\ (v == 4)%Q).
Proof.
  destruct (grid_query_cartesian example_check example_eval example_motion
              [0; 1; 5]%Q [0; 10]%Q None) as [Hsound Htotal].
  eexists. split; [reflexivity|].
  destruct (Hsound _ eq_refl) as (Hshape & Hentries & _ & Hfresh).
  split; [exact Hshape|]. split; [|split; [|split]].
  - apply Htotal; [discriminate|discriminate|].
    intros l t Hl Ht.
    repeat (apply elem_of_cons in Hl as [->|Hl]); [| |inversion Hl];
      repeat (apply elem_of_cons in Ht as [->|Ht]); try reflexivity; inversion Ht.
  - intros i j l t Hl Ht. destruct (Hentries i j l t Hl Ht) as (v & Hv & Hq).
    exists v. split; [exact Hv|]. rewrite Hq. reflexivity.
  - exact (Hfresh 0%nat (arr1 [0; 1; 2]%Q) (mk_ndarray [3; 2]%nat [0; 0; 1; 2; 2; 4]%Q)
             0%Q 2%Q 0%Q 10%Q eq_refl eq_refl eq_refl eq_refl eq_refl eq_refl eq_refl).
  - destruct (Hfresh 0%nat (arr1 [0; 1; 2]%Q) (mk_ndarray [3; 2]%nat [0; 0; 1; 2; 2; 4]%Q)
                0%Q 2%Q 0%Q 10%Q eq_refl eq_refl eq_refl eq_refl eq_refl eq_refl eq_refl
                1%nat 2%nat 10%Q 5%Q eq_refl eq_refl) as (v & Hv & Hev).
    exists v. split; [exact Hv|]. injection Hev as <-. reflexivity.
Defined.

(** * The constructor *)

Lemma py_assert_ok b : py_assert b = Ok tt <-> b = true.
Proof. destruct b; cbn; split; congruence. Qed.

Lemma py_assert_error b e : py_assert b = Raise e -> e = AssertionError /\ b = false.
Proof. destruct b; cbn; [discriminate|]. intros [= <-]. auto. Qed.

Lemma check_properties_consistent m :
  check_properties m = Ok tt <-> shapes_consistent m.
Proof.
  unfold check_properties, shapes_consistent. split.
  - intros H. apply rbind_ok in H as ([] & H1 & H). apply rbind_ok in H as ([] & H2 & H3).
    apply py_assert_ok in H1, H2, H3. rewrite forallb_forall in H1, H2, H3. split.
    + apply Forall_forall. intros d Hd. apply list_elem_of_In in Hd.
      specialize (H1 d Hd). specialize (H3 d Hd). apply Nat.eqb_eq in H1.
      unfold ndim in H1. destruct (shape d) as [|rows [|cols [|? ?]]]; try discriminate.
      cbn in H3. apply bool_decide_eq_true_1 in H3. eauto.
    + apply Forall_forall. intros t Ht. apply list_elem_of_In in Ht.
      specialize (H2 t Ht). apply Nat.eqb_eq in H2. unfold ndim in H2.
      destruct (shape t) as [|n [|? ?]]; try discriminate. eauto.
  - intros [Hd Ht]. rewrite Forall_forall in Hd, Ht.
    assert (H1 : forallb (fun d => (ndim d =? 2)%nat) (displacement m) = true).
    { apply forallb_forall. intros d Hin. apply list_elem_of_In in Hin.
      destruct (Hd d Hin) as (r & c & E & _). unfold ndim. rewrite E. reflexivity. }
    assert (H2 : forallb (fun t => (ndim t =? 1)%nat) (temporal_bins_s m) = true).
    { apply forallb_forall. intros t Hin. apply list_elem_of_In in Hin.
      destruct (Ht t Hin) as (n & E). unfold ndim. rewrite E. reflexivity. }
    rewrite H1, H2. cbn. apply py_assert_ok, forallb_forall.
    intros d Hin. apply list_elem_of_In in Hin.
    destruct (Hd d Hin) as (r & c & E & Es). rewrite E. cbn.
    apply bool_decide_eq_true_2, Es.
Qed.

Lemma check_properties_error m e : check_properties m = Raise e -> e = AssertionError.
Proof.
  unfold check_properties. intros H.
  destruct (py_assert (forallb _ (displacement m))) eqn:E1; cbn in H.
  - destruct (py_assert (forallb _ (temporal_bins_s m))) eqn:E2; cbn in H.
    + apply py_assert_error in H as [-> _]. reflexivity.
    + injection H as <-. apply py_assert_error in E2 as [-> _]. reflexivity.
  - injection H as <-. apply py_assert_error in E1 as [-> _]. reflexivity.
Qed.

Lemma list_index_xyz direction dm :
  list_index direction ["x"; "y"; "z"] = Ok dm <->
  (direction, dm) ∈ [("x", 0%nat); ("y", 1%nat); ("z", 2%nat)].
Proof.
  split.
  - cbn [list_index].
    destruct (String.eqb_spec direction "x") as [->|]; [intros [= <-]; set_solver|].
    destruct (String.eqb_spec direction "y") as [->|]; [cbn; intros [= <-]; set_solver|].
    destruct (String.eqb_spec direction "z") as [->|]; [cbn; intros [= <-]; set_solver|].
    cbn. discriminate.
  - intros H. repeat (apply elem_of_cons in H as [[= -> ->]|H]; [reflexivity|]).
    inversion H.
Qed.

(** X3: [Motion(...)] returns exactly when [direction] is one of
    ["x"], ["y"], ["z"] and the shapes are consistent; the object it returns
    holds the arguments, the number of displacement grids as segment count,
    the index of the direction as [dim], and no interpolators.  A direction
    outside the three raises [ValueError], inconsistent shapes raise
    [AssertionError].  Neither the number of temporal-bin arrays nor their
    lengths are compared with the displacement grids. *)
Theorem Motion_init_spec (arrays : motion_arrays) (spatial_bins_um : ndarray)
    (direction interpolation_method : string) :
  let built dm :=
    mk_Motion (segment_lists arrays).1 (segment_lists arrays).2 spatial_bins_um
      (length (segment_lists arrays).1) None interpolation_method direction dm
      None None in
  (forall m,
     Motion_init arrays spatial_bins_um direction interpolation_method = Ok m <->
     exists dm, (direction, dm) ∈ [("x", 0%nat); ("y", 1%nat); ("z", 2%nat)] /\
                m = built dm /\ shapes_consistent m) /\
  (forall e,
     Motion_init arrays spatial_bins_um direction interpolation_method = Raise e ->
     (e = ValueError "is not in list" /\ direction ∉ ["x"; "y"; "z"]) \/
     (e = AssertionError /\ direction ∈ ["x"; "y"; "z"] /\
      ~ shapes_consistent (built 0%nat))).
Proof.
  intros built.
  assert (Hinit : Motion_init arrays spatial_bins_um direction interpolation_method
                  = let* dm := list_index direction ["x"; "y"; "z"] in
                    let* _ := check_properties (built dm) in Ok (built dm)).
  { unfold Motion_init, built. destruct arrays; reflexivity. }
  rewrite Hinit. clear Hinit. split.
  - intros m. split.
    + intros H. apply rbind_ok in H as (dm & Hdm & H).
      apply rbind_ok in H as ([] & Hc & H). injection H as <-.
      exists dm. split; [apply list_index_xyz, Hdm|]. split; [reflexivity|].
      apply check_properties_consistent, Hc.
    + intros (dm & Hdm & -> & Hc). apply list_index_xyz in Hdm. rewrite Hdm. cbn [rbind].
      apply check_properties_consistent in Hc. rewrite Hc. reflexivity.
  - intros e H. destruct (list_index direction ["x"; "y"; "z"]) as [dm|e'] eqn:Hdm.
    + right. cbn [rbind] in H.
      destruct (check_properties (built dm)) as [[]|e''] eqn:Hc; [discriminate|].
      injection H as <-. apply check_properties_error in Hc as E. subst e''.
      split; [reflexivity|]. apply list_index_xyz in Hdm. split.
      * repeat (apply elem_of_cons in Hdm as [Hdm|Hdm];
                [injection Hdm as -> _; set_solver|]). inversion Hdm.
      * intros Hs. change (shapes_consistent (built dm)) in Hs.
        apply check_properties_consistent in Hs. congruence.
    + left. cbn [rbind] in H. injection H as <-. split.
      * cbn [list_index] in Hdm.
        repeat (destruct (String.eqb _ _); [discriminate|]). cbn in Hdm. congruence.
      * intros Hin.
        assert (exists dm, (direction, dm) ∈ [("x", 0%nat); ("y", 1%nat); ("z", 2%nat)])
          as [dm Hd].
        { apply elem_of_cons in Hin as [->|Hin]; [exists 0%nat; set_solver|].
          apply elem_of_cons in Hin as [->|Hin]; [exists 1%nat; set_solver|].
          apply elem_of_cons in Hin as [->|Hin]; [exists 2%nat; set_solver|].
          inversion Hin. }
        apply list_index_xyz in Hd. congruence.
Qed.

(** * The textual form *)

Lemma py_getitem_error {A} (l : list A) i e : py_getitem l i = Raise e -> e = IndexError.
Proof.
  unfold py_getitem. destruct (_ && _); [|congruence].
  destruct (l !! _); congruence.
Qed.

Lemma py_getitem_second {A} (l : list A) :
  py_getitem l 1 = match l with _ :: x :: _ => Ok x | _ => Raise IndexError end.
Proof.
  change (py_getitem l 1) with (py_getitem l (Z.of_nat 1)). rewrite py_getitem_nat.
  destruct l as [|a [|b l]]; reflexivity.
Qed.

(** X4: [repr(motion)] returns exactly when the spatial bins have at
    least one dimension and the first segment has at least two temporal
    bins; otherwise it raises [IndexError], as it does for a motion with a
    single temporal bin or without segments. *)
Theorem Motion_repr_spec (format_float : Q -> string) (m : Motion) :
  (is_ok (Motion_repr format_float m) = true <->
   shape (spatial_bins_um m) <> [] /\
   exists t rest, temporal_bins_s m = t :: rest /\ (2 <= length (data t))%nat) /\
  (forall e, Motion_repr format_float m = Raise e -> e = IndexError).
Proof.
  unfold Motion_repr. rewrite !py_getitem_first. split.
  - split.
    + intros H. destruct (shape (spatial_bins_um m)) as [|nbins sh]; [discriminate|].
      split; [discriminate|]. cbn [rbind] in H.
      destruct (temporal_bins_s m) as [|t rest]; [discriminate|]. cbn [rbind] in H.
      exists t, rest. split; [reflexivity|].
      rewrite py_getitem_second, py_getitem_first in H.
      destruct (data t) as [|t0 [|t1 l]]; try discriminate. cbn. lia.
    + intros (Hs & t & rest & -> & Hlen).
      destruct (shape (spatial_bins_um m)) as [|nbins sh]; [congruence|]. cbn [rbind].
      rewrite py_getitem_second, py_getitem_first.
      destruct (data t) as [|t0 [|t1 l]]; cbn in Hlen; try lia. reflexivity.
  - intros e H. destruct (shape (spatial_bins_um m)) as [|nbins sh];
      [cbn in H; congruence|].
    cbn [rbind] in H. destruct (temporal_bins_s m) as [|t rest]; [cbn in H; congruence|].
    cbn [rbind] in H. rewrite py_getitem_second, py_getitem_first in H.
    destruct (data t) as [|t0 [|t1 l]]; cbn in H; congruence.
Qed.

(** * Equality is reflexive and not symmetric *)

Lemma eq_segments_app a b l1 l2 :
  eq_segments a b l1 = Ok true ->
  eq_segments a b (l1 ++ l2) = eq_segments a b l2.
Proof.
  induction l1 as [|i l1 IH]; [reflexivity|]. cbn [app eq_segments].
  destruct (py_getitem (displacement a) _); [|discriminate]. cbn [rbind].
  destruct (py_getitem (displacement b) _); [|discriminate]. cbn [rbind].
  destruct (allclose _ _) as [[|]|]; try discriminate. cbn [rbind negb].
  destruct (py_getitem (temporal_bins_s a) _); [|discriminate]. cbn [rbind].
  destruct (py_getitem (temporal_bins_s b) _); [|discriminate]. cbn [rbind].
  destruct (allclose _ _) as [[|]|]; try discriminate. cbn [rbind negb].
  exact IH.
Qed.

(** X5: for a motion of finite numbers (no [nan], which is close to
    nothing) with one temporal-bin array per segment, [m == m]
    is [True]; and with [b] the motion [a] with one more segment,
    [a == b] is [True] whatever the added segment holds, while [b == a]
    raises [IndexError]: the comparison only visits the segments of its
    left operand. *)
Theorem Motion_eq_reflexive_not_symmetric (a : Motion) (d t : ndarray) :
  num_segments a = length (displacement a) ->
  length (temporal_bins_s a) = num_segments a ->
  Motion_eq a a = Ok true /\
  Motion_eq a (append_segment d t a) = Ok true /\
  Motion_eq (append_segment d t a) a = Raise IndexError.
Proof.
  intros Hn Ht.
  assert (Hseg : forall b, (forall i x, displacement a !! i = Some x ->
                                        displacement b !! i = Some x) ->
                           (forall i x, temporal_bins_s a !! i = Some x ->
                                        temporal_bins_s b !! i = Some x) ->
                           eq_segments a b (py_range (num_segments a)) = Ok true).
  { intros b Hd Htb. apply eq_segments_true. intros i Hi. apply elem_of_seq in Hi.
    destruct (lookup_lt_is_Some_2 (displacement a) i) as [x Ex]; [lia|].
    destruct (lookup_lt_is_Some_2 (temporal_bins_s a) i) as [y Ey]; [lia|].
    exists x, x, y, y. repeat split; auto using allclose_refl. }
  split; [|split].
  - unfold Motion_eq. rewrite Hseg by auto. cbn. rewrite allclose_refl. reflexivity.
  - unfold Motion_eq. rewrite Hseg.
    + cbn. rewrite allclose_refl. reflexivity.
    + intros i x Hx. cbn. apply lookup_app_l_Some, Hx.
    + intros i x Hx. cbn. apply lookup_app_l_Some, Hx.
  - unfold Motion_eq. cbn [num_segments append_segment]. unfold py_range.
    rewrite seq_S. cbn [Nat.add].
    rewrite eq_segments_app.
    + cbn [eq_segments]. rewrite !py_getitem_nat. cbn [displacement append_segment].
      rewrite list_lookup_middle by exact Hn. cbn [rbind].
      rewrite (lookup_ge_None_2 (displacement a)) by lia. reflexivity.
    + apply eq_segments_true. intros i Hi. apply elem_of_seq in Hi.
      destruct (lookup_lt_is_Some_2 (displacement a) i) as [x Ex]; [lia|].
      destruct (lookup_lt_is_Some_2 (temporal_bins_s a) i) as [y Ey]; [lia|].
      exists x, x, y, y. cbn. rewrite !lookup_app_l by lia.
      repeat split; auto using allclose_refl.
Qed.

Lemma Motion_eq_reflexive_not_symmetric_witness :
  num_segments example_motion = length (displacement example_motion) /\
  length (temporal_bins_s example_motion) = num_segments example_motion /\
  Motion_eq example_motion example_motion = Ok true /\
  Motion_eq example_motion
    (append_segment (mk_ndarray [1; 2]%nat [7; 7]%Q) (arr1 [3%Q]) example_motion) = Ok true /\
  Motion_eq
    (append_segment (mk_ndarray [1; 2]%nat [7; 7]%Q) (arr1 [3%Q]) example_motion)
    example_motion = Raise IndexError.
Proof.
  split; [reflexivity|]. split; [reflexivity|].
  exact (Motion_eq_reflexive_not_symmetric example_motion
           (mk_ndarray [1; 2]%nat [7; 7]%Q) (arr1 [3%Q]) eq_refl eq_refl).
Defined.

(** * The interpolator cache *)

Section CacheFacts.
Variable rgi_check : interpolator -> result unit.
Variable rgi_eval : interpolator -> Q -> Q -> result Q.

Local Abbreviation ensure := (ensure_interpolators rgi_check).
Local Abbreviation query := (get_displacement_at_time_and_depth rgi_check rgi_eval).
Local Abbreviation dquery := (displacement_query rgi_eval).

(** What [make_interpolators] leaves in the object, by outcome. *)
Lemma make_interpolators_cases m :
  (exists e, make_interpolators rgi_check m = (m, Raise e)) \/
  (exists itps,
     length itps = num_segments m /\
     ((exists e, for_each first_last (temporal_bins_s m) = Raise e /\
                 make_interpolators rgi_check m = (set_interpolators itps m, Raise e)) \/
      (exists bounds,
         for_each first_last (temporal_bins_s m) = Ok bounds /\
         ((exists e, make_interpolators rgi_check m
                     = (set_temporal_bounds bounds (set_interpolators itps m), Raise e)) \/
          (exists sb, make_interpolators rgi_check m
                      = (set_spatial_bounds sb
                           (set_temporal_bounds bounds (set_interpolators itps m)),
                         Ok tt)))))).
Proof.
  unfold make_interpolators.
  destruct (for_each _ (py_range _)) as [itps|e] eqn:E; [right|left; eauto].
  exists itps. split.
  { apply for_each_length in E. rewrite E. unfold py_range. apply length_seq. }
  cbn [temporal_bins_s set_interpolators].
  destruct (for_each first_last _) as [bounds|e]; [right|left; eauto].
  exists bounds. split; [reflexivity|].
  destruct (let* lo := _ in _) as [sb|e]; [right|left]; eauto.
Qed.

(** X6: once the interpolators are built the object no longer changes and
    answers as before: a query on the state a first query left returns
    that same state and the result the query has on the original object.
    The arrays, the segment count, the direction and the interpolation
    method are those of the original. *)
Theorem query_cache_stable (m : Motion) :
  (ensure m).2 = Ok tt ->
  let m1 := (ensure m).1 in
  ensure m1 = (m1, Ok tt) /\
  (forall times_s locations_um segment_index grid,
     query m times_s locations_um segment_index grid
     = (m1, displacement_query rgi_eval m1 times_s locations_um segment_index grid) /\
     query m1 times_s locations_um segment_index grid
     = query m times_s locations_um segment_index grid) /\
  displacement m1 = displacement m /\
  temporal_bins_s m1 = temporal_bins_s m /\
  spatial_bins_um m1 = spatial_bins_um m /\
  num_segments m1 = num_segments m /\
  direction m1 = direction m /\
  dim m1 = dim m /\
  interpolation_method m1 = interpolation_method m.
Proof.
  intros Hok m1.
  assert (H1 : ensure m1 = (m1, Ok tt) /\
               displacement m1 = displacement m /\
               temporal_bins_s m1 = temporal_bins_s m /\
               spatial_bins_um m1 = spatial_bins_um m /\
               num_segments m1 = num_segments m /\
               direction m1 = direction m /\
               dim m1 = dim m /\
               interpolation_method m1 = interpolation_method m).
  { subst m1. unfold ensure_interpolators in *.
    destruct (interpolators m) as [itps|] eqn:Ei.
    - cbn [fst]. rewrite Ei. repeat split.
    - destruct (make_interpolators_cases m) as [(e & E)|(itps & _ & [(e & _ & E)|(b & _ & [(e & E)|(sb & E)])])];
        rewrite E in *; cbn [fst snd] in *; try discriminate.
      repeat split. }
  destruct H1 as (He & Hrest). split; [exact He|]. split; [|exact Hrest].
  intros t l s g. rewrite !query_unfold. fold m1. rewrite Hok, He. cbn [fst snd rbind].
  split; reflexivity.
Qed.

Lemma first_last_empty t : data t = [] -> first_last t = Raise IndexError.
Proof. intros E. unfold first_last. rewrite E. reflexivity. Qed.

Lemma first_last_error t e : first_last t = Raise e -> e = IndexError.
Proof.
  unfold first_last. rewrite py_getitem_first, py_getitem_last.
  destruct (data t) as [|x l]; cbn; [congruence|].
  destruct (last (x :: l)); cbn; congruence.
Qed.

Lemma for_each_first_last_empty ts :
  Exists (fun t => data t = []) ts -> for_each first_last ts = Raise IndexError.
Proof.
  induction 1 as [t ts Ht|t ts _ IH]; cbn.
  - rewrite (first_last_empty t Ht). reflexivity.
  - destruct (first_last t) eqn:E; cbn.
    + rewrite IH. reflexivity.
    + apply first_last_error in E as ->. reflexivity.
Qed.

(** X7: on a freshly constructed motion one of whose temporal-bin arrays
    is empty, the first query never returns.  If the interpolators were
    built before the bounds failed, the query raises [IndexError] and
    leaves an object with interpolators but without temporal bounds, on
    which every later query with a resolved segment and 1-D locations
    raises [AttributeError]. *)
Theorem empty_temporal_bins_break_queries (m : Motion)
    (times_s locations_um : ndarray) (segment_index : option Z) (grid : bool) :
  interpolators m = None ->
  temporal_bounds m = None ->
  Exists (fun t => data t = []) (temporal_bins_s m) ->
  let m' := (query m times_s locations_um segment_index grid).1 in
  is_ok (query m times_s locations_um segment_index grid).2 = false /\
  (interpolators m' <> None ->
   (query m times_s locations_um segment_index grid).2 = Raise IndexError /\
   temporal_bounds m' = None /\
   forall times_s' locations_um' segment_index' grid' idx,
     resolve_segment_index m' segment_index' = Ok idx ->
     ndim locations_um' = 1%nat ->
     query m' times_s' locations_um' segment_index' grid'
     = (m', Raise AttributeError)).
Proof.
  intros Hi Hb Hex m'. subst m'. rewrite !query_unfold. cbn [fst snd].
  apply for_each_first_last_empty in Hex.
  unfold ensure_interpolators. rewrite Hi.
  destruct (make_interpolators_cases m)
    as [(e & E)|(itps & _ & [(e & Hfl & E)|(b & Hfl & _)])];
    [| |congruence]; rewrite E; cbn [fst snd rbind is_ok].
  - split; [reflexivity|]. intros H. congruence.
  - split; [reflexivity|]. intros _. assert (e = IndexError) as -> by congruence.
    split; [reflexivity|]. split; [exact Hb|].
    intros t l s g idx Hr Hnd. rewrite query_unfold.
    unfold ensure_interpolators. cbn [interpolators set_interpolators fst snd rbind].
    f_equal. unfold displacement_query. rewrite Hr. cbn [rbind]. rewrite Hnd.
    cbn [rbind temporal_bounds set_interpolators]. rewrite Hb. reflexivity.
Qed.

(** * Point clouds *)

Lemma dquery_cloud m times locs seg :
  dquery m (arr1 times) (arr1 locs) seg false =
  let* idx := resolve_segment_index m seg in
  let* bounds := attribute (temporal_bounds m) in
  let* tb := py_getitem bounds idx in
  let* sb := attribute (spatial_bounds m) in
  let* _ := py_assert (bool_decide (length locs = length times)) in
  let* itps := attribute (interpolators m) in
  let* itp := py_getitem itps idx in
  let* displacement :=
    for_each (fun p : Q * Q => rgi_eval itp (clip1 tb.1 tb.2 p.1) (clip1 sb.1 sb.2 p.2))
      (zip times locs) in
  Ok (mk_ndarray [length times] displacement).
Proof.
  unfold displacement_query. cbn [ndim arr1 shape length].
  destruct (resolve_segment_index m seg); [|reflexivity]. cbn [rbind].
  destruct (attribute (temporal_bounds m)); [|reflexivity]. cbn [rbind].
  destruct (py_getitem _ _) as [tb|]; [|reflexivity]. cbn [rbind].
  destruct (attribute (spatial_bounds m)) as [sb|]; [|reflexivity].
  unfold rbind at 1. unfold nd_map, arr1. cbn [data shape ndim length Nat.eqb].
  assert (bool_decide ([length locs] = [length times])
          = bool_decide (length locs = length times)) as ->.
  { apply bool_decide_ext. split; congruence. }
  destruct (bool_decide (length locs = length times)); [|reflexivity].
  cbn [rbind py_assert].
  destruct (attribute (interpolators m)); [|reflexivity]. cbn [rbind].
  destruct (py_getitem _ _) as [itp|]; [|reflexivity]. cbn [rbind].
  unfold rgi_call.
  assert (E : for_each (fun p : Q * Q => rgi_eval itp p.1 p.2)
                (zip (map (clip1 tb.1 tb.2) times) (map (clip1 sb.1 sb.2) locs))
              = for_each (fun p : Q * Q =>
                            rgi_eval itp (clip1 tb.1 tb.2 p.1) (clip1 sb.1 sb.2 p.2))
                  (zip times locs)).
  { clear. revert locs. induction times as [|t ts IH]; intros [|l ls]; try reflexivity.
    cbn. rewrite IH. reflexivity. }
  rewrite E. reflexivity.
Qed.

(** X8: without [grid], for 1-D [times] and [locations]: a returned array
    means the two have the same size, has that size, and its entry [i] is
    what the query of the single point [(times[i], locations[i])] returns;
    the call returns when the sizes agree and all these point queries
    return; and on a motion that answers some point query, sizes that
    differ raise [AssertionError]. *)
Theorem point_cloud_query (m : Motion) (times locations : list Q)
    (segment_index : option Z) :
  (forall out,
     (query m (arr1 times) (arr1 locations) segment_index false).2 = Ok out ->
     length times = length locations /\
     shape out = [length times] /\
     forall i t l, times !! i = Some t -> locations !! i = Some l ->
       exists v, data out !! i = Some v /\
                 query m (arr1 [t]) (arr1 [l]) segment_index false
                 = ((query m (arr1 times) (arr1 locations) segment_index false).1,
                    Ok (arr1 [v]))) /\
  (times <> [] -> length times = length locations ->
   (forall i t l, times !! i = Some t -> locations !! i = Some l ->
      is_ok (query m (arr1 [t]) (arr1 [l]) segment_index false).2 = true) ->
   is_ok (query m (arr1 times) (arr1 locations) segment_index false).2 = true) /\
  (length times <> length locations ->
   forall t l, is_ok (query m (arr1 [t]) (arr1 [l]) segment_index false).2 = true ->
   (query m (arr1 times) (arr1 locations) segment_index false).2
   = Raise AssertionError).
Proof.
  split; [|split].
  - intros out. rewrite query_unfold. cbn [fst snd]. intros H.
    destruct (ensure m).2 eqn:Em; [|discriminate]. cbn [rbind] in H.
    rewrite dquery_cloud in H.
    apply rbind_ok in H as (idx & Hidx & H). apply rbind_ok in H as (bounds & Hb & H).
    apply rbind_ok in H as (tb & Htb & H). apply rbind_ok in H as (sb & Hsb & H).
    apply rbind_ok in H as ([] & Hlen & H).
    apply rbind_ok in H as (itps & Hitps & H). apply rbind_ok in H as (itp & Hitp & H).
    apply rbind_ok in H as (vals & Hvals & H). injection H as <-.
    apply py_assert_ok, bool_decide_eq_true_1 in Hlen.
    split; [congruence|]. split; [reflexivity|]. intros i t l Ht Hl.
    destruct (for_each_lookup _ _ _ i (t, l) Hvals) as (v & Hv & Hev).
    { apply lookup_zip_with_Some. eauto. }
    exists v. split; [exact Hv|].
    rewrite query_unfold, Em. cbn [rbind]. f_equal.
    rewrite dquery_point, Hidx, Hb. cbn [rbind]. rewrite Htb, Hsb. cbn [rbind].
    rewrite Hitps. cbn [rbind]. rewrite Hitp. cbn [rbind].
    cbn [fst snd] in Hev. rewrite Hev. reflexivity.
  - intros Hne Hlen Hall. destruct times as [|t0 ts]; [congruence|].
    destruct locations as [|l0 ls]; [discriminate|].
    pose proof (Hall 0%nat t0 l0 eq_refl eq_refl) as H0.
    assert (Hall' : forall i t l, (t0 :: ts) !! i = Some t -> (l0 :: ls) !! i = Some l ->
              is_ok (let* _ := (ensure m).2 in
                     dquery (ensure m).1 (arr1 [t]) (arr1 [l]) segment_index false) = true).
    { intros i t l Ht Hl. specialize (Hall i t l Ht Hl).
      rewrite query_unfold in Hall. exact Hall. }
    clear Hall. rewrite query_unfold in *. cbn [fst snd] in *.
    destruct (ensure m).2; [|discriminate]. cbn [rbind] in *.
    rewrite dquery_cloud. rewrite dquery_point in H0.
    destruct (resolve_segment_index _ _) as [idx|] eqn:Hidx; [|discriminate].
    cbn [rbind] in *.
    destruct (attribute (temporal_bounds _)) as [bounds|] eqn:Hb; [|discriminate].
    cbn [rbind] in *.
    destruct (py_getitem bounds idx) as [tb|] eqn:Htb; [|discriminate]. cbn [rbind] in *.
    destruct (attribute (spatial_bounds _)) as [sb|] eqn:Hsb; [|discriminate].
    cbn [rbind] in *.
    rewrite (bool_decide_eq_true_2 _ (eq_sym Hlen)). cbn [py_assert rbind].
    destruct (attribute (interpolators _)) as [itps|] eqn:Hitps; [|discriminate].
    cbn [rbind] in *.
    destruct (py_getitem itps idx) as [itp|] eqn:Hitp; [|discriminate]. cbn [rbind] in *.
    match goal with
    | |- is_ok (let* _ := ?fe in _) = true =>
        assert (Hfe : is_ok fe = true); [|destruct fe; [reflexivity|discriminate]]
    end.
    apply for_each_all_ok. intros [t l] Hin.
    apply list_elem_of_lookup in Hin as [i Hi].
    apply lookup_zip_with_Some in Hi as (t' & l' & E & Ht' & Hl'). injection E as -> ->.
    specialize (Hall' i t' l' Ht' Hl'). rewrite dquery_point in Hall'.
    rewrite Hidx, Hb in Hall'. cbn [rbind] in Hall'.
    rewrite Htb, Hsb in Hall'. cbn [rbind] in Hall'.
    rewrite Hitps in Hall'. cbn [rbind] in Hall'. rewrite Hitp in Hall'.
    cbn [rbind fst snd] in *.
    destruct (rgi_eval itp (clip1 tb.1 tb.2 t') (clip1 sb.1 sb.2 l'));
      [reflexivity|discriminate].
  - intros Hlen t l H0. rewrite query_unfold in *. cbn [fst snd] in *.
    destruct (ensure m).2; [|discriminate]. cbn [rbind] in *.
    rewrite dquery_cloud. rewrite dquery_point in H0.
    destruct (resolve_segment_index _ _) as [idx|]; [|discriminate]. cbn [rbind] in *.
    destruct (attribute (temporal_bounds _)) as [bounds|]; [|discriminate].
    cbn [rbind] in *.
    destruct (py_getitem bounds idx) as [tb|]; [|discriminate]. cbn [rbind] in *.
    destruct (attribute (spatial_bounds _)) as [sb|]; [|discriminate]. cbn [rbind] in *.
    rewrite bool_decide_eq_false_2 by congruence. reflexivity.
Qed.
End CacheFacts.

Lemma query_cache_stable_witness :
  (ensure_interpolators example_check example_motion).2 = Ok tt /\
  ensure_interpolators example_check
    (ensure_interpolators example_check example_motion).1
  = ((ensure_interpolators example_check example_motion).1, Ok tt).
Proof.
  split; [reflexivity|].
  exact (proj1 (query_cache_stable example_check example_eval example_motion eq_refl)).
Defined.

Lemma empty_temporal_bins_break_queries_witness :
  (interpolators empty_bins_motion = None /\
   temporal_bounds empty_bins_motion = None /\
   Exists (fun t => data t = []) (temporal_bins_s empty_bins_motion)) /\
  is_ok (get_displacement_at_time_and_depth example_check example_eval
           empty_bins_motion (arr1 [0%Q]) (arr1 [0%Q]) None false).2 = false.
Proof.
  assert (H : Exists (fun t => data t = []) (temporal_bins_s empty_bins_motion)).
  { apply Exists_cons_hd. reflexivity. }
  split; [split; [reflexivity|split; [reflexivity|exact H]]|].
  exact (proj1 (empty_temporal_bins_break_queries example_check example_eval
                  empty_bins_motion (arr1 [0%Q]) (arr1 [0%Q]) None false
                  eq_refl eq_refl H)).
Defined.

(** The point-cloud statement at the example: two points on the example
    grid. *)
Example cloud_of_two_points :
  (get_displacement_at_time_and_depth example_check example_eval example_motion
     (arr1 [1; 2]%Q) (arr1 [0; 10]%Q) None false).2
  = Ok (arr1 [1 * (1 + 0 / 10); 2 * (1 + 10 / 10)]%Q).
Proof. reflexivity. Qed.

(** * Segment indices *)

Lemma py_getitem_wrap {A} (l : list A) (k : Z) :
  - Z.of_nat (length l) <= k < 0 ->
  py_getitem l k = py_getitem l (k + Z.of_nat (length l)).
Proof.
  intros H. unfold py_getitem.
  replace (k <? 0) with true by (symmetry; apply Z.ltb_lt; lia).
  replace (k + Z.of_nat (length l) <? 0) with false by (symmetry; apply Z.ltb_ge; lia).
  reflexivity.
Qed.

Lemma py_getitem_out_of_range {A} (l : list A) (k : Z) :
  k < - Z.of_nat (length l) \/ Z.of_nat (length l) <= k ->
  py_getitem l k = Raise IndexError.
Proof.
  intros H. unfold py_getitem.
  destruct (Z.ltb_spec k 0).
  - replace (0 <=? k + Z.of_nat (length l)) with false
      by (symmetry; apply Z.leb_gt; lia). reflexivity.
  - replace (k <? Z.of_nat (length l)) with false by (symmetry; apply Z.ltb_ge; lia).
    rewrite andb_false_r. reflexivity.
Qed.

Section SegmentIndex.
Variable rgi_check : interpolator -> result unit.
Variable rgi_eval : interpolator -> Q -> Q -> result Q.

Local Abbreviation ensure := (ensure_interpolators rgi_check).
Local Abbreviation query := (get_displacement_at_time_and_depth rgi_check rgi_eval).
Local Abbreviation dquery := (displacement_query rgi_eval).

Lemma column_error a d e : column a d = Raise e -> e = IndexError.
Proof.
  unfold column. destruct (shape a) as [|? [|? [|? ?]]]; try congruence.
  destruct (_ <? _)%nat; congruence.
Qed.

(** X9: a segment index is a Python index.  On a fresh motion with one
    temporal-bin array per segment whose interpolators can be built, a
    negative index [k >= -num_segments] selects the segment
    [k + num_segments], and an index outside
    [-num_segments, num_segments) raises [IndexError] for 1-D and 2-D
    locations. *)
Theorem segment_index_wraps (m : Motion) (times_s locations_um : ndarray)
    (grid : bool) (k : Z) :
  interpolators m = None ->
  (ensure m).2 = Ok tt ->
  length (temporal_bins_s m) = num_segments m ->
  let n := Z.of_nat (num_segments m) in
  (- n <= k < 0 ->
   query m times_s locations_um (Some k) grid
   = query m times_s locations_um (Some (k + n)) grid) /\
  (k < - n \/ n <= k ->
   ndim locations_um = 1%nat \/ ndim locations_um = 2%nat ->
   (query m times_s locations_um (Some k) grid).2 = Raise IndexError).
Proof.
  intros Hi Hok Hlen n.
  destruct (make_interpolators_bounds _ m Hi Hok)
    as (bounds & lo & hi & Hb & Hs & Hfl & _).
  pose proof (for_each_length _ _ _ Hfl) as Hbl.
  assert (Hitps : exists itps, interpolators (ensure m).1 = Some itps /\
                               length itps = num_segments m).
  { revert Hok. unfold ensure_interpolators. rewrite Hi.
    destruct (make_interpolators_cases rgi_check m)
      as [(e & E)|(itps & Hl & [(e & _ & E)|(b & _ & [(e & E)|(sb & E)])])];
      rewrite E; cbn [fst snd]; try discriminate.
    intros _. exists itps. split; [reflexivity|exact Hl]. }
  destruct Hitps as (itps & Hitps & Hil).
  split.
  - intros Hk. rewrite !query_unfold. rewrite Hok. cbn [rbind]. f_equal.
    unfold displacement_query. cbn [resolve_segment_index rbind].
    rewrite Hb, Hs, Hitps. cbn [attribute].
    destruct (match ndim locations_um with
              | 1%nat => Ok locations_um
              | 2%nat => column locations_um (dim (ensure m).1)
              | _ => Raise AssertionError
              end) as [locs|]; [|reflexivity].
    cbn [rbind].
    rewrite (py_getitem_wrap bounds k) by lia.
    rewrite (py_getitem_wrap itps k) by lia.
    replace (Z.of_nat (length bounds)) with n by lia.
    replace (Z.of_nat (length itps)) with n by lia.
    reflexivity.
  - intros Hk Hnd. rewrite query_unfold. cbn [snd]. rewrite Hok. cbn [rbind].
    unfold displacement_query. cbn [resolve_segment_index rbind].
    rewrite Hb. cbn [attribute].
    destruct Hnd as [-> | ->].
    + cbn [rbind]. rewrite (py_getitem_out_of_range bounds k) by lia. reflexivity.
    + destruct (column _ _) eqn:E; cbn [rbind].
      * rewrite (py_getitem_out_of_range bounds k) by lia. reflexivity.
      * apply column_error in E as ->. reflexivity.
Qed.
End SegmentIndex.

Lemma segment_index_wraps_witness :
  (interpolators two_segment_motion = None /\
   (ensure_interpolators example_check two_segment_motion).2 = Ok tt /\
   length (temporal_bins_s two_segment_motion) = num_segments two_segment_motion /\
   - 2 <= - 1 < 0) /\
  get_displacement_at_time_and_depth example_check example_eval two_segment_motion
    (arr1 [1%Q]) (arr1 [10%Q]) (Some (- 1)) false
  = get_displacement_at_time_and_depth example_check example_eval two_segment_motion
      (arr1 [1%Q]) (arr1 [10%Q]) (Some (- 1 + 2)) false.
Proof.
  split; [split; [reflexivity|split; [reflexivity|split; [reflexivity|lia]]]|].
  apply (proj1 (segment_index_wraps example_check example_eval two_segment_motion
                  (arr1 [1%Q]) (arr1 [10%Q]) false (- 1) eq_refl eq_refl eq_refl)).
  simpl. lia.
Defined.

(** * Saving and loading: failures and frame *)

Lemma write_file_other fs p f q :
  q <> p -> files (write_file fs p f) !! q = files fs !! q.
Proof. intros H. unfold write_file. cbn [files]. apply lookup_insert_ne. congruence. Qed.

Lemma save_segments_frame (self : Motion) folder segments fs :
  dirs (save_segments self folder segments fs).1 = dirs fs /\
  (forall p, (forall name, p <> path_join folder name) ->
     files (save_segments self folder segments fs).1 !! p = files fs !! p) /\
  (forall e, (save_segments self folder segments fs).2 = Raise e -> e = IndexError).
Proof.
  revert fs. induction segments as [|i rest IH]; intros fs; cbn [save_segments].
  - cbn. repeat split; congruence.
  - destruct (py_getitem (displacement self) _) as [d|e] eqn:Ed.
    2:{ apply py_getitem_error in Ed as ->. cbn. repeat split; congruence. }
    destruct (py_getitem (temporal_bins_s self) _) as [t|e] eqn:Et.
    2:{ apply py_getitem_error in Et as ->. cbn [fst snd]. split; [reflexivity|].
        split; [|congruence]. intros p Hp. apply write_file_other, Hp. }
    destruct (IH (write_file (write_file fs (path_join folder (displacement_file i))
                                (NpyFile d))
                    (path_join folder (temporal_bins_file i)) (NpyFile t)))
      as (Hd & Hf & He).
    split; [rewrite Hd; reflexivity|]. split; [|exact He].
    intros p Hp. rewrite Hf by exact Hp.
    rewrite !write_file_other by apply Hp. reflexivity.
Qed.

Lemma save_segments_ok (self : Motion) folder segments fs :
  (save_segments self folder segments fs).2 = Ok tt <->
  forall i, i ∈ segments ->
    is_Some (displacement self !! i) /\ is_Some (temporal_bins_s self !! i).
Proof.
  split.
  - revert fs. induction segments as [|i rest IH]; intros fs H j Hj; [inversion Hj|].
    cbn [save_segments] in H. rewrite !py_getitem_nat in H.
    destruct (displacement self !! i) as [d|] eqn:Ed; [|discriminate].
    destruct (temporal_bins_s self !! i) as [t|] eqn:Et; [|discriminate].
    apply elem_of_cons in Hj as [->|Hj].
    + rewrite Ed, Et. split; eexists; reflexivity.
    + eapply IH; [exact H|exact Hj].
  - intros H. destruct (save_segments_spec self folder segments fs H) as (fs' & E & _).
    rewrite E. reflexivity.
Qed.

Lemma save_segments_other (self : Motion) folder segments fs name :
  (forall i, name <> displacement_file i /\ name <> temporal_bins_file i) ->
  files (save_segments self folder segments fs).1 !! path_join folder name
  = files fs !! path_join folder name.
Proof.
  intros Hname. revert fs.
  induction segments as [|i rest IH]; intros fs; cbn [save_segments]; [reflexivity|].
  destruct (py_getitem (displacement self) _); [|reflexivity].
  assert (N1 : path_join folder name <> path_join folder (displacement_file i)).
  { intros E. apply path_join_inj in E. exact (proj1 (Hname i) E). }
  assert (N2 : path_join folder name <> path_join folder (temporal_bins_file i)).
  { intros E. apply path_join_inj in E. exact (proj2 (Hname i) E). }
  destruct (py_getitem (temporal_bins_s self) _); cbn [fst].
  - rewrite IH. rewrite !write_file_other by assumption. reflexivity.
  - rewrite write_file_other by assumption. reflexivity.
Qed.

Lemma path_exists_dir fs p : p ∈ dirs fs -> path_exists fs p = true.
Proof. intros H. unfold path_exists. rewrite bool_decide_eq_true_2 by exact H. reflexivity. Qed.

Section SaveFacts.
Variable spikeinterface_version : string.
Variable spikeinterface_DEV_MODE : bool.

Local Abbreviation save := (Motion_save spikeinterface_version spikeinterface_DEV_MODE).

(** X10: [save] returns exactly when the folder does not exist, none of
    its ancestors is a regular file, and the motion has a displacement grid
    and a temporal-bin array for each of its [num_segments] segments.  On
    an existing folder it raises [FileExistsError], below a regular file
    [NotADirectoryError], in both cases writing nothing; with an array
    missing it raises [IndexError]. *)
Theorem Motion_save_outcomes (m : Motion) (folder : string) (fs : filesystem) :
  ((save m folder fs).2 = Ok tt <->
   path_exists fs folder = false /\
   existsb (is_file fs) (parents folder) = false /\
   (num_segments m <= length (displacement m))%nat /\
   (num_segments m <= length (temporal_bins_s m))%nat) /\
  (path_exists fs folder = true -> save m folder fs = (fs, Raise FileExistsError)) /\
  (path_exists fs folder = false -> existsb (is_file fs) (parents folder) = true ->
   save m folder fs = (fs, Raise NotADirectoryError)) /\
  (path_exists fs folder = false -> existsb (is_file fs) (parents folder) = false ->
   (length (displacement m) < num_segments m)%nat \/
   (length (temporal_bins_s m) < num_segments m)%nat ->
   (save m folder fs).2 = Raise IndexError).
Proof.
  assert (Hseg : (forall i, i ∈ py_range (num_segments m) ->
                    is_Some (displacement m !! i) /\ is_Some (temporal_bins_s m !! i)) <->
                 (num_segments m <= length (displacement m))%nat /\
                 (num_segments m <= length (temporal_bins_s m))%nat).
  { split.
    - intros H. destruct (num_segments m) as [|n] eqn:En; [split; lia|].
      destruct (H n) as [H1 H2]; [apply elem_of_seq; lia|].
      apply lookup_lt_is_Some_1 in H1, H2. split; lia.
    - intros [H1 H2] i Hi. apply elem_of_seq in Hi.
      split; apply lookup_lt_is_Some_2; lia. }
  unfold Motion_save, mkdir.
  destruct (path_exists fs folder) eqn:Hex; cbn [fst snd].
  { split; [|split; [reflexivity|split; discriminate]].
    split; [discriminate|]. intros [? _]. discriminate. }
  destruct (existsb (is_file fs) (parents folder)) eqn:Hpar; cbn [fst snd].
  { split; [|split; [discriminate|split; [reflexivity|discriminate]]].
    split; [discriminate|]. intros (_ & ? & _). discriminate. }
  set (fs3 := write_file (write_file _ _ _) _ _).
  split; [|split; [discriminate|split; [discriminate|]]].
  - rewrite save_segments_ok, Hseg.
    split; [intros H; split; [reflexivity|split; [reflexivity|exact H]]|].
    intros (_ & _ & H). exact H.
  - intros _ _ Hshort.
    destruct (save_segments m folder (py_range (num_segments m)) fs3).2
      as [[]|e] eqn:E.
    + pose proof (proj1 Hseg (proj1 (save_segments_ok _ _ _ _) E)). lia.
    + apply save_segments_frame in E as ->. reflexivity.
Qed.

(** X11: [save] on a folder that does not exist and is not below a
    regular file, whether it returns or raises afterwards, creates the
    folder and its missing ancestors and no other directory, leaves every
    file outside the folder as it was, and writes [check_json] of the
    metadata and the spatial bins; it is not undone on failure, so that a
    second [save] to the folder raises [FileExistsError]. *)
Theorem Motion_save_frame (m : Motion) (folder : string) (fs : filesystem) :
  path_exists fs folder = false ->
  existsb (is_file fs) (parents folder) = false ->
  let fs' := (save m folder fs).1 in
  dirs fs' = {[folder]} ∪ list_to_set (parents folder) ∪ dirs fs /\
  (forall p, (forall name, p <> path_join folder name) ->
     files fs' !! p = files fs !! p) /\
  files fs' !! path_join folder "spikeinterface_info.json"
  = Some (JsonFile (check_json
                      (mk_info spikeinterface_version spikeinterface_DEV_MODE
                         (Some "Motion") (num_segments m) (direction m)
                         (interpolation_method m)))) /\
  files fs' !! path_join folder "spatial_bins_um.npy"
  = Some (NpyFile (spatial_bins_um m)) /\
  (forall m', save m' folder fs' = (fs', Raise FileExistsError)).
Proof.
  intros Hex Hpar fs'.
  set (fs3 := write_file
                (write_file (mk_fs ({[folder]} ∪ list_to_set (parents folder) ∪ dirs fs)
                               (files fs))
                   (path_join folder "spikeinterface_info.json")
                   (JsonFile (check_json
                      (mk_info spikeinterface_version spikeinterface_DEV_MODE
                         (Some "Motion") (num_segments m) (direction m)
                         (interpolation_method m)))))
                (path_join folder "spatial_bins_um.npy")
                (NpyFile (spatial_bins_um m))).
  assert (Hfs : fs' = (save_segments m folder (py_range (num_segments m)) fs3).1).
  { unfold fs', Motion_save, mkdir. rewrite Hex, Hpar. reflexivity. }
  clearbody fs'. subst fs'.
  destruct (save_segments_frame m folder (py_range (num_segments m)) fs3)
    as (Hd & Hf & _).
  pose proof (save_segments_other m folder (py_range (num_segments m)) fs3) as Hother.
  split; [rewrite Hd; reflexivity|]. split.
  { intros p Hp. rewrite Hf by exact Hp. unfold fs3.
    rewrite !write_file_other by apply Hp. reflexivity. }
  split.
  { rewrite Hother by (intros i; split; discriminate).
    unfold fs3. rewrite write_file_other.
    - unfold write_file. cbn [files]. apply lookup_insert_eq.
    - intros E. apply path_join_inj in E. discriminate. }
  split.
  { rewrite Hother by (intros i; split; discriminate).
    unfold fs3, write_file. cbn [files]. apply lookup_insert_eq. }
  intros m'. unfold Motion_save, mkdir. rewrite path_exists_dir; [reflexivity|].
  rewrite Hd. unfold fs3. cbn [dirs write_file].
  apply elem_of_union_l, elem_of_union_l, elem_of_singleton. reflexivity.
Qed.
End SaveFacts.

Lemma Motion_save_frame_witness :
  (path_exists (mk_fs ∅ ∅) "data/run1/motion" = false /\
   existsb (is_file (mk_fs ∅ ∅)) (parents "data/run1/motion") = false) /\
  dirs (Motion_save "0.101.0" false empty_bins_motion "data/run1/motion" (mk_fs ∅ ∅)).1
  = {["data/run1/motion"]} ∪ list_to_set ["data"; "data/run1"] ∪ ∅.
Proof.
  split; [split; reflexivity|].
  exact (proj1 (Motion_save_frame "0.101.0" false empty_bins_motion "data/run1/motion"
                  (mk_fs ∅ ∅) eq_refl eq_refl)).
Defined.

(** A folder below a regular file: [mkdir] raises and nothing is written. *)
Example save_below_a_file :
  Motion_save "0.101.0" false example_motion "notes.txt/motion"
    (mk_fs ∅ {["notes.txt" := NpyFile (arr1 [])]})
  = (mk_fs ∅ {["notes.txt" := NpyFile (arr1 [])]}, Raise NotADirectoryError).
Proof. reflexivity. Qed.

Lemma for_each_seq_spec {B} (f : nat -> result B) (s n : nat) (ys : list B) :
  for_each f (seq s n) = Ok ys <->
  length ys = n /\ forall i y, ys !! i = Some y -> f (s + i)%nat = Ok y.
Proof.
  revert s ys. induction n as [|n IH]; intros s ys; cbn [seq for_each].
  - split.
    + intros [= <-]. split; [reflexivity|]. intros i y Hy. discriminate.
    + intros [Hl _]. destruct ys; [reflexivity|discriminate].
  - split.
    + intros H. apply rbind_ok in H as (y0 & Hy0 & H).
      apply rbind_ok in H as (ys' & Hys' & H). injection H as <-.
      apply IH in Hys' as [Hl Hall]. split; [cbn; lia|].
      intros [|i] y Hy; cbn in Hy.
      * injection Hy as <-. rewrite Nat.add_0_r. exact Hy0.
      * rewrite <- Nat.add_succ_comm. apply Hall, Hy.
    + intros [Hl Hall]. destruct ys as [|y0 ys']; [discriminate|].
      rewrite <- (Nat.add_0_r s) at 1. rewrite (Hall 0%nat y0 eq_refl). cbn [rbind].
      assert (E : for_each f (seq (S s) n) = Ok ys').
      { apply IH. split; [cbn in Hl; lia|]. intros i y Hy.
        rewrite Nat.add_succ_comm. apply (Hall (S i)), Hy. }
      rewrite E. reflexivity.
Qed.

Lemma np_load_ok fs p a : np_load fs p = Ok a <-> files fs !! p = Some (NpyFile a).
Proof.
  unfold np_load. destruct (files fs !! p) as [[info|b]|]; split; congruence.
Qed.

Lemma json_load_ok fs p info :
  json_load fs p = Ok info <-> files fs !! p = Some (JsonFile info).
Proof.
  unfold json_load. destruct (files fs !! p) as [[i|b]|]; split; congruence.
Qed.

(** * Loading *)

(** X12: [load] returns a motion exactly when the folder's metadata file
    is a JSON file whose ["object"] is ["Motion"], the spatial bins and the
    two arrays of each of the [num_segments] segments are array files, the
    direction is one of the three axes and the shapes are consistent.  The
    motion returned holds the arrays of these files in segment order, the
    direction and the method of the metadata, and no interpolators; the
    version and the development flag of the metadata are not read. *)
Theorem Motion_load_spec (folder : string) (fs : filesystem) (m : Motion) :
  Motion_load folder fs = Ok m <->
  exists info,
    files fs !! path_join folder "spikeinterface_info.json" = Some (JsonFile info) /\
    info_object info = Some "Motion" /\
    files fs !! path_join folder "spatial_bins_um.npy"
    = Some (NpyFile (spatial_bins_um m)) /\
    num_segments m = info_num_segments info /\
    length (displacement m) = info_num_segments info /\
    length (temporal_bins_s m) = info_num_segments info /\
    (forall i d, displacement m !! i = Some d ->
       files fs !! path_join folder (displacement_file i) = Some (NpyFile d)) /\
    (forall i t, temporal_bins_s m !! i = Some t ->
       files fs !! path_join folder (temporal_bins_file i) = Some (NpyFile t)) /\
    direction m = info_direction info /\
    interpolation_method m = info_interpolation_method info /\
    (direction m, dim m) ∈ [("x", 0%nat); ("y", 1%nat); ("z", 2%nat)] /\
    interpolators m = None /\ temporal_bounds m = None /\ spatial_bounds m = None /\
    shapes_consistent m.
Proof.
  unfold Motion_load. split.
  - intros H.
    destruct (path_exists fs _); cbn [negb] in H; [|discriminate].
    apply rbind_ok in H as (info & Hinfo & H). apply json_load_ok in Hinfo.
    destruct (bool_decide (info_object info = Some "Motion")) eqn:Hobj;
      cbn [negb] in H; [|discriminate].
    apply bool_decide_eq_true_1 in Hobj.
    apply rbind_ok in H as (s & Hs & H). apply np_load_ok in Hs.
    apply rbind_ok in H as (segs & Hsegs & H).
    apply for_each_seq_spec in Hsegs as [Hlen Hall].
    unfold Motion_init in H.
    apply rbind_ok in H as (dm & Hdm & H). apply rbind_ok in H as ([] & Hc & H).
    injection H as <-. exists info.
    cbn [displacement temporal_bins_s spatial_bins_um num_segments direction dim
         interpolation_method interpolators temporal_bounds spatial_bounds].
    rewrite !length_fmap in *.
    split; [exact Hinfo|]. split; [exact Hobj|]. split; [exact Hs|].
    split; [exact Hlen|]. split; [exact Hlen|]. split; [exact Hlen|].
    split; [|split].
    + intros i d Hd. apply list_lookup_fmap_Some in Hd as ([d' t] & -> & Hp).
      specialize (Hall i _ Hp). cbn [Nat.add] in Hall.
      apply rbind_ok in Hall as (d & Hd & Hall). apply rbind_ok in Hall as (t' & Ht & Hall).
      injection Hall as -> ->. apply np_load_ok, Hd.
    + intros i t Ht. apply list_lookup_fmap_Some in Ht as ([d t'] & -> & Hp).
      specialize (Hall i _ Hp). cbn [Nat.add] in Hall.
      apply rbind_ok in Hall as (d' & Hd & Hall). apply rbind_ok in Hall as (t & Ht & Hall).
      injection Hall as -> ->. apply np_load_ok, Ht.
    + repeat (split; [reflexivity|]). split; [apply list_index_xyz, Hdm|].
      repeat (split; [reflexivity|]). apply check_properties_consistent, Hc.
  - intros (info & Hinfo & Hobj & Hs & Hn & Hld & Hlt & Hd & Ht & Hdir & Hmeth & Hdm
            & Hi & Htb & Hsb & Hc).
    unfold path_exists. rewrite Hinfo.
    rewrite (bool_decide_eq_true_2 (is_Some (Some _))) by eauto.
    rewrite orb_true_r. cbn [negb].
    apply json_load_ok in Hinfo. rewrite Hinfo. cbn [rbind].
    rewrite (bool_decide_eq_true_2 _ Hobj). cbn [negb].
    apply np_load_ok in Hs. rewrite Hs. cbn [rbind].
    assert (Hsegs : for_each
              (fun segment_index =>
                 let* d := np_load fs (path_join folder (displacement_file segment_index)) in
                 let* t := np_load fs (path_join folder (temporal_bins_file segment_index)) in
                 Ok (d, t))
              (py_range (info_num_segments info))
            = Ok (zip (displacement m) (temporal_bins_s m))).
    { apply for_each_seq_spec. split.
      - rewrite length_zip_with. lia.
      - intros i [d t] Hp. apply lookup_zip_with_Some in Hp as (d' & t' & E & Hd' & Ht').
        injection E as -> ->. cbn [Nat.add].
        apply Hd, np_load_ok in Hd'. apply Ht, np_load_ok in Ht'.
        rewrite Hd', Ht'. reflexivity. }
    rewrite Hsegs. cbn [rbind].
    rewrite fst_zip, snd_zip by lia.
    unfold Motion_init. rewrite <- Hdir. apply list_index_xyz in Hdm. rewrite Hdm.
    cbn [rbind].
    assert (E : mk_Motion (displacement m) (temporal_bins_s m) (spatial_bins_um m)
                  (length (displacement m)) None (info_interpolation_method info)
                  (direction m) (dim m) None None = m).
    { destruct m. cbn in *. congruence. }
    rewrite E. apply check_properties_consistent in Hc. rewrite Hc. reflexivity.
Qed.

(** X13: [load] raises [IOError] exactly when the metadata path does not
    exist or the metadata is a JSON file whose ["object"] is missing or
    is not ["Motion"]; the message names the folder.  The result of [load]
    depends only on whether the metadata path exists and on the files of
    the folder. *)
Theorem Motion_load_errors (folder : string) (fs : filesystem) :
  let info_file := path_join folder "spikeinterface_info.json" in
  (forall msg,
     Motion_load folder fs = Raise (IOError msg) <->
     msg = "Motion.load(folder): the folder " +:+ folder +:+
           " does not contain a Motion object." /\
     (path_exists fs info_file = false \/
      exists info, files fs !! info_file = Some (JsonFile info) /\
                   info_object info <> Some "Motion")) /\
  (forall fs2,
     path_exists fs2 info_file = path_exists fs info_file ->
     (forall name, files fs2 !! path_join folder name = files fs !! path_join folder name) ->
     Motion_load folder fs2 = Motion_load folder fs).
Proof.
  intros info_file. split.
  - intros msg. unfold Motion_load. fold info_file.
    destruct (path_exists fs info_file) eqn:Hex; cbn [negb].
    2:{ split; [intros [= <-]; split; [reflexivity|left; reflexivity]|].
        intros [-> _]. reflexivity. }
    unfold json_load.
    destruct (files fs !! info_file) as [[info|a]|] eqn:Hf; cbn [rbind].
    + destruct (bool_decide (info_object info = Some "Motion")) eqn:Hobj; cbn [negb].
      * apply bool_decide_eq_true_1 in Hobj. split.
        -- intros H. exfalso.
           destruct (np_load fs _) as [s|e] eqn:Es; cbn [rbind] in H.
           2:{ unfold np_load in Es.
               destruct (files fs !! path_join folder "spatial_bins_um.npy") as [[|]|];
                 congruence. }
           destruct (for_each _ _) as [segs|e] eqn:Ef; cbn [rbind] in H.
           2:{ assert (Hne : forall msg', e <> IOError msg'); [|congruence].
               clear H. revert e Ef. generalize (py_range (info_num_segments info)).
               intros l. induction l as [|i l IH]; intros e Ef msg'; cbn in Ef;
                 [discriminate|].
               unfold np_load in Ef at 1 2.
               destruct (files fs !! path_join folder (displacement_file i))
                 as [[|]|]; cbn [rbind] in Ef; try congruence.
               destruct (files fs !! path_join folder (temporal_bins_file i))
                 as [[|]|]; cbn [rbind] in Ef; try congruence.
               destruct (for_each _ l) as [|e'] eqn:El; cbn [rbind] in Ef; [discriminate|].
               injection Ef as <-. apply (IH e' eq_refl). }
           unfold Motion_init in H.
           destruct (list_index _ _) as [dm|e] eqn:Ei; cbn [rbind] in H.
           2:{ cbn [list_index] in Ei.
               repeat (destruct (String.eqb _ _); [discriminate|]). cbn in Ei.
               congruence. }
           destruct (check_properties _) as [[]|e] eqn:Ec; cbn [rbind] in H;
             [discriminate|].
           apply check_properties_error in Ec. congruence.
        -- intros [_ [H|(info' & H & Hne)]]; [discriminate|]. congruence.
      * apply bool_decide_eq_false_1 in Hobj. split.
        -- intros [= <-]. split; [reflexivity|]. right. eauto.
        -- intros [-> _]. reflexivity.
    + split; [discriminate|]. intros [_ [H|(info' & H & _)]]; discriminate.
    + split; [discriminate|]. intros [_ [H|(info' & H & _)]]; discriminate.
  - intros fs2 Hex Hfiles. unfold Motion_load. fold info_file. rewrite Hex.
    unfold json_load, np_load. unfold info_file. rewrite !Hfiles.
    destruct (negb _); [reflexivity|].
    destruct (files fs !! _) as [[info|]|]; cbn [rbind]; try reflexivity.
    destruct (negb _); [reflexivity|].
    destruct (files fs !! _) as [[|s]|]; cbn [rbind]; try reflexivity.
    rewrite (for_each_ext _
               (fun segment_index =>
                  let* d := match files fs !! path_join folder (displacement_file segment_index) with
                            | Some (NpyFile a) => Ok a
                            | Some (JsonFile _) =>
                                Raise (ValueError "Cannot load file containing pickled data")
                            | None => Raise FileNotFoundError
                            end in
                  let* t := match files fs !! path_join folder (temporal_bins_file segment_index) with
                            | Some (NpyFile a) => Ok a
                            | Some (JsonFile _) =>
                                Raise (ValueError "Cannot load file containing pickled data")
                            | None => Raise FileNotFoundError
                            end in
                  Ok (d, t)) (py_range (info_num_segments info))).
    + reflexivity.
    + intros i _. rewrite !Hfiles. reflexivity.
Qed.

(** * Copies and in-place writes *)

(** The store after [copy]: three new objects, the old ones unchanged. *)
Lemma copy_structure (h : gmap Heap.addr Heap.object) (self : Heap.motion) (v : Motion) :
  Heap.read h self = Ok v ->
  check_properties v = Ok tt ->
  exists h' c ds ts s,
    Heap.copy h self = (h', Ok c) /\
    h !! Heap.displacement self = Some (Heap.PyList ds) /\
    h !! Heap.temporal_bins_s self = Some (Heap.PyList ts) /\
    h !! Heap.spatial_bins_um self = Some (Heap.Array s) /\
    h !! Heap.spatial_bins_um c = None /\
    h' !! Heap.displacement c = Some (Heap.PyList ds) /\
    h' !! Heap.temporal_bins_s c = Some (Heap.PyList ts) /\
    h' !! Heap.spatial_bins_um c = Some (Heap.Array s) /\
    (forall a, is_Some (h !! a) -> h' !! a = h !! a) /\
    Heap.num_segments c = length ds /\
    Heap.interpolation_method c = Heap.interpolation_method self /\
    Heap.direction c = "y" /\ Heap.dim c = 1%nat.
Proof.
  intros Hread Hcheck. unfold Heap.read in Hread.
  apply rbind_ok in Hread as (dsv & Hdsv & Hread).
  apply rbind_ok in Hread as (tsv & Htsv & Hread).
  apply rbind_ok in Hread as (s & Hs & Hread). injection Hread as <-.
  unfold Heap.get_arrays in Hdsv, Htsv.
  apply rbind_ok in Hdsv as (ds & Hds & Hdsv). apply rbind_ok in Htsv as (ts & Hts & Htsv).
  assert (Ed : h !! Heap.displacement self = Some (Heap.PyList ds)).
  { unfold Heap.get_list in Hds. destruct (h !! _) as [[| |]|]; congruence. }
  assert (Et : h !! Heap.temporal_bins_s self = Some (Heap.PyList ts)).
  { unfold Heap.get_list in Hts. destruct (h !! _) as [[| |]|]; congruence. }
  assert (Es : h !! Heap.spatial_bins_um self = Some (Heap.Array s)).
  { unfold Heap.get_array in Hs. destruct (h !! _) as [[| |]|]; congruence. }
  unfold Heap.copy. rewrite Hds.
  destruct (Heap.alloc h (Heap.PyList ds)) as [d h1] eqn:A1.
  apply alloc_spec in A1 as (Hd0 & Hd1 & Hd2).
  assert (Hts1 : Heap.get_list h1 (Heap.temporal_bins_s self) = Ok ts).
  { unfold Heap.get_list. rewrite Hd2, Et; [reflexivity|congruence]. }
  rewrite Hts1.
  destruct (Heap.alloc h1 (Heap.PyList ts)) as [t h2] eqn:A2.
  apply alloc_spec in A2 as (Ht0 & Ht1 & Ht2).
  assert (Hdt : d <> t) by congruence.
  assert (Hs2 : Heap.get_array h2 (Heap.spatial_bins_um self) = Ok s).
  { assert (Heap.spatial_bins_um self <> d) by congruence.
    assert (Heap.spatial_bins_um self <> t).
    { intros E. rewrite <- E, Hd2, Es in Ht0 by assumption. discriminate. }
    unfold Heap.get_array. rewrite Ht2, Hd2, Es by assumption. reflexivity. }
  rewrite Hs2.
  destruct (Heap.alloc h2 (Heap.Array s)) as [s' h3] eqn:A3.
  apply alloc_spec in A3 as (Hs0 & Hs1 & Hs2').
  assert (Hds' : d <> s').
  { intros E. rewrite <- E, Ht2, Hd1 in Hs0 by assumption. discriminate. }
  assert (Hts' : t <> s') by congruence.
  assert (Hframe : forall a, is_Some (h !! a) -> h3 !! a = h !! a).
  { intros a [o Ho].
    assert (a <> d) by congruence.
    assert (a <> t) by (intros ->; rewrite Hd2, Ho in Ht0 by assumption; discriminate).
    assert (a <> s') by (intros ->; rewrite Ht2, Hd2, Ho in Hs0 by assumption; discriminate).
    rewrite Hs2', Ht2, Hd2; auto. }
  assert (H3d : h3 !! d = Some (Heap.PyList ds)) by (rewrite Hs2', Ht2; auto).
  assert (H3t : h3 !! t = Some (Heap.PyList ts)) by (rewrite Hs2'; auto).
  unfold Heap.init. rewrite H3d. cbn [rbind fst snd]. rewrite Hs1. cbn [rbind].
  unfold Heap.get_sequence at 1. rewrite H3d. cbn [rbind list_index String.eqb Ascii.eqb Bool.eqb].
  set (c := Heap.mk_motion d t s' (length ds) (Heap.interpolation_method self) "y" 1).
  assert (Hr : Heap.values h3 c
               = Ok (mk_Motion dsv tsv s (length ds) None
                       (Heap.interpolation_method self) "y" 1 None None)).
  { unfold Heap.values, Heap.get_sequence_arrays, Heap.get_sequence.
    cbn [c Heap.displacement Heap.temporal_bins_s Heap.spatial_bins_um
         Heap.num_segments Heap.interpolation_method Heap.direction Heap.dim].
    rewrite H3d, H3t. cbn [rbind].
    rewrite (for_each_ext (Heap.get_array h3) (Heap.get_array h) ds), Hdsv.
    2:{ intros a Ha. unfold Heap.get_array. rewrite Hframe; [reflexivity|].
        exact (for_each_get_array_allocated h ds dsv a Hdsv Ha). }
    cbn [rbind].
    rewrite (for_each_ext (Heap.get_array h3) (Heap.get_array h) ts), Htsv.
    2:{ intros a Ha. unfold Heap.get_array. rewrite Hframe; [reflexivity|].
        exact (for_each_get_array_allocated h ts tsv a Htsv Ha). }
    cbn [rbind]. unfold Heap.get_array. rewrite Hs1. reflexivity. }
  rewrite Hr. cbn [rbind].
  erewrite check_properties_attributes; [rewrite Hcheck| | |]; try reflexivity.
  cbn [rbind].
  exists h3, c, ds, ts, s. split; [reflexivity|].
  cbn [c Heap.displacement Heap.temporal_bins_s Heap.spatial_bins_um
       Heap.interpolation_method Heap.direction Heap.num_segments Heap.dim].
  repeat split; try assumption.
  rewrite <- (Hd2 s'), <- (Ht2 s'), Hs0 by congruence. reflexivity.
Qed.

Lemma get_array_ok (h : gmap Heap.addr Heap.object) a v :
  Heap.get_array h a = Ok v <-> h !! a = Some (Heap.Array v).
Proof.
  unfold Heap.get_array. destruct (h !! a) as [[| |]|]; split; congruence.
Qed.

Lemma get_list_ok (h : gmap Heap.addr Heap.object) a l :
  Heap.get_list h a = Ok l <-> h !! a = Some (Heap.PyList l).
Proof.
  unfold Heap.get_list. destruct (h !! a) as [[| |]|]; split; congruence.
Qed.

Lemma for_each_get_array_write (h : gmap Heap.addr Heap.object) l vs a arr' :
  for_each (Heap.get_array h) l = Ok vs ->
  for_each (Heap.get_array (<[a := Heap.Array arr']> h)) l
  = Ok (zip_with (fun b v => if decide (b = a) then arr' else v) l vs).
Proof.
  revert vs. induction l as [|b l IH]; intros vs H; cbn in H.
  - injection H as <-. reflexivity.
  - apply rbind_ok in H as (v & Hv & H). apply rbind_ok in H as (vs' & Hvs & H).
    injection H as <-. cbn [for_each zip_with]. rewrite (IH vs' Hvs).
    unfold Heap.get_array at 1. destruct (decide (b = a)) as [->|Hne].
    + rewrite lookup_insert_eq. reflexivity.
    + rewrite lookup_insert_ne by congruence. apply get_array_ok in Hv. rewrite Hv.
      reflexivity.
Qed.

Lemma array_setitem_ok (h : gmap Heap.addr Heap.object) a i x h'' :
  Heap.array_setitem h a i x = (h'', Ok tt) ->
  exists arr, h !! a = Some (Heap.Array arr) /\ (i < length (data arr))%nat /\
              h'' = <[a := Heap.Array (mk_ndarray (shape arr) (<[i := x]> (data arr)))]> h.
Proof.
  unfold Heap.array_setitem. destruct (h !! a) as [[arr| |]|]; try congruence.
  destruct (Nat.ltb_spec i (length (data arr))); [|congruence].
  intros [= <-]. eauto.
Qed.

(** X14: the copy and the original read the same segment arrays, now and
    after every in-place write to an array of the store: a value written
    into a displacement array of the original is read through the copy.
    The spatial bins are the copy's own: a write to the original's is not
    seen by the copy.  The copy's segment count is the length of the
    displacement list and its direction is ["y"], whatever the
    original's. *)
Theorem copy_write_through (h : gmap Heap.addr Heap.object) (self : Heap.motion)
    (v : Motion) :
  Heap.read h self = Ok v ->
  check_properties v = Ok tt ->
  exists h' c,
    Heap.copy h self = (h', Ok c) /\
    Heap.read h' self = Ok v /\
    Heap.read h' c
    = Ok (mk_Motion (displacement v) (temporal_bins_s v) (spatial_bins_um v)
            (length (displacement v)) None (interpolation_method v) "y" 1 None None) /\
    (forall a i x h'',
       Heap.array_setitem h' a i x = (h'', Ok tt) ->
       Heap.get_arrays h'' (Heap.displacement c)
       = Heap.get_arrays h'' (Heap.displacement self) /\
       Heap.get_arrays h'' (Heap.temporal_bins_s c)
       = Heap.get_arrays h'' (Heap.temporal_bins_s self)) /\
    (forall ds j a arr i x,
       Heap.get_list h (Heap.displacement self) = Ok ds -> ds !! j = Some a ->
       h !! a = Some (Heap.Array arr) -> (i < length (data arr))%nat ->
       exists h'' dv,
         Heap.array_setitem h' a i x = (h'', Ok tt) /\
         Heap.get_arrays h'' (Heap.displacement c) = Ok dv /\
         dv !! j = Some (mk_ndarray (shape arr) (<[i := x]> (data arr)))) /\
    (forall i x h'',
       Heap.array_setitem h' (Heap.spatial_bins_um self) i x = (h'', Ok tt) ->
       Heap.get_array h'' (Heap.spatial_bins_um c) = Ok (spatial_bins_um v) /\
       exists s', Heap.get_array h'' (Heap.spatial_bins_um self) = Ok s' /\
                  data s' = <[i := x]> (data (spatial_bins_um v))).
Proof.
  intros Hread Hcheck.
  destruct (copy_structure h self v Hread Hcheck)
    as (h' & c & ds & ts & s & Hcopy & Ed & Et & Es & Hs0 & Hd' & Ht' & Hs' & Hframe
        & Hn & Hm & Hdir & Hdim).
  unfold Heap.read in Hread.
  apply rbind_ok in Hread as (dsv & Hdsv & Hread).
  apply rbind_ok in Hread as (tsv & Htsv & Hread).
  apply rbind_ok in Hread as (s0 & Hs & Hread). injection Hread as <-.
  apply get_array_ok in Hs. assert (s0 = s) as -> by congruence.
  unfold Heap.get_arrays in Hdsv, Htsv.
  apply rbind_ok in Hdsv as (ds0 & Hds & Hdsv). apply rbind_ok in Htsv as (ts0 & Hts & Htsv).
  apply get_list_ok in Hds, Hts.
  assert (ds0 = ds) as -> by congruence. assert (ts0 = ts) as -> by congruence.
  assert (Hself_d : h' !! Heap.displacement self = Some (Heap.PyList ds))
    by (rewrite Hframe; eauto).
  assert (Hself_t : h' !! Heap.temporal_bins_s self = Some (Heap.PyList ts))
    by (rewrite Hframe; eauto).
  assert (Hself_s : h' !! Heap.spatial_bins_um self = Some (Heap.Array s))
    by (rewrite Hframe; eauto).
  assert (Hdsv' : for_each (Heap.get_array h') ds = Ok dsv).
  { rewrite <- Hdsv. apply for_each_ext. intros a Ha. unfold Heap.get_array.
    rewrite Hframe; [reflexivity|].
    exact (for_each_get_array_allocated h ds dsv a Hdsv Ha). }
  assert (Htsv' : for_each (Heap.get_array h') ts = Ok tsv).
  { rewrite <- Htsv. apply for_each_ext. intros a Ha. unfold Heap.get_array.
    rewrite Hframe; [reflexivity|].
    exact (for_each_get_array_allocated h ts tsv a Htsv Ha). }
  cbn [displacement temporal_bins_s spatial_bins_um interpolation_method].
  exists h', c. split; [exact Hcopy|]. split; [|split; [|split; [|split]]].
  - unfold Heap.read, Heap.get_arrays, Heap.get_list.
    rewrite Hself_d, Hself_t. cbn [rbind]. rewrite Hdsv', Htsv'. cbn [rbind].
    rewrite (proj2 (get_array_ok _ _ _) Hself_s). reflexivity.
  - unfold Heap.read, Heap.get_arrays, Heap.get_list.
    rewrite Hd', Ht'. cbn [rbind]. rewrite Hdsv', Htsv'. cbn [rbind].
    rewrite (proj2 (get_array_ok _ _ _) Hs'). cbn [rbind].
    rewrite Hn, Hm, Hdir, Hdim. rewrite (for_each_length _ _ _ Hdsv). reflexivity.
  - intros a i x h'' Hw. apply array_setitem_ok in Hw as (arr & Ha & _ & ->).
    unfold Heap.get_arrays, Heap.get_list.
    rewrite !lookup_insert_ne by congruence.
    rewrite Hd', Ht', Hself_d, Hself_t. split; reflexivity.
  - intros ds1 j a arr i x Hds1 Hj Ha Hi.
    apply get_list_ok in Hds1. assert (ds1 = ds) as -> by congruence.
    assert (Ha' : h' !! a = Some (Heap.Array arr)) by (rewrite Hframe; eauto).
    eexists _, _. split; [|split].
    + unfold Heap.array_setitem. rewrite Ha'.
      destruct (Nat.ltb_spec i (length (data arr))); [reflexivity|lia].
    + unfold Heap.get_arrays, Heap.get_list.
      rewrite lookup_insert_ne by congruence. rewrite Hd'. cbn [rbind].
      apply for_each_get_array_write, Hdsv'.
    + destruct (for_each_lookup _ _ _ j a Hdsv' Hj) as (w & Hw & _).
      rewrite lookup_zip_with, Hj, Hw. cbn. rewrite decide_True by reflexivity.
      reflexivity.
  - intros i x h'' Hw. apply array_setitem_ok in Hw as (arr & Ha & _ & ->).
    assert (arr = s) as -> by congruence.
    assert (Hne : Heap.spatial_bins_um c <> Heap.spatial_bins_um self) by congruence.
    split.
    + apply get_array_ok. rewrite lookup_insert_ne by congruence. exact Hs'.
    + eexists. split; [apply get_array_ok, lookup_insert_eq|reflexivity].
Qed.

Lemma copy_write_through_witness :
  Heap.read example_heap example_object
  = Ok (mk_Motion [mk_ndarray [1; 1]%nat [0%Q]] [arr1 [0%Q]] (arr1 [0%Q]) 1 None
          "linear" "x" 0 None None) /\
  exists h' c,
    Heap.copy example_heap example_object = (h', Ok c) /\
    Heap.read h' example_object
    = Ok (mk_Motion [mk_ndarray [1; 1]%nat [0%Q]] [arr1 [0%Q]] (arr1 [0%Q]) 1 None
            "linear" "x" 0 None None).
Proof.
  split; [reflexivity|].
  destruct (copy_write_through example_heap example_object _ eq_refl eq_refl)
    as (h' & c & Hc & Hr & _).
  exists h', c. split; [exact Hc|exact Hr].
Defined.

(** * Windows: shapes, thresholding, domains *)

Lemma bin_centers_of_length_pred edges :
  length (bin_centers_of edges) = Nat.pred (length edges).
Proof.
  unfold bin_centers_of. rewrite length_zip_with, removelast_length_pred.
  destruct edges; cbn; lia.
Qed.

Lemma one_window_length np_exp shape bc sigma c w :
  one_window np_exp shape bc sigma c = Ok w -> length w = length bc.
Proof.
  destruct shape; cbn [one_window].
  - intros [= <-]. apply length_map.
  - intros [= <-]. apply length_map.
  - unfold triangle_window. intros H.
    apply rbind_ok in H as (lo & _ & H). apply rbind_ok in H as (hi & _ & H).
    injection H as <-. rewrite !length_zip_with, !length_map. lia.
  - discriminate.
Qed.

Lemma for_each_Forall {A B} (f : A -> result B) (P : B -> Prop) l ys :
  (forall x y, x ∈ l -> f x = Ok y -> P y) ->
  for_each f l = Ok ys -> Forall P ys.
Proof.
  revert ys. induction l as [|a l IH]; intros ys Hf H; cbn in H.
  - injection H as <-. constructor.
  - apply rbind_ok in H as (y & Hy & H). apply rbind_ok in H as (ys' & Hys & H).
    injection H as <-. constructor.
    + apply (Hf a y); [left|exact Hy].
    + apply IH; [|exact Hys]. intros x z Hx. apply Hf. right. exact Hx.
Qed.

(** The thresholding of lines 311-313 applied to the result without
    threshold. *)
Lemma get_windows_thresholded np_exp rigid contact_pos edges margin step sigma
    shape thr :
  (get_windows np_exp rigid contact_pos edges margin step sigma shape thr).2 =
  let* r := (get_windows np_exp rigid contact_pos edges margin step sigma shape None).2 in
  let* windows := threshold_and_normalize r.1 thr in
  Ok (windows, r.2).
Proof.
  unfold get_windows. destruct rigid; cbn [snd].
  - destruct (py_getitem edges 0); [|reflexivity]. cbn [rbind].
    destruct (py_getitem edges (-1)); reflexivity.
  - destruct (np_min _); [|reflexivity]. cbn [rbind].
    destruct (np_max _); [|reflexivity]. cbn [rbind].
    destruct (num_windows_of _ _); [|reflexivity]. cbn [rbind].
    destruct (for_each _ _); reflexivity.
Qed.

Lemma get_windows_warnings np_exp rigid contact_pos edges margin step sigma shape thr :
  (get_windows np_exp rigid contact_pos edges margin step sigma shape thr).1 =
  (get_windows np_exp rigid contact_pos edges margin step sigma shape None).1.
Proof. unfold get_windows. destruct rigid; reflexivity. Qed.

(** X15: whatever [get_windows] returns, for every shape of window and
    with or without threshold, is one window per centre, and each window
    has one weight per spatial bin, that is one less than there are bin
    edges. *)
Theorem get_windows_shapes (np_exp : Q -> Q) (rigid : bool) (contact_pos : ndarray)
    (spatial_bin_edges : list Q) (margin_um win_step_um win_sigma_um : Q)
    (win_shape : win_shape_t) (zero_threshold : option Q)
    (windows : list (list Q)) (window_centers : list Q) :
  (get_windows np_exp rigid contact_pos spatial_bin_edges margin_um win_step_um
     win_sigma_um win_shape zero_threshold).2 = Ok (windows, window_centers) ->
  length windows = length window_centers /\
  Forall (fun w => length w = (length spatial_bin_edges - 1)%nat) windows.
Proof.
  rewrite get_windows_thresholded. intros H.
  apply rbind_ok in H as ([ws cs] & H0 & H). apply rbind_ok in H as (ws' & Hthr & H).
  injection H as <- <-. cbn [fst snd] in *.
  assert (H1 : length ws = length cs /\
               Forall (fun w => length w = (length spatial_bin_edges - 1)%nat) ws).
  { clear Hthr. unfold get_windows in H0. destruct rigid; cbn [snd] in H0.
    - apply rbind_ok in H0 as (e0 & _ & H0). apply rbind_ok in H0 as (e1 & _ & H0).
      cbn in H0. injection H0 as <- <-. split; [reflexivity|].
      constructor; [|constructor].
      rewrite repeat_length, bin_centers_of_length_pred. lia.
    - apply rbind_ok in H0 as (lo & _ & H0). apply rbind_ok in H0 as (hi & _ & H0).
      apply rbind_ok in H0 as (k & _ & H0). apply rbind_ok in H0 as (ws0 & Hws & H0).
      cbn in H0. injection H0 as <- <-. split; [apply (for_each_length _ _ _ Hws)|].
      eapply for_each_Forall; [|exact Hws]. intros c w _ Hw.
      rewrite (one_window_length _ _ _ _ _ _ Hw), bin_centers_of_length_pred. lia. }
  destruct H1 as [Hl Hall].
  apply threshold_and_normalize_length in Hthr as [Hl' Hrows]. split; [congruence|].
  apply Forall_lookup. intros i w' Hw'.
  destruct (lookup_lt_is_Some_2 ws i) as [w Hw].
  { rewrite <- Hl'. apply lookup_lt_Some in Hw'. exact Hw'. }
  rewrite (Hrows i w w' Hw Hw'). rewrite Forall_lookup in Hall. apply (Hall i w Hw).
Qed.

Lemma get_windows_shapes_witness :
  exists windows window_centers,
    (get_windows (fun _ => 1%Q) false (mk_ndarray [2; 2]%nat [0; 0; 0; 10]%Q)
       [0; 5; 10]%Q 1 5 6 rect None).2 = Ok (windows, window_centers) /\
    length windows = 3%nat /\
    length windows = length window_centers /\
    Forall (fun w => length w = (length [0; 5; 10]%Q - 1)%nat) windows.
Proof.
  assert (H : { r | (get_windows (fun _ => 1%Q) false
                       (mk_ndarray [2; 2]%nat [0; 0; 0; 10]%Q)
                       [0; 5; 10]%Q 1 5 6 rect None).2 = Ok r }).
  { eexists. vm_compute. reflexivity. }
  destruct H as [[windows window_centers] H].
  exists windows, window_centers. split; [exact H|].
  split; [revert H; vm_compute; intros [= <- <-]; reflexivity|].
  exact (get_windows_shapes _ _ _ _ _ _ _ _ _ _ _ H).
Defined.

Lemma Qsum_scale (l : list Q) (s : Q) :
  (Qsum (map (fun x => x / s) l) == Qsum l / s)%Q.
Proof.
  induction l as [|x l IH].
  - unfold Qsum, Qdiv. cbn [map fold_right]. ring.
  - change (x / s + Qsum (map (fun x => x / s) l) == (x + Qsum l) / s)%Q.
    rewrite IH. unfold Qdiv. ring.
Qed.

(** X16: a [zero_threshold] keeps the centres and the warnings of the call
    without threshold; in each window whose weights at or above the
    threshold do not sum to zero, the weights below the threshold become
    zero, all weights are divided by the sum of those kept, and the window
    sums to one.  When the call without threshold returns no window at
    all, the call with a threshold raises [AxisError]. *)
Theorem get_windows_threshold (np_exp : Q -> Q) (rigid : bool) (contact_pos : ndarray)
    (spatial_bin_edges : list Q) (margin_um win_step_um win_sigma_um : Q)
    (win_shape : win_shape_t) (thr : Q)
    (windows0 : list (list Q)) (window_centers : list Q) :
  (get_windows np_exp rigid contact_pos spatial_bin_edges margin_um win_step_um
     win_sigma_um win_shape None).2 = Ok (windows0, window_centers) ->
  let call := get_windows np_exp rigid contact_pos spatial_bin_edges margin_um
                win_step_um win_sigma_um win_shape (Some thr) in
  call.1 = (get_windows np_exp rigid contact_pos spatial_bin_edges margin_um
              win_step_um win_sigma_um win_shape None).1 /\
  (windows0 = [] -> call.2 = Raise AxisError) /\
  (windows0 <> [] ->
   exists windows,
     call.2 = Ok (windows, window_centers) /\
     Forall2 (fun w0 w =>
                let kept := map (fun x => if Qltb x thr then 0 else x)%Q w0 in
                ~ (Qsum kept == 0)%Q ->
                w = map (fun x => x / Qsum kept)%Q kept /\ (Qsum w == 1)%Q)
       windows0 windows).
Proof.
  intros H0 call. subst call. split; [apply get_windows_warnings|].
  rewrite get_windows_thresholded, H0. cbn [rbind fst snd threshold_and_normalize].
  split.
  - intros ->. reflexivity.
  - intros Hne. destruct windows0 as [|w0 ws0]; [contradiction|]. cbn [map].
    eexists. split; [reflexivity|].
    change (Forall2
              (fun w1 w =>
                 let kept := map (fun x => if Qltb x thr then 0%Q else x) w1 in
                 ~ (Qsum kept == 0)%Q ->
                 w = map (fun x => (x / Qsum kept)%Q) kept /\ (Qsum w == 1)%Q)
              (w0 :: ws0)
              (map (fun row => map (fun w => (w / Qsum row)%Q) row)
                 (map (map (fun w => if Qltb w thr then 0%Q else w)) (w0 :: ws0)))).
    generalize (w0 :: ws0). intros ws. induction ws as [|w ws IH]; cbn [map].
    + constructor.
    + constructor; [|exact IH]. cbv zeta. intros Hs. split; [reflexivity|].
      rewrite Qsum_scale. field. exact Hs.
Qed.

Lemma get_windows_threshold_witness :
  (get_windows (fun _ => 1%Q) true (arr1 []) [0; 1; 2]%Q 0 1 1 gaussian None).2
  = Ok ([[1; 1]], [2 # 2])%Q /\
  (get_windows (fun _ => 1%Q) true (arr1 []) [0; 1; 2]%Q 0 1 1 gaussian
     (Some (1 # 2))).1
  = (get_windows (fun _ => 1%Q) true (arr1 []) [0; 1; 2]%Q 0 1 1 gaussian None).1.
Proof.
  assert (H : (get_windows (fun _ => 1%Q) true (arr1 []) [0; 1; 2]%Q 0 1 1 gaussian
                 None).2 = Ok ([[1; 1]], [2 # 2])%Q) by reflexivity.
  split; [exact H|].
  exact (proj1 (get_windows_threshold _ _ _ _ _ _ _ _ (1 # 2) _ _ H)).
Defined.

Lemma flatnonzero_from_ones i k : flatnonzero_from i (repeat 1%Q k) = seq i k.
Proof.
  revert i. induction k as [|k IH]; intros i; [reflexivity|].
  cbn [repeat flatnonzero_from seq]. change (Qnonzero 1) with true. cbn.
  rewrite IH. reflexivity.
Qed.

(** X17: the single window of a rigid call without threshold covers all
    bins: on [n + 2] bin edges [get_window_domains] of the windows returned
    is the one slice [0 : n + 1].  On a single bin edge the window is empty
    and [get_window_domains] raises [IndexError]. *)
Theorem rigid_window_domain (np_exp : Q -> Q) (contact_pos : ndarray)
    (spatial_bin_edges : list Q) (margin_um win_step_um win_sigma_um : Q)
    (win_shape : win_shape_t) :
  let call := get_windows np_exp true contact_pos spatial_bin_edges margin_um
                win_step_um win_sigma_um win_shape None in
  (forall n, length spatial_bin_edges = S (S n) ->
     exists windows window_centers,
       call = ([], Ok (windows, window_centers)) /\
       get_window_domains windows = Ok [mk_slice 0 (S n)]) /\
  (length spatial_bin_edges = 1%nat ->
     exists windows window_centers,
       call = ([], Ok (windows, window_centers)) /\
       get_window_domains windows = Raise IndexError).
Proof.
  intros call. subst call. unfold get_windows.
  rewrite py_getitem_first, py_getitem_last, bin_centers_of_length_pred. split.
  - intros n Hlen. destruct spatial_bin_edges as [|e0 edges]; [discriminate|].
    destruct (last (e0 :: edges)) as [e1|] eqn:E1.
    2:{ apply last_None in E1. discriminate. }
    rewrite Hlen. cbn [rbind threshold_and_normalize Nat.pred].
    eexists _, _. split; [reflexivity|].
    unfold get_window_domains, window_domain, flatnonzero.
    cbn [for_each]. rewrite flatnonzero_from_ones.
    rewrite py_getitem_first, py_getitem_last, last_lookup, length_seq.
    cbn [Nat.pred]. rewrite lookup_seq_lt by lia. cbn [seq rbind Nat.add].
    replace (n + 1)%nat with (S n) by lia. reflexivity.
  - intros Hlen. destruct spatial_bin_edges as [|e0 [|? ?]]; try discriminate.
    cbn. eexists _, _. split; reflexivity.
Qed.

(** * Triangle windows *)

Lemma zip_with_map_mask {A B} (h : bool -> A -> B) (p : Q -> bool) (q : Q -> A) l :
  zip_with h (map p l) (map q l) = map (fun d => h (p d) (q d)) l.
Proof. induction l as [|d l IH]; cbn; [reflexivity|]. rewrite IH. reflexivity. Qed.

Lemma select_mask_map (p : Q -> bool) (q : Q -> Q) l :
  select_mask (map p l) (map q l) = map q (List.filter p l).
Proof.
  unfold select_mask. induction l as [|d l IH]; [reflexivity|].
  cbn. destruct (p d); cbn; [f_equal|]; exact IH.
Qed.

Lemma fold_min_spec l x :
  (fold_left np_minimum l x = x \/ fold_left np_minimum l x ∈ l) /\
  (fold_left np_minimum l x <= x)%Q /\
  Forall (fun y => fold_left np_minimum l x <= y)%Q l.
Proof.
  revert x. induction l as [|y l IH]; intros x; cbn [fold_left].
  - split; [left; reflexivity|]. split; [apply Qle_refl|constructor].
  - destruct (IH (np_minimum x y)) as (Hm & Hle & Hall).
    assert (Hxy : (np_minimum x y = x \/ np_minimum x y = y) /\
                  (np_minimum x y <= x)%Q /\ (np_minimum x y <= y)%Q).
    { unfold np_minimum. destruct (Qle_bool y x) eqn:E.
      - apply Qle_bool_iff in E. split; [right; reflexivity|].
        split; [exact E|apply Qle_refl].
      - split; [left; reflexivity|]. split; [apply Qle_refl|].
        apply Qlt_le_weak, Qnot_le_lt. intros H. apply Qle_bool_iff in H. congruence. }
    destruct Hxy as (Hsel & Hx & Hy). split; [|split].
    + destruct Hm as [Hm|Hm]; [|right; right; exact Hm].
      rewrite Hm. destruct Hsel as [->| ->]; [left; reflexivity|right; left].
    + eapply Qle_trans; eassumption.
    + constructor; [eapply Qle_trans; eassumption|exact Hall].
Qed.

Lemma fold_max_spec l x :
  (fold_left np_maximum l x = x \/ fold_left np_maximum l x ∈ l) /\
  (x <= fold_left np_maximum l x)%Q /\
  Forall (fun y => y <= fold_left np_maximum l x)%Q l.
Proof.
  revert x. induction l as [|y l IH]; intros x; cbn [fold_left].
  - split; [left; reflexivity|]. split; [apply Qle_refl|constructor].
  - destruct (IH (np_maximum x y)) as (Hm & Hle & Hall).
    assert (Hxy : (np_maximum x y = x \/ np_maximum x y = y) /\
                  (x <= np_maximum x y)%Q /\ (y <= np_maximum x y)%Q).
    { unfold np_maximum. destruct (Qle_bool x y) eqn:E.
      - apply Qle_bool_iff in E. split; [right; reflexivity|].
        split; [exact E|apply Qle_refl].
      - split; [left; reflexivity|]. split; [apply Qle_refl|].
        apply Qlt_le_weak, Qnot_le_lt. intros H. apply Qle_bool_iff in H. congruence. }
    destruct Hxy as (Hsel & Hx & Hy). split; [|split].
    + destruct Hm as [Hm|Hm]; [|right; right; exact Hm].
      rewrite Hm. destruct Hsel as [->| ->]; [left; reflexivity|right; left].
    + eapply Qle_trans; eassumption.
    + constructor; [eapply Qle_trans; eassumption|exact Hall].
Qed.

Lemma np_min_spec l m :
  np_min l = Ok m -> m ∈ l /\ Forall (fun y => m <= y)%Q l.
Proof.
  destruct l as [|x l]; [discriminate|]. cbn. intros [= <-].
  destruct (fold_min_spec l x) as (Hm & Hle & Hall). split.
  - destruct Hm as [-> | Hm]; [left|right; exact Hm].
  - constructor; assumption.
Qed.

Lemma np_max_spec l m :
  np_max l = Ok m -> m ∈ l /\ Forall (fun y => y <= m)%Q l.
Proof.
  destruct l as [|x l]; [discriminate|]. cbn. intros [= <-].
  destruct (fold_max_spec l x) as (Hm & Hle & Hall). split.
  - destruct Hm as [-> | Hm]; [left|right; exact Hm].
  - constructor; assumption.
Qed.

Lemma map_filter_ext {B} (p : Q -> bool) (f g : Q -> B) l :
  (forall d, p d = true -> f d = g d) ->
  map f (List.filter p l) = map g (List.filter p l).
Proof.
  intros H. induction l as [|d l IH]; [reflexivity|].
  cbn [List.filter]. destruct (p d) eqn:E; [|exact IH].
  cbn [map]. rewrite (H d E), IH. reflexivity.
Qed.

(** Lines 301-306 on the distances to the centre. *)
Lemma triangle_window_unfold bin_centers win_center win_sigma_um :
  triangle_window bin_centers win_center win_sigma_um =
  let ds := map (fun b => Qabs (b - win_center)) bin_centers in
  let p := fun d => Qle_bool d (win_sigma_um / 2) in
  let* lo := np_min (map Qopp (List.filter p ds)) in
  let* hi := np_max (map (fun d => - d - lo)%Q (List.filter p ds)) in
  Ok (map (fun d => if p d then ((- d - lo) / hi)%Q else 0%Q) ds).
Proof.
  unfold triangle_window. cbv zeta.
  set (ds := map (fun b => Qabs (b - win_center)) bin_centers).
  set (p := fun d => Qle_bool d (win_sigma_um / 2)).
  change (map (fun d => Qle_bool d (win_sigma_um / 2)) ds) with (map p ds).
  rewrite (zip_with_map_mask (fun (i : bool) w => if i then w else 0%Q) p Qopp ds).
  rewrite (select_mask_map p (fun d => if p d then (- d)%Q else 0%Q) ds).
  rewrite (map_filter_ext p (fun d => if p d then (- d)%Q else 0%Q) Qopp).
  2:{ intros d ->. reflexivity. }
  destruct (np_min _) as [lo|]; [|reflexivity]. cbn [rbind].
  rewrite (zip_with_map_mask (fun (i : bool) w => if i then (w - lo)%Q else w) p
             (fun d => if p d then (- d)%Q else 0%Q) ds).
  rewrite (select_mask_map p
             (fun d => if p d then ((if p d then - d else 0) - lo)%Q
                       else if p d then (- d)%Q else 0%Q) ds).
  rewrite (map_filter_ext p _ (fun d => (- d - lo)%Q)).
  2:{ intros d ->. reflexivity. }
  destruct (np_max _) as [hi|]; [|reflexivity]. cbn [rbind].
  rewrite (zip_with_map_mask (fun (i : bool) w => if i then (w / hi)%Q else w) p _ ds).
  f_equal. apply map_ext. intros d. unfold p.
  destruct (Qle_bool d (win_sigma_um / 2)); reflexivity.
Qed.


(** Five bins one unit apart, the centre on the middle bin and a width
    that reaches two bins to each side. *)
Example triangle_of_five_bins :
  exists w, triangle_window [0; 1; 2; 3; 4]%Q 2 4 = Ok w /\
            Forall2 Qeq w [0; 1 # 2; 1; 1 # 2; 0]%Q.
Proof.
  eexists. split; [vm_compute; reflexivity|].
  repeat constructor.
Qed.

(** * Rows of the correlation *)

Lemma assign_row_length len r r' : assign_row len r = Ok r' -> length r' = len.
Proof.
  unfold assign_row. destruct (Nat.eqb_spec (length r) len) as [E|E].
  - intros [= <-]. exact E.
  - destruct r as [|v [|? ?]]; try discriminate. intros [= <-]. apply repeat_length.
Qed.

Lemma row_of_concat_uniform (xs : list (list Q)) len i r :
  Forall (fun x => length x = len) xs -> xs !! i = Some r ->
  row_of len (concat xs) i = r.
Proof.
  intros Hall. revert i. induction Hall as [|x xs Hx Hall IH]; intros i Hi; [discriminate|].
  unfold row_of in *. change (concat (x :: xs)) with (x ++ concat xs).
  destruct i as [|i]; cbn [lookup list_lookup] in Hi.
  - injection Hi as ->. cbn [Nat.mul]. rewrite drop_0.
    rewrite take_app_length' by (symmetry; exact Hx). reflexivity.
  - replace (S i * len)%nat with (length x + i * len)%nat by lia.
    rewrite drop_app_add'; [|reflexivity]. apply IH, Hi.
Qed.

Lemma lookup_concat_uniform {A} (xss : list (list A)) len m j xs x :
  Forall (fun l => length l = len) xss ->
  xss !! m = Some xs -> xs !! j = Some x ->
  concat xss !! (m * len + j)%nat = Some x.
Proof.
  intros Hall. revert m. induction Hall as [|l xss Hl Hall IH]; intros m Hm Hj;
    [discriminate|].
  destruct m as [|m]; cbn in Hm |- *.
  - injection Hm as ->. rewrite lookup_app_l; [exact Hj|]. apply lookup_lt_Some in Hj.
    exact Hj.
  - rewrite lookup_app_r by lia.
    replace (len + m * len + j - length l)%nat with (m * len + j)%nat by lia.
    apply IH; assumption.
Qed.

Lemma row_of_pad_rows n len p buf m :
  length buf = (n * len)%nat -> (m < n)%nat ->
  row_of (len + 2 * p) (pad_rows n len p buf) m
  = repeat 0%Q p ++ row_of len buf m ++ repeat 0%Q p.
Proof.
  intros Hbuf Hm. unfold pad_rows. rewrite flat_map_concat_map.
  apply row_of_concat_uniform.
  - apply Forall_forall. intros x Hx. apply list_elem_of_fmap in Hx as (i & -> & Hi).
    apply elem_of_seq in Hi.
    rewrite !length_app, !repeat_length, (row_of_length len buf i n) by (assumption || lia).
    lia.
  - unfold py_range. rewrite list_lookup_fmap, lookup_seq_lt by exact Hm. reflexivity.
Qed.

(** The two loops of lines 349-351: entry [(m, c)] of the output. *)
Lemma conv_rows_lookup (F : nat -> nat -> result (list Q)) n c_out len_out rows :
  (forall m c r, F m c = Ok r -> length r = len_out) ->
  for_each (fun m => for_each (fun c => F m c) (py_range c_out)) (py_range n) = Ok rows ->
  length (concat (concat rows)) = (n * c_out * len_out)%nat /\
  forall m c, (m < n)%nat -> (c < c_out)%nat ->
    F m c = Ok (row_of len_out (concat (concat rows)) (m * c_out + c)).
Proof.
  intros HF Hrows. unfold py_range in Hrows.
  pose proof (proj1 (for_each_seq_spec _ _ _ _) Hrows) as [Hn Hall].
  assert (Hinner : Forall (fun l : list (list Q) => length l = c_out) rows).
  { apply Forall_lookup. intros m rowm Hm. specialize (Hall m rowm Hm).
    apply for_each_length in Hall. rewrite length_seq in Hall. exact Hall. }
  assert (Hlen : Forall (fun r : list Q => length r = len_out) (concat rows)).
  { apply Forall_forall. intros r Hr. rewrite list_elem_of_In in Hr.
    apply in_concat in Hr as (rowm & Hrowm & Hr).
    apply list_elem_of_In in Hrowm. apply list_elem_of_In in Hr.
    apply list_elem_of_lookup in Hrowm as [m Hm]. apply list_elem_of_lookup in Hr as [c Hc].
    specialize (Hall m rowm Hm). cbn [Nat.add] in Hall.
    assert (Hc' : (c < c_out)%nat).
    { apply lookup_lt_Some in Hc. apply for_each_length in Hall.
      rewrite length_seq in Hall. lia. }
    destruct (for_each_lookup _ _ _ c c Hall) as (r' & Hr' & HFr).
    { apply lookup_seq_lt. exact Hc'. }
    assert (r' = r) as -> by congruence. exact (HF m c r HFr). }
  split.
  - rewrite (length_concat_uniform _ len_out Hlen), (length_concat_uniform _ c_out Hinner).
    rewrite Hn. reflexivity.
  - intros m c Hm Hc.
    destruct (lookup_lt_is_Some_2 rows m) as [rowm Hrowm]; [lia|].
    specialize (Hall m rowm Hrowm). cbn [Nat.add] in Hall.
    destruct (for_each_lookup _ _ _ c c Hall) as (r & Hr & HFr).
    { apply lookup_seq_lt. exact Hc. }
    rewrite HFr. f_equal. symmetry. apply row_of_concat_uniform; [exact Hlen|].
    apply (lookup_concat_uniform rows c_out m c rowm r Hinner Hrowm Hr).
Qed.

(** X19: what [scipy_conv1d] returns for a float64 batch of [n] rows and
    [c_out] kernels has shape [(n, c_out, length_out)], and its row [(m, c)] is
    what [correlate] returns on row [m] of the input and kernel [c], in
    mode ["same"] for the padding ["same"] and in mode ["valid"]
    otherwise, an integer padding adding that many zeros at both ends of
    the row (a correlation of one entry is repeated over the row). *)
Theorem scipy_conv1d_rows (input weights : ndarray) (n c_out len k : nat)
    (padding : padding_t) (out : ndarray) :
  shape input = [n; 1; len]%nat -> shape weights = [c_out; 1; k]%nat ->
  length (data input) = (n * len)%nat ->
  scipy_conv1d input weights padding = Ok out ->
  exists length_out,
    Z.of_nat length_out = resolved_length_out padding len k /\
    shape out = [n; c_out; length_out] /\
    length (data out) = (n * c_out * length_out)%nat /\
    forall m c, (m < n)%nat -> (c < c_out)%nat ->
      exists r,
        correlate (padded_row padding (row_of len (data input) m))
          (row_of k (data weights) c) (resolved_mode padding) = Ok r /\
        assign_row length_out r = Ok (row_of length_out (data out) (m * c_out + c)).
Proof.
  intros Hsi Hsw Hdi. unfold scipy_conv1d. rewrite Hsi, Hsw.
  cbn [py_assert Nat.eqb andb rbind]. intros H.
  assert (Hgen : forall mode len_in buf (lo : Z),
            (let* _ := if lo <? 0
                       then Raise (ValueError "negative dimensions are not allowed")
                       else Ok tt in
             let* rows :=
               for_each (fun m =>
                 for_each (fun c =>
                   let* r := correlate (row_of len_in buf m)
                               (row_of k (data weights) c) mode in
                   assign_row (Z.to_nat lo) r) (py_range c_out)) (py_range n) in
             Ok (mk_ndarray [n; c_out; Z.to_nat lo] (concat (concat rows)))) = Ok out ->
            Z.of_nat (Z.to_nat lo) = lo /\
            shape out = [n; c_out; Z.to_nat lo] /\
            length (data out) = (n * c_out * Z.to_nat lo)%nat /\
            forall m c, (m < n)%nat -> (c < c_out)%nat ->
              exists r,
                correlate (row_of len_in buf m) (row_of k (data weights) c) mode = Ok r /\
                assign_row (Z.to_nat lo) r
                = Ok (row_of (Z.to_nat lo) (data out) (m * c_out + c))).
  { intros mode len_in buf lo Hrun.
    destruct (Z.ltb_spec lo 0); [discriminate|]. cbn [rbind] in Hrun.
    apply rbind_ok in Hrun as (rows & Hrows & Hrun). injection Hrun as <-.
    cbn [shape data].
    destruct (conv_rows_lookup
                (fun m c => let* r := correlate (row_of len_in buf m)
                                        (row_of k (data weights) c) mode in
                            assign_row (Z.to_nat lo) r)
                n c_out (Z.to_nat lo) rows) as [Hl Hrow].
    { intros m c r Hr. apply rbind_ok in Hr as (r0 & _ & Hr).
      apply (assign_row_length _ _ _ Hr). }
    { exact Hrows. }
    split; [lia|]. split; [reflexivity|]. split; [exact Hl|].
    intros m c Hm Hc. specialize (Hrow m c Hm Hc).
    apply rbind_ok in Hrow as (r & Hr & Ha). eauto. }
  destruct padding as [s|p|v]; cbn [resolved_mode padded_row resolved_length_out].
  - destruct (String.eqb s "same") eqn:Es.
    + cbn [rbind] in H. apply Hgen in H as (Hlo & Hs & Hl & Hrow).
      exists (Z.to_nat (Z.of_nat len)). auto.
    + destruct (String.eqb s "valid") eqn:Ev; [|discriminate].
      cbn [rbind] in H. apply Hgen in H as (Hlo & Hs & Hl & Hrow).
      exists (Z.to_nat (Z.of_nat len - 2 * (Z.of_nat k / 2))). auto.
  - destruct (Z.ltb_spec p 0); [discriminate|].
    cbn [rbind] in H. apply Hgen in H as (Hlo & Hs & Hl & Hrow).
    exists (Z.to_nat (Z.of_nat len - (Z.of_nat k - 1) + 2 * p)).
    split; [exact Hlo|]. split; [exact Hs|]. split; [exact Hl|].
    intros m c Hm Hc. destruct (Hrow m c Hm Hc) as (r & Hr & Ha).
    exists r. split; [|exact Ha].
    rewrite (row_of_pad_rows n len (Z.to_nat p) (data input) m Hdi Hm) in Hr. exact Hr.
  - discriminate.
Qed.

Lemma scipy_conv1d_rows_witness :
  (shape (mk_ndarray [1; 1; 4]%nat [1; 2; 3; 4]%Q) = [1; 1; 4]%nat /\
   shape (mk_ndarray [1; 1; 2]%nat [1; 10]%Q) = [1; 1; 2]%nat /\
   length (data (mk_ndarray [1; 1; 4]%nat [1; 2; 3; 4]%Q)) = (1 * 4)%nat /\
   scipy_conv1d (mk_ndarray [1; 1; 4]%nat [1; 2; 3; 4]%Q)
     (mk_ndarray [1; 1; 2]%nat [1; 10]%Q) (PadInt 1)
   = Ok (mk_ndarray [1; 1; 5]%nat [10; 21; 32; 43; 4]%Q)) /\
  exists length_out,
    Z.of_nat length_out = resolved_length_out (PadInt 1) 4 2 /\
    shape (mk_ndarray [1; 1; 5]%nat [10; 21; 32; 43; 4]%Q) = [1; 1; length_out]%nat.
Proof.
  split; [repeat split|].
  destruct (scipy_conv1d_rows (mk_ndarray [1; 1; 4]%nat [1; 2; 3; 4]%Q)
              (mk_ndarray [1; 1; 2]%nat [1; 10]%Q) 1 1 4 2 (PadInt 1)
              (mk_ndarray [1; 1; 5]%nat [10; 21; 32; 43; 4]%Q)
              eq_refl eq_refl eq_refl eq_refl) as (lo & H1 & H2 & _).
  exists lo. split; assumption.
Defined.

(** * When the window builder returns *)

Lemma for_each_is_ok {A B} (f : A -> result B) l :
  is_ok (for_each f l) = true <-> Forall (fun x => is_ok (f x) = true) l.
Proof.
  split.
  - induction l as [|a l IH]; cbn; [constructor|].
    destruct (f a) eqn:Ea; [|discriminate]. cbn [rbind].
    destruct (for_each f l); [|discriminate]. intros _.
    constructor; [rewrite Ea; reflexivity|apply IH; reflexivity].
  - intros H. apply for_each_all_ok. rewrite Forall_forall in H. exact H.
Qed.

Lemma triangle_window_ok_iff bin_centers win_center win_sigma_um :
  is_ok (triangle_window bin_centers win_center win_sigma_um) = true <->
  Exists (fun b => Qabs (b - win_center) <= win_sigma_um / 2)%Q bin_centers.
Proof.
  rewrite triangle_window_unfold. cbv zeta.
  set (p := fun d => Qle_bool d (win_sigma_um / 2)).
  set (dist := fun b => Qabs (b - win_center)).
  assert (Hfilter : List.filter p (map dist bin_centers) <> [] <->
                    Exists (fun b => dist b <= win_sigma_um / 2)%Q bin_centers).
  { induction bin_centers as [|b bs IH]; cbn [map List.filter].
    - split; [congruence|]. intros H. inversion H.
    - destruct (p (dist b)) eqn:E.
      + split; [|discriminate]. intros _. apply Exists_cons_hd.
        apply Qle_bool_iff, E.
      + rewrite IH. split; [apply Exists_cons_tl|].
        intros H. inversion H as [? ? Hb|? ? Hbs]; subst; [|exact Hbs].
        apply Qle_bool_iff in Hb. unfold p in E. congruence. }
  etransitivity; [|exact Hfilter]. clear Hfilter.
  destruct (List.filter p (map dist bin_centers)) as [|d l]; cbn.
  - split; [discriminate|congruence].
  - split; [discriminate|reflexivity].
Qed.


(** * The padding ["valid"] *)

(** X21: the padding ["valid"] by kernel size, on rows of [len] entries
    and kernels of [k] entries.  For an odd [k <= len] it is the integer
    padding 0.  For an even [k = len] the single entry of each correlation
    is written into a row of no entries, and the output is empty.  When
    [2 * (k // 2)] exceeds [len] the output cannot be allocated and the
    call raises [ValueError]. *)
Theorem scipy_conv1d_valid_cases (input weights : ndarray) (n c_out len k : nat) :
  shape input = [n; 1; len]%nat -> shape weights = [c_out; 1; k]%nat ->
  length (data input) = (n * len)%nat -> length (data weights) = (c_out * k)%nat ->
  (0 < len)%nat -> (0 < k)%nat ->
  (Nat.odd k = true -> (k <= len)%nat ->
   scipy_conv1d input weights (PadStr "valid") = scipy_conv1d input weights (PadInt 0)) /\
  (Nat.even k = true -> k = len ->
   scipy_conv1d input weights (PadStr "valid") = Ok (mk_ndarray [n; c_out; 0]%nat [])) /\
  ((len < 2 * (k / 2))%nat ->
   scipy_conv1d input weights (PadStr "valid")
   = Raise (ValueError "negative dimensions are not allowed")).
Proof.
  intros Hsi Hsw Hdi Hdw Hlen Hk.
  assert (Hrow : forall m, (m < n)%nat -> length (row_of len (data input) m) = len).
  { intros m Hm. apply (row_of_length _ _ _ n); assumption. }
  assert (Hker : forall c, (c < c_out)%nat -> length (row_of k (data weights) c) = k).
  { intros c Hc. apply (row_of_length _ _ _ c_out); assumption. }
  unfold scipy_conv1d. rewrite Hsi, Hsw.
  cbn [py_assert Nat.eqb andb rbind String.eqb Ascii.eqb Bool.eqb].
  change (0 <? 0) with false. cbv iota.
  split; [|split].
  - intros Hodd Hle. cbn [rbind].
    assert (Hk2 : Z.of_nat len - 2 * (Z.of_nat k / 2)
                  = Z.of_nat len - (Z.of_nat k - 1) + 2 * 0).
    { rewrite half_of_nat. apply Nat.odd_spec in Hodd as [h ->].
      replace ((2 * h + 1) / 2)%nat with h; [lia|].
      apply (Nat.div_unique (2 * h + 1) 2 h 1); lia. }
    rewrite <- Hk2.
    destruct (Z.ltb_spec (Z.of_nat len - 2 * (Z.of_nat k / 2)) 0); [reflexivity|].
    cbn [rbind].
    rewrite (for_each_ext
               (fun m => for_each (fun c =>
                  let* r := correlate (row_of len (data input) m)
                              (row_of k (data weights) c) mode_valid in
                  assign_row (Z.to_nat (Z.of_nat len - 2 * (Z.of_nat k / 2))) r)
                  (py_range c_out))
               (fun m => for_each (fun c =>
                  let* r := correlate
                              (row_of (len + 2 * Z.to_nat 0)
                                 (pad_rows n len (Z.to_nat 0) (data input)) m)
                              (row_of k (data weights) c) mode_valid in
                  assign_row (Z.to_nat (Z.of_nat len - 2 * (Z.of_nat k / 2))) r)
                  (py_range c_out))
               (py_range n)); [reflexivity|].
    intros m Hm. apply elem_of_seq in Hm.
    rewrite (row_of_pad_rows n len (Z.to_nat 0) (data input) m Hdi) by lia.
    change (Z.to_nat 0) with 0%nat. cbn [repeat app]. rewrite app_nil_r. reflexivity.
  - intros Heven ->.
    assert (Hlo : Z.of_nat len - 2 * (Z.of_nat len / 2) = 0).
    { rewrite half_of_nat. apply Nat.even_spec in Heven as [h Hh].
      replace (len / 2)%nat with h; [lia|].
      apply (Nat.div_unique len 2 h 0); lia. }
    rewrite Hlo. cbn [rbind]. change (0 <? 0) with false. cbv iota. cbn [rbind].
    change (Z.to_nat 0) with 0%nat.
    destruct (for_each _ (py_range n)) as [rows|e] eqn:Erows.
    + cbn [rbind]. f_equal. f_equal.
      destruct (conv_rows_lookup
                  (fun m c => let* r := correlate (row_of len (data input) m)
                                          (row_of len (data weights) c) mode_valid in
                              assign_row 0 r) n c_out 0 rows) as [Hl _].
      * intros m c r Hr. apply rbind_ok in Hr as (r0 & _ & Hr).
        apply (assign_row_length _ _ _ Hr).
      * exact Erows.
      * apply nil_length_inv. rewrite Hl. lia.
    + exfalso.
      assert (Hok : is_ok (for_each (fun m => for_each (fun c =>
                       let* r := correlate (row_of len (data input) m)
                                   (row_of len (data weights) c) mode_valid in
                       assign_row 0 r) (py_range c_out)) (py_range n)) = true).
      { apply for_each_all_ok. intros m Hm. apply elem_of_seq in Hm.
        apply for_each_all_ok. intros c Hc. apply elem_of_seq in Hc.
        destruct (correlate_length (row_of len (data input) m)
                    (row_of len (data weights) c) mode_valid) as (r & Hr & Hrl).
        { rewrite Hrow by lia. lia. }
        { rewrite Hker by lia. lia. }
        rewrite Hr. cbn [rbind]. rewrite Hrow, Hker in Hrl by lia.
        destruct r as [|v [|? ?]]; cbn in Hrl; try lia. reflexivity. }
      rewrite Erows in Hok. discriminate.
  - intros Hneg. cbn [rbind].
    destruct (Z.ltb_spec (Z.of_nat len - 2 * (Z.of_nat k / 2)) 0); [reflexivity|].
    rewrite half_of_nat in *. lia.
Qed.

Lemma scipy_conv1d_valid_cases_witness :
  (shape (mk_ndarray [1; 1; 4]%nat [1; 2; 3; 4]%Q) = [1; 1; 4]%nat /\
   shape (mk_ndarray [2; 1; 4]%nat [1; 10; 100; 1000; 0; 1; 0; 0]%Q) = [2; 1; 4]%nat /\
   Nat.even 4 = true) /\
  scipy_conv1d (mk_ndarray [1; 1; 4]%nat [1; 2; 3; 4]%Q)
    (mk_ndarray [2; 1; 4]%nat [1; 10; 100; 1000; 0; 1; 0; 0]%Q) (PadStr "valid")
  = Ok (mk_ndarray [1; 2; 0]%nat []).
Proof.
  split; [repeat split|].
  destruct (scipy_conv1d_valid_cases (mk_ndarray [1; 1; 4]%nat [1; 2; 3; 4]%Q)
              (mk_ndarray [2; 1; 4]%nat [1; 10; 100; 1000; 0; 1; 0; 0]%Q) 1 2 4 4
              eq_refl eq_refl eq_refl eq_refl) as (_ & Heven & _); [lia..|].
  apply Heven; reflexivity.
Defined.

(** * The first query of a motion *)

Section FirstQuery.
Variable rgi_check : interpolator -> result unit.
Variable rgi_eval : interpolator -> Q -> Q -> result Q.

Local Abbreviation ensure := (ensure_interpolators rgi_check).
Local Abbreviation query := (get_displacement_at_time_and_depth rgi_check rgi_eval).
Local Abbreviation dquery := (displacement_query rgi_eval).

(** What [make_interpolators] stores when it returns. *)
Lemma make_interpolators_ok m :
  interpolators m = None -> (ensure m).2 = Ok tt ->
  exists itps bounds lo hi,
    interpolators (ensure m).1 = Some itps /\
    temporal_bounds (ensure m).1 = Some bounds /\
    spatial_bounds (ensure m).1 = Some (lo, hi) /\
    for_each (fun j : nat =>
                let* t := py_getitem (temporal_bins_s m) (Z.of_nat j) in
                let* d := py_getitem (displacement m) (Z.of_nat j) in
                RegularGridInterpolator rgi_check t (spatial_bins_um m) d
                  (interpolation_method m))
      (py_range (num_segments m)) = Ok itps /\
    for_each first_last (temporal_bins_s m) = Ok bounds /\
    np_min (data (spatial_bins_um m)) = Ok lo /\
    np_max (data (spatial_bins_um m)) = Ok hi.
Proof.
  intros Hi. unfold ensure_interpolators, make_interpolators. rewrite Hi.
  destruct (for_each _ (py_range _)) as [itps|]; [|discriminate].
  cbn [temporal_bins_s set_interpolators spatial_bins_um set_temporal_bounds].
  destruct (for_each first_last _) as [bounds|]; [|discriminate].
  destruct (np_min _) as [lo|]; [|discriminate]. cbn [rbind].
  destruct (np_max _) as [hi|]; [|discriminate]. cbn [rbind fst snd].
  intros _. exists itps, bounds, lo, hi. repeat split.
Qed.

(** X22: the first query of a motion at one point [(t, l)] of segment
    [j].  When the interpolators can be built, the value returned is what
    the interpolator on the grid [(temporal_bins_s[j], spatial_bins_um)]
    with the values [displacement[j]] and the motion's method gives at
    [t] clamped to the first and last temporal bin of the segment and [l]
    clamped to the least and greatest spatial bin. *)
Theorem first_point_query (m : Motion) (j : nat) (tj dj : ndarray) (t l t0 t1 s0 s1 : Q) :
  interpolators m = None ->
  (ensure m).2 = Ok tt ->
  (j < num_segments m)%nat ->
  temporal_bins_s m !! j = Some tj ->
  displacement m !! j = Some dj ->
  first_last tj = Ok (t0, t1) ->
  np_min (data (spatial_bins_um m)) = Ok s0 ->
  np_max (data (spatial_bins_um m)) = Ok s1 ->
  (query m (arr1 [t]) (arr1 [l]) (Some (Z.of_nat j)) false).2
  = let* v := rgi_eval (mk_interpolator tj (spatial_bins_um m) dj (interpolation_method m))
                (clip1 t0 t1 t) (clip1 s0 s1 l) in
    Ok (arr1 [v]).
Proof.
  intros Hi Hok Hj Htj Hdj Hfl Hs0 Hs1.
  destruct (make_interpolators_ok m Hi Hok)
    as (itps & bounds & lo & hi & Hitps & Hb & Hs & Hmk & Hbounds & Hlo & Hhi).
  assert (lo = s0) as -> by congruence. assert (hi = s1) as -> by congruence.
  destruct (for_each_lookup _ _ _ j tj Hbounds Htj) as (tb & Htb & Htb').
  assert (tb = (t0, t1)) as -> by congruence.
  destruct (for_each_lookup _ _ _ j j Hmk) as (itp & Hitp & Hitp').
  { apply lookup_seq_lt. exact Hj. }
  rewrite !py_getitem_nat, Htj, Hdj in Hitp'. cbn [rbind] in Hitp'.
  unfold RegularGridInterpolator in Hitp'.
  apply rbind_ok in Hitp' as ([] & _ & Hitp'). injection Hitp' as <-.
  rewrite query_unfold. cbn [snd]. rewrite Hok. cbn [rbind].
  rewrite dquery_point. cbn [resolve_segment_index rbind].
  rewrite Hb, Hs, Hitps. cbn [attribute rbind].
  rewrite !py_getitem_nat, Htb, Hitp. cbn [rbind fst snd].
  reflexivity.
Qed.
End FirstQuery.

Lemma first_point_query_witness :
  (interpolators example_motion = None /\
   (ensure_interpolators example_check example_motion).2 = Ok tt /\
   (0 < num_segments example_motion)%nat /\
   first_last (arr1 [0; 1; 2]%Q) = Ok (0, 2)%Q) /\
  (get_displacement_at_time_and_depth example_check example_eval example_motion
     (arr1 [5%Q]) (arr1 [10%Q]) (Some (Z.of_nat 0)) false).2
  = let* v := example_eval
                (mk_interpolator (arr1 [0; 1; 2]%Q) (spatial_bins_um example_motion)
                   (mk_ndarray [3; 2]%nat [0; 0; 1; 2; 2; 4]%Q)
                   (interpolation_method example_motion))
                (clip1 0 2 5) (clip1 0 10 10) in
    Ok (arr1 [v]).
Proof.
  split; [split; [reflexivity|split; [reflexivity|split; [simpl; lia|reflexivity]]]|].
  apply (first_point_query example_check example_eval example_motion 0
           (arr1 [0; 1; 2]%Q) (mk_ndarray [3; 2]%nat [0; 0; 1; 2; 2; 4]%Q)
           5 10 0 2 0 10); try reflexivity.
  simpl. lia.
Defined.

(** * The window of a rigid call *)

Lemma Qsum_repeat_one (n : nat) : (Qsum (repeat 1%Q n) == inject_Z (Z.of_nat n))%Q.
Proof.
  induction n as [|n IH]; [reflexivity|].
  change (1 + Qsum (repeat 1%Q n) == inject_Z (Z.of_nat (S n)))%Q.
  rewrite IH, Nat2Z.inj_succ. unfold Z.succ. rewrite inject_Z_plus. ring.
Qed.

Lemma threshold_keeps_ones (thr : Q) (n : nat) :
  (thr <= 1)%Q ->
  map (fun x => if Qltb x thr then 0%Q else x) (repeat 1%Q n) = repeat 1%Q n.
Proof.
  intros Hthr. induction n as [|n IH]; [reflexivity|].
  cbn [repeat map]. rewrite IH. f_equal.
  unfold Qltb. apply Qle_bool_iff in Hthr. rewrite Hthr. reflexivity.
Qed.

(** C7, as amended: a rigid call on [n + 1] bin edges returns exactly one
    window with [n] weights and exactly one centre, the midpoint of the
    first and last edge; the weights are [n] ones when [zero_threshold] is
    [None]; with a [zero_threshold] of at most 1 and [n >= 1] each weight
    is [1 / n], so that the window sums to one. *)
Theorem get_windows_rigid (np_exp : Q -> Q) (contact_pos : ndarray)
    (spatial_bin_edges : list Q) (margin_um win_step_um win_sigma_um : Q)
    (win_shape : win_shape_t) (zero_threshold : option Q) (n : nat) :
  length spatial_bin_edges = S n ->
  exists e0 e1,
    head spatial_bin_edges = Some e0 /\ last spatial_bin_edges = Some e1 /\
    get_windows np_exp true contact_pos spatial_bin_edges margin_um win_step_um
      win_sigma_um win_shape None
    = ([], Ok ([repeat 1%Q n], [((e0 + e1) / 2)%Q])) /\
    exists w,
      get_windows np_exp true contact_pos spatial_bin_edges margin_um win_step_um
        win_sigma_um win_shape zero_threshold
      = ([], Ok ([w], [((e0 + e1) / 2)%Q])) /\
      length w = n /\
      (forall thr, zero_threshold = Some thr -> (thr <= 1)%Q -> (0 < n)%nat ->
         Forall (fun x => (x == 1 / inject_Z (Z.of_nat n))%Q) w /\
         (Qsum w == 1)%Q).
Proof.
  intros Hlen. unfold get_windows.
  rewrite (bin_centers_of_length _ _ Hlen), py_getitem_first, py_getitem_last.
  destruct spatial_bin_edges as [|e0 edges]; [discriminate|].
  destruct (last (e0 :: edges)) as [e1|] eqn:E1.
  2:{ apply last_None in E1. discriminate. }
  exists e0, e1. cbn [rbind head threshold_and_normalize].
  split; [reflexivity|]. split; [reflexivity|]. split; [reflexivity|].
  destruct zero_threshold as [t|]; cbn [threshold_and_normalize map rbind].
  - eexists. split; [reflexivity|].
    split; [rewrite !length_map, repeat_length; reflexivity|].
    intros thr [= <-] Hthr Hn. rewrite (threshold_keeps_ones _ _ Hthr).
    assert (Hne : ~ (inject_Z (Z.of_nat n) == 0)%Q).
    { intros H. apply (Qlt_irrefl 0). rewrite <- H at 2.
      rewrite <- (Zlt_Qlt 0). lia. }
    split.
    + apply Forall_forall. intros x Hx. apply list_elem_of_fmap in Hx as (y & -> & Hy).
      apply list_elem_of_In, repeat_spec in Hy. subst y.
      rewrite Qsum_repeat_one. reflexivity.
    + rewrite Qsum_scale. rewrite Qsum_repeat_one. field. exact Hne.
  - eexists. split; [reflexivity|]. split; [apply repeat_length|].
    intros thr H. discriminate H.
Qed.

(** * Windows of a non-rigid call *)

(** The non-rigid branch with a positive step. *)
Lemma get_windows_nonrigid_unfold (np_exp : Q -> Q) (contact_pos : ndarray)
    (spatial_bin_edges : list Q) (margin_um win_step_um win_sigma_um : Q)
    (win_shape : win_shape_t) (zero_threshold : option Q) (lo hi : Q) :
  np_min (data contact_pos) = Ok lo ->
  np_max (data contact_pos) = Ok hi ->
  (0 < win_step_um)%Q ->
  (get_windows np_exp false contact_pos spatial_bin_edges margin_um
     win_step_um win_sigma_um win_shape zero_threshold).2 =
  let min_ := float64_round (lo - margin_um) in
  let max_ := float64_round (hi + margin_um) in
  let span := float64_round (max_ - min_) in
  let k := Qfloor (span / win_step_um) in
  let border :=
    float64_round (float64_round (span - win_step_um * inject_Z k) / 2) in
  let window_centers := centers_of k win_step_um min_ border in
  let* windows := for_each (one_window np_exp win_shape
                     (bin_centers_of spatial_bin_edges) win_sigma_um) window_centers in
  let* windows := threshold_and_normalize windows zero_threshold in
  Ok (windows, window_centers).
Proof.
  intros Hlo Hhi Hstep. unfold get_windows. cbn [snd]. rewrite Hlo, Hhi. cbn [rbind].
  rewrite (num_windows_of_pos _ _ Hstep). cbn [rbind]. reflexivity.
Qed.

(** C8, as amended: with [rigid=False] and a positive step, whatever the
    call returns has [max(0, k + 1)] windows and as many centres, where
    [k] is the floor of the quotient by the step of the span as float64
    arithmetic computes it, [(max + margin) - (min - margin)] with each
    operation rounded; centre [i] is [i * step + min_ + border] with each
    operation rounded.  When none of these operations rounds, [k] is
    [floor(span / step)] of the exact span, centre [i] is
    [min - margin + (span mod step) / 2 + i * step], consecutive centres
    are one step apart and the first and last centre are at the same
    distance from the two ends of the span.  Gaussian and rect windows
    always return when [zero_threshold] is [None] or [k] is not
    negative. *)
Theorem get_windows_nonrigid (np_exp : Q -> Q) (contact_pos : ndarray)
    (spatial_bin_edges : list Q) (margin_um win_step_um win_sigma_um : Q)
    (win_shape : win_shape_t) (zero_threshold : option Q) (lo hi : Q) :
  np_min (data contact_pos) = Ok lo ->
  np_max (data contact_pos) = Ok hi ->
  (0 < win_step_um)%Q ->
  let min_ := float64_round (lo - margin_um) in
  let max_ := float64_round (hi + margin_um) in
  let span := float64_round (max_ - min_) in
  let k := Qfloor (span / win_step_um) in
  let border :=
    float64_round (float64_round (span - win_step_um * inject_Z k) / 2) in
  let call := get_windows np_exp false contact_pos spatial_bin_edges margin_um
                win_step_um win_sigma_um win_shape zero_threshold in
  (forall windows window_centers,
     call.2 = Ok (windows, window_centers) ->
     length windows = Z.to_nat (k + 1) /\
     length window_centers = Z.to_nat (k + 1) /\
     (forall i c, window_centers !! i = Some c ->
        c = float64_round
              (float64_round
                 (float64_round (inject_Z (Z.of_nat i) * win_step_um) + min_)
               + border)%Q) /\
     ((min_ == lo - margin_um)%Q -> (max_ == hi + margin_um)%Q ->
      (span == max_ - min_)%Q ->
      (border == (span - win_step_um * inject_Z k) / 2)%Q ->
      (forall i c, window_centers !! i = Some c ->
         (c == inject_Z (Z.of_nat i) * win_step_um + min_ + border)%Q) ->
      let exact_span := ((hi + margin_um) - (lo - margin_um))%Q in
      k = Qfloor (exact_span / win_step_um) /\
      (forall i c, window_centers !! i = Some c ->
         (c == (lo - margin_um) + (exact_span - win_step_um * inject_Z k) / 2
               + inject_Z (Z.of_nat i) * win_step_um)%Q) /\
      (forall i c c', window_centers !! i = Some c ->
         window_centers !! S i = Some c' -> (c' - c == win_step_um)%Q) /\
      (forall c0 c1, head window_centers = Some c0 -> last window_centers = Some c1 ->
         (c0 - (lo - margin_um) == (hi + margin_um) - c1)%Q))) /\
  (win_shape = gaussian \/ win_shape = rect -> zero_threshold = None \/ 0 <= k ->
   is_ok call.2 = true).
Proof.
  intros Hlo Hhi Hstep. cbv zeta.
  rewrite (get_windows_nonrigid_unfold np_exp contact_pos spatial_bin_edges margin_um
             win_step_um win_sigma_um win_shape zero_threshold lo hi Hlo Hhi Hstep).
  cbv zeta.
  generalize (float64_round (lo - margin_um)). intros min_.
  generalize (float64_round (hi + margin_um)). intros max_.
  generalize (float64_round (max_ - min_)). intros span.
  generalize (float64_round
                (float64_round (span - win_step_um * inject_Z (Qfloor (span / win_step_um)))
                 / 2)).
  intros border.
  set (k := Qfloor (span / win_step_um)).
  assert (Hget : forall i c, centers_of k win_step_um min_ border !! i = Some c ->
            (i < Z.to_nat (k + 1))%nat /\
            c = float64_round
                  (float64_round
                     (float64_round (inject_Z (Z.of_nat i) * win_step_um) + min_)
                   + border)%Q).
  { intros i c Hc. assert (Hi : (i < Z.to_nat (k + 1))%nat).
    { apply lookup_lt_Some in Hc. rewrite centers_of_length in Hc. exact Hc. }
    rewrite centers_of_lookup in Hc by exact Hi. split; congruence. }
  split.
  - intros windows centers H.
    apply rbind_ok in H as (ws & Hws & H). apply rbind_ok in H as (ws' & Hthr & H).
    injection H as <- <-.
    apply for_each_length in Hws. apply threshold_and_normalize_length in Hthr as [Hthr _].
    rewrite centers_of_length in Hws.
    split; [congruence|]. split; [apply centers_of_length|].
    split; [intros i c Hc; apply Hget in Hc as [_ ->]; reflexivity|].
    intros Emin Emax Espan Eborder Ec.
    assert (Hin : forall i c, centers_of k win_step_um min_ border !! i = Some c ->
              (i < Z.to_nat (k + 1))%nat).
    { intros i c Hc. apply (Hget i c Hc). }
    assert (Hk : k = Qfloor (span / win_step_um)) by reflexivity.
    clearbody k.
    split; [|split; [|split]].
    + rewrite Hk. apply Qfloor_comp. rewrite Espan, Emax, Emin. reflexivity.
    + intros i c Hc. rewrite (Ec i c Hc), Eborder, Espan, Emax, Emin. ring.
    + intros i c c' Hc Hc'. rewrite (Ec _ _ Hc), (Ec _ _ Hc').
      rewrite Nat2Z.inj_succ. unfold Z.succ. rewrite inject_Z_plus. ring.
    + intros c0 c1 H0 H1. rewrite head_lookup in H0. rewrite last_lookup in H1.
      rewrite centers_of_length in H1.
      pose proof (Hin _ _ H0) as Hk0.
      rewrite (Ec _ _ H0), (Ec _ _ H1).
      replace (Z.of_nat (Nat.pred (Z.to_nat (k + 1)))) with k by lia.
      rewrite Eborder, Espan, Emax, Emin. change (inject_Z (Z.of_nat 0)) with 0%Q.
      field.
  - intros Hshape Hthr.
    pose proof (for_each_total _ (centers_of k win_step_um min_ border)
                  (fun c => one_window_total np_exp win_shape
                     (bin_centers_of spatial_bin_edges) win_sigma_um c Hshape)) as Htot.
    destruct (for_each _ _) as [ws|] eqn:Ews; [|discriminate]. cbn [rbind].
    apply for_each_length in Ews. rewrite centers_of_length in Ews.
    destruct Hthr as [-> | Hk]; [reflexivity|].
    destruct zero_threshold as [t|]; [|reflexivity].
    destruct ws as [|w ws]; [cbn [length] in Ews; lia|]. reflexivity.
Qed.

Lemma get_windows_rigid_witness :
  length [0; 1; 2]%Q = 3%nat /\
  exists e0 e1,
    head [0; 1; 2]%Q = Some e0 /\ last [0; 1; 2]%Q = Some e1 /\
    get_windows (fun _ => 1%Q) true (arr1 []) [0; 1; 2]%Q 0 1 1 gaussian None
    = ([], Ok ([repeat 1%Q 2], [((e0 + e1) / 2)%Q])) /\
    exists w,
      get_windows (fun _ => 1%Q) true (arr1 []) [0; 1; 2]%Q 0 1 1 gaussian (Some (1 # 2))
      = ([], Ok ([w], [((e0 + e1) / 2)%Q])) /\
      length w = 2%nat /\
      (forall thr, Some (1 # 2) = Some thr -> (thr <= 1)%Q -> (0 < 2)%nat ->
         Forall (fun x => (x == 1 / inject_Z (Z.of_nat 2))%Q) w /\
         (Qsum w == 1)%Q).
Proof.
  split; [reflexivity|].
  apply (get_windows_rigid (fun _ => 1%Q) (arr1 []) [0; 1; 2]%Q 0 1 1 gaussian
           (Some (1 # 2)) 2).
  reflexivity.
Defined.

(** With a [zero_threshold] the single rigid window is renormalised: two
    bins get the weight 1/2 each, not 1. *)
Lemma get_windows_rigid_counterexample :
  get_windows (fun _ => 1%Q) true (arr1 []) [0; 1; 2]%Q 0 1 1 gaussian (Some (1 # 2))
  = ([], Ok ([[1 # 2; 1 # 2]], [2 # 2]))%Q /\
  ~ Forall (fun x => x == 1)%Q [1 # 2; 1 # 2]%Q.
Proof.
  split; [reflexivity|]. intros H. inversion H as [|x l Hx _]; subst. discriminate Hx.
Qed.

Lemma get_windows_nonrigid_witness :
  (np_min (data (mk_ndarray [2; 2]%nat [0; 0; 0; 10]%Q)) = Ok 0%Q /\
   np_max (data (mk_ndarray [2; 2]%nat [0; 0; 0; 10]%Q)) = Ok 10%Q /\
   (0 < 5)%Q) /\
  is_ok (get_windows (fun _ => 1%Q) false (mk_ndarray [2; 2]%nat [0; 0; 0; 10]%Q)
           [0; 5; 10]%Q 1 5 1 rect None).2 = true /\
  exists windows window_centers,
    (get_windows (fun _ => 1%Q) false (mk_ndarray [2; 2]%nat [0; 0; 0; 10]%Q)
       [0; 5; 10]%Q 1 5 1 rect None).2 = Ok (windows, window_centers) /\
    length windows = 3%nat /\
    (forall i c c', window_centers !! i = Some c ->
       window_centers !! S i = Some c' -> (c' - c == 5)%Q).
Proof.
  pose proof (get_windows_nonrigid (fun _ => 1%Q) (mk_ndarray [2; 2]%nat [0; 0; 0; 10]%Q)
                [0; 5; 10]%Q 1 5 1 rect None 0 10 eq_refl eq_refl eq_refl) as [H1 H2].
  split; [split; [reflexivity|split; reflexivity]|]. split.
  - apply H2; [right; reflexivity|left; reflexivity].
  - assert (H : { r | (get_windows (fun _ => 1%Q) false
                         (mk_ndarray [2; 2]%nat [0; 0; 0; 10]%Q)
                         [0; 5; 10]%Q 1 5 1 rect None).2 = Ok r }).
    { eexists. vm_compute. reflexivity. }
    destruct H as [[windows window_centers] H].
    exists windows, window_centers. split; [exact H|].
    destruct (H1 windows window_centers H) as (Hl & _ & Hc & Hexact).
    split; [exact Hl|].
    assert (E5 : forall i c, window_centers !! i = Some c ->
              (c == inject_Z (Z.of_nat i) * 5 + float64_round (0 - 1)
                    + float64_round
                        (float64_round
                           (float64_round
                              (float64_round (10 + 1) - float64_round (0 - 1))
                            - 5 * inject_Z
                                    (Qfloor
                                       (float64_round
                                          (float64_round (10 + 1)
                                           - float64_round (0 - 1)) / 5))) / 2))%Q).
    { intros i c Hi. rewrite (Hc i c Hi).
      assert (Hlt : (i < 3)%nat).
      { apply lookup_lt_Some in Hi.
        destruct (H1 windows window_centers H) as (_ & Hlc & _). rewrite Hlc in Hi.
        exact Hi. }
      destruct i as [|[|[|i]]]; [vm_compute; reflexivity..|lia]. }
    destruct (Hexact ltac:(vm_compute; reflexivity) ltac:(vm_compute; reflexivity)
                ltac:(vm_compute; reflexivity) ltac:(vm_compute; reflexivity) E5)
      as (_ & _ & Hsp & _).
    exact Hsp.
Defined.

(** A margin that shrinks the probe to less than nothing: the span is -20,
    [floor(span / step) + 1 = -3], and no window is returned. *)
Lemma get_windows_nonrigid_counterexample :
  (get_windows (fun _ => 1%Q) false (mk_ndarray [1; 2]%nat [0; 0]%Q)
     [0; 1; 2]%Q (-10) 5 1 rect None).2 = Ok ([], []) /\
  Z.of_nat (length (@nil (list Q))) <> Qfloor (((0 + -10) - (0 - -10)) / 5) + 1.
Proof. split; [reflexivity|]. vm_compute. discriminate. Qed.

(** Rounding decides the count.  With the float64 nearest to 0.3 as
    second contact position, margin and step, the span is computed as
    0.8999999999999999, below three steps, and three windows are returned;
    the exact span is three steps, for which [floor(span / step) + 1] is
    four. *)
Example get_windows_rounded_span :
  let x := (5404319552844595 # 18014398509481984)%Q in
  (exists windows window_centers,
     (get_windows (fun _ => 1%Q) false (arr1 [0; x]%Q) [0; 1; 2]%Q x x 1 rect None).2
     = Ok (windows, window_centers) /\
     length windows = 3%nat /\ length window_centers = 3%nat) /\
  Qfloor (((x + x) - (0 - x)) / x) + 1 = 4.
Proof.
  cbv zeta. split; [|vm_compute; reflexivity].
  eexists _, _. split; [vm_compute; reflexivity|]. split; reflexivity.
Qed.

